(** * transcribe_segments.py: fixed-window segmentation and incremental
      transcript assembly

    A shallow embedding of the script [transcribe_segments.py].  The script
    loads a mono recording, cuts it into windows of [segment_sec] seconds,
    hands every window that is long enough to the Whisper model and appends
    one time-stamped line per non-empty result to a text file.

    Layout: the Python primitives the script relies on ([Py]), the state and
    exception monad in which the script runs ([Run]), the script itself
    ([Script]), what a run leaves behind ([Obs]), the script again for a
    window length that is any number ([General]), sample inputs
    ([Examples]), and then the properties. *)

From Stdlib Require Import ZArith NArith QArith List String Ascii Strings.Byte Lia.
From Stdlib Require Import Sorted DecimalString Floats.SpecFloat.
From stdpp Require Import gmap strings list.
Import ListNotations.
Local Open Scope Z_scope.

(** ** Python primitives *)

Module Py.

(** A Python [str] is a sequence of Unicode code points. *)
Abbreviation str := (list N).

(** The bytes of a file. *)
Abbreviation bytes := (list byte).

(** Code points of an ASCII literal. *)
Definition lit (s : string) : str := List.map N_of_ascii (list_ascii_of_string s).

Definition newline : N := 10%N.
Definition space : N := 32%N.
(** U+2013 EN DASH, the separator typed in the script's f-string. *)
Definition en_dash : N := 8211%N.

(** [len(x)] *)
Definition len {A : Type} (l : list A) : Z := Z.of_nat (List.length l).

(** [range(n)]: empty when [n <= 0]. *)
Definition range (n : Z) : list Z := List.map Z.of_nat (seq 0 (Z.to_nat n)).

(** Normalisation of one bound of a slice [x[a:b]] over a sequence of
    length [n]: negative bounds count from the end, and everything is
    clamped into [0, n]. *)
Definition slice_index (i n : Z) : Z :=
  if i <? 0 then Z.max (i + n) 0 else Z.min i n.

(** [x[start:stop]] *)
Definition slice {A : Type} (l : list A) (start stop : Z) : list A :=
  let n := len l in
  let a := slice_index start n in
  let b := slice_index stop n in
  firstn (Z.to_nat (b - a)) (skipn (Z.to_nat a) l).

(** [math.ceil(a / b)] for integers [a], [b <> 0].  Python forms the
    correctly rounded binary64 quotient and takes its ceiling.  For a buffer
    length [a] below [2^52] and a positive [b] the rounding cannot cross an
    integer (lemma [float_ceil_quot] below), so the result is the ceiling of
    the exact quotient, which is what is written here ([Z.div] rounds towards
    minus infinity for either sign of [b]).  For a negative [b] the loop only
    depends on the result not being positive, which holds of the float
    computation as well (lemma [float_ceil_quot_neg_divisor]). *)
Definition ceil_quot (a b : Z) : Z := - ((- a) / b).

(** [str.isspace] on one code point (CPython's [_PyUnicode_IsWhitespace]). *)
Definition isspace (c : N) : bool :=
  ((9 <=? c) && (c <=? 13) || (28 <=? c) && (c <=? 32)
   || (c =? 133) || (c =? 160) || (c =? 5760)
   || (8192 <=? c) && (c <=? 8202)
   || (c =? 8232) || (c =? 8233) || (c =? 8239) || (c =? 8287)
   || (c =? 12288))%N.

Fixpoint lstrip (s : str) : str :=
  match s with
  | c :: s' => if isspace c then lstrip s' else s
  | [] => []
  end.

Definition rstrip (s : str) : str := rev (lstrip (rev s)).

(** [s.strip()] *)
Definition strip (s : str) : str := rstrip (lstrip s).

(** [p.rfind(c)]: index of the last occurrence, [-1] when there is none. *)
Fixpoint rfind_from (c : ascii) (p : list ascii) (i found : Z) : Z :=
  match p with
  | [] => found
  | x :: p' => rfind_from c p' (i + 1) (if Ascii.eqb x c then i else found)
  end.

Definition rfind (c : ascii) (p : list ascii) : Z := rfind_from c p 0 (-1).

(** [os.path.splitext] (posixpath): the extension starts at the last dot of
    the last path component, leading dots of that component not counted. *)
Definition splitext (p : string) : string * string :=
  let l := list_ascii_of_string p in
  let sepIndex := rfind "/"%char l in
  let dotIndex := rfind "."%char l in
  if (sepIndex <? dotIndex)
     && existsb (fun a => negb (Ascii.eqb a "."%char)) (slice l (sepIndex + 1) dotIndex)
  then (string_of_list_ascii (slice l 0 dotIndex),
        string_of_list_ascii (skipn (Z.to_nat dotIndex) l))
  else (p, EmptyString).

(** *** Floats (binary64) *)

Definition float := spec_float.

(** [float(z)] *)
Definition float_of_int (z : Z) : float := binary_normalize 53 1024 z 0 false.

(** The quotient [a / b] of two ints, [b <> 0], below [2^53] in absolute
    value: the binary64 division of their exact conversions. *)
Definition float_quot (a b : Z) : float :=
  SFdiv 53 1024 (float_of_int a) (float_of_int b).

(** [x * y] and [x < y] on floats, and the float [0.5]. *)
Definition float_mul (x y : float) : float := SFmul 53 1024 x y.

Definition float_lt (x y : float) : bool := SFltb x y.

Definition float_half : float := S754_finite false 4503599627370496 (-53).

(** [math.ceil(x)] of a finite float. *)
Definition float_ceil (x : float) : Z :=
  match x with
  | S754_finite s m e =>
      let v := if s then Zneg m else Zpos m in
      match e with
      | Zneg p => - ((- v) / 2 ^ Zpos p)
      | _ => v * 2 ^ e
      end
  | _ => 0
  end.

(** The sign bit of a float; a NaN has none. *)
Definition sign_of (x : float) : option bool :=
  match x with
  | S754_zero s | S754_infinity s | S754_finite s _ _ => Some s
  | S754_nan => None
  end.

(** Ten times [m * 2^e], rounded to the nearest integer, ties to even: the
    digits that a [.1f] conversion prints. *)
Definition tenths (m : positive) (e : Z) : Z :=
  match e with
  | Zneg p =>
      let d := 2 ^ Zpos p in
      let n := 10 * Zpos m in
      let q := n / d in
      let r := n mod d in
      if 2 * r <? d then q
      else if d <? 2 * r then q + 1
      else if Z.even q then q else q + 1
  | _ => 10 * Zpos m * 2 ^ e
  end.

(** Decimal digits of a natural number, most significant first. *)
Definition digits (z : Z) : str := lit (NilZero.string_of_uint (N.to_uint (Z.to_N z))).

Definition sign (s : bool) : str := if s then lit "-" else [].

(** [format(x, ".1f")] *)
Definition fixed1 (x : float) : str :=
  match x with
  | S754_nan => lit "nan"
  | S754_infinity s => sign s ++ lit "inf"
  | S754_zero s => sign s ++ lit "0.0"
  | S754_finite s m e =>
      let t := tenths m e in
      sign s ++ digits (t / 10) ++ lit "." ++ digits (t mod 10)
  end.

(** Right alignment in a field of width [w], the default for numbers. *)
Definition rjust (w : Z) (s : str) : str :=
  repeat space (Z.to_nat (w - len s)) ++ s.

(** [format(x, "6.1f")] *)
Definition format_6_1f (x : float) : str := rjust 6 (fixed1 x).

(** *** UTF-8 *)

Definition byte_of_N (n : N) : byte :=
  match Byte.of_N n with Some b => b | None => x00 end.

(** The UTF-8 encoding of one code point. *)
Definition utf8_char (c : N) : bytes :=
  (if c <? 128 then [byte_of_N c]
   else if c <? 2048 then
     [byte_of_N (192 + c / 64); byte_of_N (128 + c mod 64)]
   else if c <? 65536 then
     [byte_of_N (224 + c / 4096); byte_of_N (128 + (c / 64) mod 64);
      byte_of_N (128 + c mod 64)]
   else
     [byte_of_N (240 + c / 262144); byte_of_N (128 + (c / 4096) mod 64);
      byte_of_N (128 + (c / 64) mod 64); byte_of_N (128 + c mod 64)])%N.

(** [s.encode("utf-8")], the encoding of the output file; line terminators
    are written as they are (POSIX). *)
Definition utf8 (s : str) : bytes := flat_map utf8_char s.

End Py.

(** ** Execution model: exceptions, the file system and the buffered writer *)

Module Run.
Import Py.

(** The exceptions that can leave the script. *)
Inductive exn : Set :=
| ZeroDivisionError
| FileNotFoundError
| AudioLoadError
| RecognitionError
| OverflowError
| ValueError.

(** How a computation ends.  [Killed] is the process being ended from
    outside (kill, crash, power loss): unlike an exception it unwinds
    nothing, so no [with] block gets to close its file. *)
Inductive outcome (A : Type) : Type :=
| Returned (a : A)
| Raised (e : exn)
| Killed.
Arguments Returned {A} a.
Arguments Raised {A} e.
Arguments Killed {A}.

(** The part of the machine the script acts on: the regular files of the
    file system, by path, and the bytes written to the one open file object
    that have not been handed to the operating system yet.  Directories and
    permissions are left out: any path can be created, written and removed. *)
Record world : Type := World {
  disk : gmap string bytes;
  pending : bytes
}.

Definition M (A : Type) : Type := world -> outcome A * world.

Definition ret {A : Type} (a : A) : M A := fun w => (Returned a, w).

Definition raise {A : Type} (e : exn) : M A := fun w => (Raised e, w).

Definition bind {A B : Type} (c : M A) (k : A -> M B) : M B :=
  fun w =>
    match c w with
    | (Returned a, w') => k a w'
    | (Raised e, w') => (Raised e, w')
    | (Killed, w') => (Killed, w')
    end.

Declare Scope py_scope.
Delimit Scope py_scope with py.
Notation "x <- c ;; k" := (bind c (fun x => k))
  (at level 100, c at next level, right associativity) : py_scope.
Notation "c ;; k" := (bind c (fun _ => k))
  (at level 100, right associativity) : py_scope.

(** [for x in xs: body(x)] *)
Fixpoint for_each {A : Type} (xs : list A) (body : A -> M unit) : M unit :=
  match xs with
  | [] => ret tt
  | x :: xs' => bind (body x) (fun _ => for_each xs' body)
  end.

(** [a / b] on ints. *)
Definition truediv (a b : Z) : M float :=
  if b =? 0 then raise ZeroDivisionError else ret (float_quot a b).

(** [math.ceil(a / b)] on ints. *)
Definition ceil_truediv (a b : Z) : M Z :=
  if b =? 0 then raise ZeroDivisionError else ret (ceil_quot a b).

(** [os.path.exists(path)] *)
Definition os_path_exists (path : string) : M bool :=
  fun w => (Returned (bool_decide (is_Some (disk w !! path))), w).

(** [os.remove(path)] *)
Definition os_remove (path : string) : M unit :=
  fun w =>
    match disk w !! path with
    | Some _ => (Returned tt, World (delete path (disk w)) (pending w))
    | None => (Raised FileNotFoundError, w)
    end.

(** Bytes appended at the end of the file at [path]. *)
Definition append_to (path : string) (data : bytes) (d : gmap string bytes)
  : gmap string bytes :=
  <[path := default [] (d !! path) ++ data]> d.

(** [open(path, "a")]: the file is created when missing and left as it is
    otherwise; the new file object has nothing buffered. *)
Definition open_append (path : string) : M unit :=
  fun w => (Returned tt, World (append_to path [] (disk w)) []).

(** [f.write(data)] on a block-buffered file object.  CPython keeps the
    encoded text in the buffers of the file object and passes it to the
    operating system only once a buffer is full; the one threshold
    [bufsize] (io.DEFAULT_BUFFER_SIZE, 8192 bytes) stands for that.  This is
    exact as long as fewer than [bufsize] bytes have been written: nothing
    is on disk yet.  Beyond that CPython's two buffers (the pending bytes of
    the text layer and the buffer of the binary layer) may hold back more
    than one threshold does; what is on disk is then still a prefix of what
    was written, and everything once the file is closed, which is all that
    the properties below rely on. *)
Definition fwrite (bufsize : Z) (path : string) (data : bytes) : M unit :=
  fun w =>
    let buffered := pending w ++ data in
    if bufsize <=? len buffered
    then (Returned tt, World (append_to path buffered (disk w)) [])
    else (Returned tt, World (disk w) buffered).

(** [f.close()]: what is still buffered goes to the file. *)
Definition fclose (path : string) (w : world) : world :=
  World (append_to path (pending w) (disk w)) [].

(** [with open(path, "a") as f: block].  The file is closed when the block
    returns and when it raises; when the process is killed inside the block
    nothing more happens. *)
Definition with_open_append {A : Type} (path : string) (block : M A) : M A :=
  fun w =>
    match open_append path w with
    | (Returned _, w1) =>
        match block w1 with
        | (Killed, w2) => (Killed, w2)
        | (r, w2) => (r, fclose path w2)
        end
    | (Raised e, w1) => (Raised e, w1)
    | (Killed, w1) => (Killed, w1)
    end.

End Run.

(** ** The script *)

Module Script.
Import Py Run.
Local Open Scope py_scope.

(** The settings at the top of the script; both numbers are Python ints. *)
Record config : Type := Config {
  wav_path : string;
  segment_sec : Z;
  sr : Z
}.

(** The values the script ships with. *)
Definition script_config : config :=
  {| wav_path := "files.wav"; segment_sec := 30; sr := 16000 |}.

(** A value stored in the dictionary that [model.transcribe] returns; the
    script reads the entry [text], a [str] when Whisper sets it. *)
Inductive pyval : Type :=
| PyNone
| PyStr (s : str).

(** One call of an external capability: it returns, it raises, or the
    process is killed while it runs. *)
Inductive reply (A : Type) : Type :=
| Gives (a : A)
| Fails
| Dies.
Arguments Gives {A} a.
Arguments Fails {A}.
Arguments Dies {A}.

(** What surrounds the script: Whisper's loader and model, and the buffer
    size of file objects.  The recognizer may answer differently from one
    window to the next, so it is given the window index as well. *)
Record environment (sample : Type) : Type := Environment {
  load_audio : string -> option (list sample);
  transcribe : Z -> list sample -> reply (gmap string pyval);
  bufsize : Z
}.
Arguments load_audio {sample} _ _.
Arguments transcribe {sample} _ _ _.
Arguments bufsize {sample} _.

Section WithSample.
Context {sample : Type}.

Definition call_load_audio (env : environment sample) (path : string)
  : M (list sample) :=
  match load_audio env path with
  | Some audio => ret audio
  | None => raise AudioLoadError
  end.

Definition call_transcribe (env : environment sample) (i : Z)
    (segment_audio : list sample) : M (gmap string pyval) :=
  fun w =>
    match transcribe env i segment_audio with
    | Gives result => (Returned result, w)
    | Fails => (Raised RecognitionError, w)
    | Dies => (Killed, w)
    end.

(** [result.get("text") or ""] *)
Definition get_text (result : gmap string pyval) : str :=
  match result !! "text"%string with
  | Some (PyStr s) => s
  | _ => []
  end.

(** [segment_samples = int(segment_sec * sr)]; [int] of an int is that
    int. *)
Definition segment_samples (cfg : config) : Z := segment_sec cfg * sr cfg.

(** [total_segments = math.ceil(total_samples / segment_samples)], once
    it has been computed without error. *)
Definition total_segments (cfg : config) (total_samples : Z) : Z :=
  ceil_quot total_samples (segment_samples cfg).

(** [start = i * segment_samples] *)
Definition window_start (cfg : config) (i : Z) : Z := i * segment_samples cfg.

(** [end = min((i + 1) * segment_samples, total_samples)] *)
Definition window_end (cfg : config) (total_samples i : Z) : Z :=
  Z.min ((i + 1) * segment_samples cfg) total_samples.

(** [len(segment_audio) < sr * 0.5].  Halving is exact in binary64 and
    Python compares an int with a float by their values, so the test is
    [2 * len(segment_audio) < sr] (lemma [too_short_float] below). *)
Definition too_short (cfg : config) (segment_audio : list sample) : bool :=
  2 * len segment_audio <? sr cfg.

(** The f-string written for one transcript line. *)
Definition format_line (start_time end_time : float) (text : str) : str :=
  lit "[" ++ format_6_1f start_time ++ [en_dash] ++ format_6_1f end_time
    ++ lit "s] " ++ text ++ [newline].

(** The body of the [for] loop. *)
Definition body (cfg : config) (env : environment sample)
    (audio : list sample) (out_path : string) (i : Z) : M unit :=
  let start := window_start cfg i in
  let end_ := window_end cfg (len audio) i in
  let segment_audio := slice audio start end_ in
  if too_short cfg segment_audio then ret tt
  else
    start_time <- truediv start (sr cfg) ;;
    end_time <- truediv end_ (sr cfg) ;;
    result <- call_transcribe env i segment_audio ;;
    let text := strip (get_text result) in
    match text with
    | [] => ret tt
    | _ :: _ => fwrite (bufsize env) out_path (utf8 (format_line start_time end_time text))
    end.

(** [os.path.splitext(wav_path)[0] + ".txt"] *)
Definition out_path (cfg : config) : string :=
  (fst (splitext (wav_path cfg)) ++ ".txt")%string.

(** The script, from [load_audio] on.  Loading the model and the [print]
    calls in between act on nothing that is modelled here and are taken to
    return. *)
Definition main (cfg : config) (env : environment sample) : M unit :=
  audio <- call_load_audio env (wav_path cfg) ;;
  let total_samples := len audio in
  audio_duration <- truediv total_samples (sr cfg) ;;
  total_segments <- ceil_truediv total_samples (segment_samples cfg) ;;
  existing <- os_path_exists (out_path cfg) ;;
  (if existing : bool then os_remove (out_path cfg) else ret tt) ;;
  with_open_append (out_path cfg)
    (for_each (range total_segments) (body cfg env audio (out_path cfg))).

(** One run of the script on a file system. *)
Definition run (cfg : config) (env : environment sample)
    (fs : gmap string bytes) : outcome unit * gmap string bytes :=
  let '(r, w) := main cfg env (World fs []) in (r, disk w).

End WithSample.

End Script.

(** ** What a run leaves behind *)

Module Obs.
Import Py Run Script.

(** Everything written to [path] so far: what the file holds followed by what
    the file object still buffers. *)
Definition contents (path : string) (w : world) : bytes :=
  default [] (disk w !! path) ++ pending w.

(** The code points of the decimal digits. *)
Definition decimal_digit (c : N) : Prop := (48 <= c <= 57)%N.

(** A series of [f.write] calls. *)
Definition write_all (bufsize : Z) (path : string) (chunks : list bytes)
    (w : world) : world :=
  fold_left (fun w' chunk => snd (fwrite bufsize path chunk w')) chunks w.

(** One transcript line, by the window it comes from. *)
Record transcript_line : Type := TranscriptLine {
  line_index : Z;
  line_start : Z;
  line_end : Z;
  line_text : str
}.

(** [start_time = start / sr] and [end_time = end / sr] of a line. *)
Definition start_time (cfg : config) (l : transcript_line) : float :=
  float_quot (line_start l) (sr cfg).

Definition end_time (cfg : config) (l : transcript_line) : float :=
  float_quot (line_end l) (sr cfg).

(** The text written for a transcript line. *)
Definition render (cfg : config) (l : transcript_line) : str :=
  format_line (start_time cfg l) (end_time cfg l) (line_text l).

(** The instant, in seconds, of a sample offset: the exact quotient that
    [start / sr] rounds to binary64. *)
Definition exact_time (cfg : config) (samples : Z) : Q :=
  (inject_Z samples / inject_Z (sr cfg))%Q.

Definition render_all (cfg : config) (ls : list transcript_line) : bytes :=
  utf8 (concat (List.map (render cfg) ls)).

Section WithSample.
Context {sample : Type}.

(** [audio[start:end]] for window [i]. *)
Definition segment_audio (cfg : config) (audio : list sample) (i : Z)
  : list sample :=
  slice audio (window_start cfg i) (window_end cfg (len audio) i).

(** A window qualifies when it is long enough and the recognizer returns a
    text that is not empty once trimmed; [line_of] is then its line. *)
Definition line_of (cfg : config) (env : environment sample)
    (audio : list sample) (i : Z) : option transcript_line :=
  if too_short cfg (segment_audio cfg audio i) then None
  else
    match transcribe env i (segment_audio cfg audio i) with
    | Gives result =>
        match strip (get_text result) with
        | [] => None
        | text =>
            Some (TranscriptLine i (window_start cfg i)
                    (window_end cfg (len audio) i) text)
        end
    | _ => None
    end.

(** The lines of the qualifying windows among the first [n], in order. *)
Definition transcript (cfg : config) (env : environment sample)
    (audio : list sample) (n : Z) : list transcript_line :=
  omap (line_of cfg env audio) (range n).

(** The windows [is] visited in order: the lines written and how the loop
    ends. *)
Fixpoint loop_trace (cfg : config) (env : environment sample)
    (audio : list sample) (indices : list Z)
  : list transcript_line * outcome unit :=
  match indices with
  | [] => ([], Returned tt)
  | i :: rest =>
      if too_short cfg (segment_audio cfg audio i) then
        loop_trace cfg env audio rest
      else
        match transcribe env i (segment_audio cfg audio i) with
        | Gives result =>
            let '(ls, r) := loop_trace cfg env audio rest in
            (match line_of cfg env audio i with
             | Some l => l :: ls
             | None => ls
             end, r)
        | Fails => ([], Raised RecognitionError)
        | Dies => ([], Killed)
        end
  end.

(** The recognizer returns on every window of [indices] that it is given. *)
Definition all_answered (cfg : config) (env : environment sample)
    (audio : list sample) (indices : list Z) : Prop :=
  forall i, In i indices ->
    too_short cfg (segment_audio cfg audio i) = false ->
    exists result, transcribe env i (segment_audio cfg audio i) = Gives result.

End WithSample.

End Obs.

(** ** The script for a window length that is any number

    Line 24 passes the window length through [int(segment_sec * sr)], so
    [segment_sec] may be a float as well as an int; a [config] holds a whole
    number of seconds.  Here the script is taken again with a setting that
    is any Python number.  From line 25 on it depends on the setting through
    the number of samples that line 24 computes, which the definitions below
    take as an argument. *)

Module General.
Import Py Run Script Obs.
Local Open Scope py_scope.

(** A Python number: an int or a float. *)
Inductive number : Type :=
| PyInt (z : Z)
| PyFloat (x : float).

Record settings : Type := Settings {
  wav_path : string;
  segment_sec : number;
  sr : Z
}.

(** The settings of a [config]. *)
Definition of_config (cfg : config) : settings :=
  {| wav_path := Script.wav_path cfg;
     segment_sec := PyInt (Script.segment_sec cfg);
     sr := Script.sr cfg |}.

(** The integer part of a finite float, towards zero. *)
Definition float_trunc (x : float) : Z :=
  match x with
  | S754_finite s m e =>
      let magnitude :=
        match e with
        | Zneg p => Zpos m / 2 ^ Zpos p
        | _ => Zpos m * 2 ^ e
        end in
      if s then - magnitude else magnitude
  | _ => 0
  end.

(** [int(x)] of a float: infinities and NaN are refused. *)
Definition int_of_float (x : float) : outcome Z :=
  match x with
  | S754_infinity _ => Raised OverflowError
  | S754_nan => Raised ValueError
  | _ => Returned (float_trunc x)
  end.

(** [segment_samples = int(segment_sec * sr)].  An int times an int is an
    int; a float times an int is a float, the int converted first (refused
    when it is too large for a float). *)
Definition segment_samples (cfg : settings) : outcome Z :=
  match segment_sec cfg with
  | PyInt z => Returned (z * sr cfg)
  | PyFloat x =>
      match float_of_int (sr cfg) with
      | S754_infinity _ => Raised OverflowError
      | y => int_of_float (float_mul x y)
      end
  end.

(** A computation without effect. *)
Definition pure {A : Type} (r : outcome A) : M A := fun w => (r, w).

Section WithSample.
Context {sample : Type}.

(** [total_segments = math.ceil(total_samples / segment_samples)] *)
Definition total_segments (segment_samples total_samples : Z) : Z :=
  ceil_quot total_samples segment_samples.

(** [start = i * segment_samples] *)
Definition window_start (segment_samples i : Z) : Z := i * segment_samples.

(** [end = min((i + 1) * segment_samples, total_samples)] *)
Definition window_end (segment_samples total_samples i : Z) : Z :=
  Z.min ((i + 1) * segment_samples) total_samples.

(** [len(segment_audio) < sr * 0.5], as in [Script.too_short]. *)
Definition too_short (cfg : settings) (segment_audio : list sample) : bool :=
  2 * len segment_audio <? sr cfg.

(** The body of the [for] loop. *)
Definition body (cfg : settings) (segment_samples : Z)
    (env : environment sample) (audio : list sample) (out_path : string)
    (i : Z) : M unit :=
  let start := window_start segment_samples i in
  let end_ := window_end segment_samples (len audio) i in
  let segment_audio := slice audio start end_ in
  if too_short cfg segment_audio then ret tt
  else
    start_time <- truediv start (sr cfg) ;;
    end_time <- truediv end_ (sr cfg) ;;
    result <- call_transcribe env i segment_audio ;;
    let text := strip (get_text result) in
    match text with
    | [] => ret tt
    | _ :: _ => fwrite (bufsize env) out_path (utf8 (format_line start_time end_time text))
    end.

(** [os.path.splitext(wav_path)[0] + ".txt"] *)
Definition out_path (cfg : settings) : string :=
  (fst (splitext (wav_path cfg)) ++ ".txt")%string.

(** The script, from [load_audio] on. *)
Definition main (cfg : settings) (env : environment sample) : M unit :=
  audio <- call_load_audio env (wav_path cfg) ;;
  let total_samples := len audio in
  audio_duration <- truediv total_samples (sr cfg) ;;
  segment_samples <- pure (segment_samples cfg) ;;
  total_segments <- ceil_truediv total_samples segment_samples ;;
  existing <- os_path_exists (out_path cfg) ;;
  (if existing : bool then os_remove (out_path cfg) else ret tt) ;;
  with_open_append (out_path cfg)
    (for_each (range total_segments)
       (body cfg segment_samples env audio (out_path cfg))).

(** One run of the script on a file system. *)
Definition run (cfg : settings) (env : environment sample)
    (fs : gmap string bytes) : outcome unit * gmap string bytes :=
  let '(r, w) := main cfg env (World fs []) in (r, disk w).

(** [audio[start:end]] for window [i]. *)
Definition segment_audio (segment_samples : Z) (audio : list sample) (i : Z)
  : list sample :=
  slice audio (window_start segment_samples i)
    (window_end segment_samples (len audio) i).

(** The text written for a transcript line. *)
Definition render (cfg : settings) (l : transcript_line) : str :=
  format_line (float_quot (line_start l) (sr cfg))
    (float_quot (line_end l) (sr cfg)) (line_text l).

(** The instant, in seconds, of a sample offset. *)
Definition exact_time (cfg : settings) (samples : Z) : Q :=
  (inject_Z samples / inject_Z (sr cfg))%Q.

(** The line of a qualifying window: one that is long enough and for which
    the recognizer returns a text that is not empty once trimmed. *)
Definition line_of (cfg : settings) (segment_samples : Z)
    (env : environment sample) (audio : list sample) (i : Z)
  : option transcript_line :=
  if too_short cfg (segment_audio segment_samples audio i) then None
  else
    match transcribe env i (segment_audio segment_samples audio i) with
    | Gives result =>
        match strip (get_text result) with
        | [] => None
        | text =>
            Some (TranscriptLine i (window_start segment_samples i)
                    (window_end segment_samples (len audio) i) text)
        end
    | _ => None
    end.

(** The lines of the qualifying windows among the first [n], in order. *)
Definition transcript (cfg : settings) (segment_samples : Z)
    (env : environment sample) (audio : list sample) (n : Z)
  : list transcript_line :=
  omap (line_of cfg segment_samples env audio) (range n).

End WithSample.

End General.

(** ** Sample inputs *)

Module Examples.
Import Py Run Script.

(** A recording of [n] samples of silence. *)
Definition silence (n : Z) : list Z := repeat 0 (Z.to_nat n).

(** What the model returns for a window in which it hears "hello". *)
Definition hello : gmap string pyval :=
  {[ "text"%string := PyStr (lit " hello") ]}.

(** What it returns for a window in which it hears nothing. *)
Definition nothing : gmap string pyval :=
  {[ "text"%string := PyStr (lit " ") ]}.

(** The only recording is [files.wav], [n] samples long; [answer] is what
    the recognizer does on each window. *)
Definition studio (n : Z) (answer : Z -> reply (gmap string pyval))
  : environment Z :=
  {| load_audio := fun path =>
       if String.eqb path "files.wav" then Some (silence n) else None;
     transcribe := fun i _ => answer i;
     bufsize := 8192 |}.

(** No recording can be read. *)
Definition no_recording : environment Z :=
  {| load_audio := fun _ => None;
     transcribe := fun _ _ => Gives hello;
     bufsize := 8192 |}.

(** The recognizer hears "hello" in every window. *)
Definition always_hello (i : Z) : reply (gmap string pyval) := Gives hello.

(** The recognizer raises on window [k]. *)
Definition fails_at (k i : Z) : reply (gmap string pyval) :=
  if i =? k then Fails else Gives hello.

(** The process is killed while the recognizer works on window [k]. *)
Definition dies_at (k i : Z) : reply (gmap string pyval) :=
  if i =? k then Dies else Gives hello.

(** The script's settings with the window length negated, and set to zero. *)
Definition negative_window : config :=
  {| wav_path := "files.wav"; segment_sec := -30; sr := 16000 |}.


(** A transcript left at the output path by an earlier run. *)
Definition earlier_transcript : bytes :=
  list_byte_of_string "[   0.0-  30.0s] earlier".

Definition with_earlier_transcript : gmap string bytes :=
  {[ "files.txt"%string := earlier_transcript ]}.

(** A recording with two extensions, in a directory with a dot in its
    name. *)
Definition archived_recording : config :=
  {| wav_path := "talks.v2/day1.final.wav"; segment_sec := 30; sr := 16000 |}.

(** A recording whose name starts with a dot and has no extension. *)
Definition hidden_recording : config :=
  {| wav_path := "talks.v2/.day1"; segment_sec := 30; sr := 16000 |}.


(** The script's settings with a window of half a second. *)
Definition half_second_window : General.settings :=
  {| General.wav_path := "files.wav";
     General.segment_sec := General.PyFloat float_half;
     General.sr := 16000 |}.

(** The floats [0.7], [2.75] and [-2.75]. *)
Definition seven_tenths : float := S754_finite false 6305039478318694 (-53).

Definition two_and_three_quarters : float :=
  S754_finite false 6192449487634432 (-51).

Definition minus_two_and_three_quarters : float :=
  S754_finite true 6192449487634432 (-51).

(** The float [0.25]. *)
Definition quarter : float := S754_finite false 4503599627370496 (-54).

(** The script's settings with a window of a quarter of a second. *)
Definition quarter_second_window : General.settings :=
  {| General.wav_path := "files.wav";
     General.segment_sec := General.PyFloat quarter;
     General.sr := 16000 |}.


End Examples.

(** ** Properties *)

Import Py Run Script Obs Examples.

(** *** Lists, ranges and slices *)

Lemma len_nonneg {A : Type} (l : list A) : 0 <= len l.
Proof. unfold len. lia. Qed.

Lemma len_app {A : Type} (l1 l2 : list A) : len (l1 ++ l2) = len l1 + len l2.
Proof. unfold len. rewrite length_app. lia. Qed.

Lemma len_repeat {A : Type} (x : A) (n : nat) : len (repeat x n) = Z.of_nat n.
Proof. unfold len. now rewrite repeat_length. Qed.

Lemma slice_index_inside (i n : Z) : 0 <= i <= n -> slice_index i n = i.
Proof. intros H. unfold slice_index. destruct (Z.ltb_spec i 0); lia. Qed.

Lemma len_slice {A : Type} (l : list A) (a b : Z) :
  0 <= a <= b -> b <= len l -> len (slice l a b) = b - a.
Proof.
  intros Hab Hb. unfold slice.
  rewrite !slice_index_inside by lia.
  unfold len in *. rewrite length_take, length_drop. lia.
Qed.

Lemma range_nonpos (n : Z) : n <= 0 -> range n = [].
Proof. intros H. unfold range. now replace (Z.to_nat n) with 0%nat by lia. Qed.

Lemma in_range (n i : Z) : In i (range n) <-> 0 <= i < n.
Proof.
  unfold range. rewrite in_map_iff. split.
  - intros (k & <- & Hk). apply in_seq in Hk. lia.
  - intros H. exists (Z.to_nat i). split; [lia|]. apply in_seq. lia.
Qed.

Lemma map_of_nat_seq (s m : nat) :
  List.map Z.of_nat (seq s m)
  = List.map (fun j => Z.of_nat s + j) (List.map Z.of_nat (seq 0 m)).
Proof.
  rewrite <- (Nat.add_0_r s) at 1. rewrite <- fmap_add_seq.
  rewrite !map_map. apply map_ext. intros j. lia.
Qed.

Lemma range_split (n k : Z) :
  0 <= k < n ->
  range n = range k ++ k :: List.map (fun j => k + 1 + j) (range (n - k - 1)).
Proof.
  intros H. unfold range.
  replace (Z.to_nat n) with (Z.to_nat k + S (Z.to_nat (n - k - 1)))%nat by lia.
  rewrite seq_app, map_app. f_equal. cbn [seq List.map Nat.add]. f_equal; [lia|].
  rewrite map_of_nat_seq. apply map_ext. intros j. lia.
Qed.

(** *** The number of windows *)

Lemma ceil_quot_bounds (a b : Z) :
  1 <= b -> (ceil_quot a b - 1) * b < a <= ceil_quot a b * b.
Proof.
  intros Hb. unfold ceil_quot.
  pose proof (Z.mul_div_le (- a) b ltac:(lia)).
  pose proof (Z.mul_succ_div_gt (- a) b ltac:(lia)).
  nia.
Qed.

Lemma ceil_quot_zero (b : Z) : ceil_quot 0 b = 0.
Proof. unfold ceil_quot. now destruct b. Qed.

Lemma ceil_quot_neg_divisor (a b : Z) : 0 <= a -> b < 0 -> ceil_quot a b <= 0.
Proof.
  intros Ha Hb. unfold ceil_quot.
  assert (0 <= - a / b); [|lia].
  rewrite <- Z.div_opp_opp by lia. rewrite Z.opp_involutive.
  apply Z.div_pos; lia.
Qed.

(** *** Binary64 arithmetic *)

Lemma digits2_size (p : positive) : digits2_pos p = Pos.size p.
Proof. induction p; cbn; now rewrite ?IHp. Qed.

Lemma digits2_bounds (p : positive) :
  2 ^ (Zpos (digits2_pos p) - 1) <= Zpos p < 2 ^ Zpos (digits2_pos p).
Proof.
  rewrite digits2_size.
  pose proof (Pos.size_gt p) as Hgt. pose proof (Pos.size_le p) as Hle.
  assert (Zpos (2 ^ Pos.size p) = 2 ^ Zpos (Pos.size p)) as Hpow
    by apply Pos2Z.inj_pow.
  assert (2 ^ Zpos (Pos.size p) = 2 * 2 ^ (Zpos (Pos.size p) - 1)) as Hhalf.
  { rewrite <- Z.pow_succ_r by lia. f_equal. lia. }
  lia.
Qed.

Lemma digits2_unique (p : positive) (n : Z) :
  2 ^ (n - 1) <= Zpos p < 2 ^ n -> Zpos (digits2_pos p) = n.
Proof.
  intros H. pose proof (digits2_bounds p) as Hp.
  destruct (Z.lt_trichotomy (Zpos (digits2_pos p)) n) as [Hlt|[Heq|Hgt]]; [|easy|].
  - assert (2 ^ Zpos (digits2_pos p) <= 2 ^ (n - 1)) by (apply Z.pow_le_mono_r; lia). lia.
  - assert (0 < n \/ n <= 0) as [Hn|Hn] by lia.
    + assert (2 ^ n <= 2 ^ (Zpos (digits2_pos p) - 1)) by (apply Z.pow_le_mono_r; lia). lia.
    + assert (2 ^ n <= 1).
      { destruct (Z.eq_dec n 0) as [->|]; [cbn; lia|]. rewrite Z.pow_neg_r by lia. lia. }
      lia.
Qed.

Lemma round_canonical (s : bool) (m : positive) (e : Z) :
  Zpos (digits2_pos m) = 53 -> -1074 <= e <= 971 ->
  binary_round_aux 53 1024 s (Zpos m) e loc_Exact = S754_finite s m e.
Proof.
  intros Hd He. unfold binary_round_aux, shr_fexp, fexp, emin. cbn [Zdigits2 shr_record_of_loc].
  rewrite Hd.
  replace (Z.max (53 + e - 53) (3 - 1024 - 53) - e) with 0 by lia.
  cbn [shr shr_m loc_of_shr_record round_nearest_even Zdigits2].
  rewrite Hd.
  replace (Z.max (53 + e - 53) (3 - 1024 - 53) - e) with 0 by lia.
  cbn [shr shr_m].
  destruct (Z.leb_spec e (1024 - 53)); [reflexivity|lia].
Qed.

Lemma pos_iter_xO (p k : positive) : Zpos (Pos.iter xO p k) = Zpos p * 2 ^ Zpos k.
Proof.
  induction k as [|k IH] using Pos.peano_ind.
  - cbn. lia.
  - rewrite Pos.iter_succ, Pos2Z.inj_xO, IH, Pos2Z.inj_succ, Z.pow_succ_r by lia. lia.
Qed.

Lemma float_of_int_pos (p : positive) :
  Zpos p < 2 ^ 53 ->
  exists m,
    float_of_int (Zpos p) = S754_finite false m (Zpos (digits2_pos p) - 53)
    /\ Zpos (digits2_pos m) = 53
    /\ Zpos m = Zpos p * 2 ^ (53 - Zpos (digits2_pos p)).
Proof.
  intros Hp. pose proof (digits2_bounds p) as Hd.
  set (d := Zpos (digits2_pos p)) in *.
  assert (1 <= d <= 53) as Hd53.
  { split; [subst d; lia|].
    destruct (Z_le_gt_dec d 53); [easy|].
    assert (2 ^ 53 <= 2 ^ (d - 1)) by (apply Z.pow_le_mono_r; lia). lia. }
  unfold float_of_int, binary_normalize, binary_round, shl_align, fexp, emin.
  fold d. replace (Z.max (d + 0 - 53) (3 - 1024 - 53) - 0) with (d - 53) by lia.
  replace (Z.max (d + 0 - 53) (3 - 1024 - 53)) with (d - 53) by lia.
  destruct (d - 53) as [|k|k] eqn:Hk; [|lia|].
  - exists p. split; [|split].
    + apply round_canonical; lia.
    + fold d. lia.
    + replace (53 - d) with 0 by lia. lia.
  - assert (Zpos (Pos.iter xO p k) = Zpos p * 2 ^ (53 - d)) as Hm.
    { rewrite pos_iter_xO. f_equal. f_equal. lia. }
    assert (Zpos (digits2_pos (Pos.iter xO p k)) = 53) as Hdm.
    { apply digits2_unique. rewrite Hm.
      replace (2 ^ (53 - 1)) with (2 ^ (d - 1) * 2 ^ (53 - d))
        by (rewrite <- Z.pow_add_r by lia; f_equal; lia).
      replace (2 ^ 53) with (2 ^ d * 2 ^ (53 - d))
        by (rewrite <- Z.pow_add_r by lia; f_equal; lia).
      assert (0 < 2 ^ (53 - d)) by (apply Z.pow_pos_nonneg; lia). nia. }
    exists (Pos.iter xO p k). split; [|split; [exact Hdm|exact Hm]].
    apply round_canonical; [exact Hdm|lia].
Qed.

Lemma round_finish (s : bool) (m1 : positive) (e1 : Z) :
  2 ^ 52 <= Zpos m1 <= 2 ^ 53 -> -1074 <= e1 <= 900 ->
  exists mz ez,
    (let '(mrs, e2) := shr_fexp 53 1024 (Zpos m1) e1 loc_Exact in
     match shr_m mrs with
     | Z0 => S754_zero s
     | Zpos m => if e2 <=? 1024 - 53 then S754_finite s m e2 else S754_infinity s
     | Zneg _ => S754_nan
     end) = S754_finite s mz ez
    /\ Zpos (digits2_pos mz) = 53
    /\ e1 <= ez <= e1 + 1
    /\ Zpos mz * 2 ^ (ez - e1) = Zpos m1.
Proof.
  intros Hm He.
  destruct (Z.eq_dec (Zpos m1) (2 ^ 53)) as [Heq|Hne].
  - assert (m1 = 9007199254740992%positive) as -> by lia.
    exists 4503599627370496%positive, (e1 + 1).
    assert (Zpos (digits2_pos 9007199254740992) = 54) as Hd by reflexivity.
    unfold shr_fexp, fexp, emin. cbn [Zdigits2 shr_record_of_loc]. rewrite Hd.
    replace (Z.max (54 + e1 - 53) (3 - 1024 - 53) - e1) with 1 by lia.
    cbn [shr SpecFloat.iter_pos shr_1 shr_m orb].
    destruct (Z.leb_spec (e1 + 1) (1024 - 53)); [|lia].
    split; [reflexivity|]. split; [reflexivity|]. split; [lia|].
    replace (e1 + 1 - e1) with 1 by lia. reflexivity.
  - assert (Zpos (digits2_pos m1) = 53) as Hd by (apply digits2_unique; lia).
    exists m1, e1.
    unfold shr_fexp, fexp, emin. cbn [Zdigits2 shr_record_of_loc]. rewrite Hd.
    replace (Z.max (53 + e1 - 53) (3 - 1024 - 53) - e1) with 0 by lia.
    cbn [shr shr_m].
    destruct (Z.leb_spec e1 (1024 - 53)); [|lia].
    split; [reflexivity|]. split; [reflexivity|]. split; [lia|].
    rewrite Z.sub_diag. lia.
Qed.

Lemma round_up_or_down (m : Z) (l : location) :
  (round_nearest_even m l = m \/ round_nearest_even m l = m + 1)
  /\ (l = loc_Exact -> round_nearest_even m l = m).
Proof.
  destruct l as [|[| |]]; cbn; try (destruct (Z.even m));
    (split; [auto|intros H; try discriminate H; reflexivity]).
Qed.

(** The result of rounding a quotient of 53 or 54 bits. *)
Lemma round_bracket (s : bool) (q : Z) (e : Z) (l : location) :
  2 ^ 52 <= q < 2 ^ 54 -> -1074 <= e <= 800 ->
  exists mz ez,
    binary_round_aux 53 1024 s q e l = S754_finite s mz ez
    /\ Zpos (digits2_pos mz) = 53
    /\ e <= ez <= e + 2
    /\ q - 1 <= Zpos mz * 2 ^ (ez - e) <= q + 2
    /\ (l = loc_Exact -> q < 2 ^ 53 \/ Z.even q = true ->
        Zpos mz * 2 ^ (ez - e) = q).
Proof.
  intros Hq He. destruct q as [|qp|qp]; try lia.
  unfold binary_round_aux.
  destruct (Z_lt_ge_dec (Zpos qp) (2 ^ 53)) as [Hsmall|Hbig].
  - (* 53 bits: no shift before rounding *)
    assert (Zpos (digits2_pos qp) = 53) as Hd by (apply digits2_unique; lia).
    unfold shr_fexp at 1. unfold fexp, emin. cbn [Zdigits2]. rewrite Hd.
    replace (Z.max (53 + e - 53) (3 - 1024 - 53) - e) with 0 by lia.
    cbn [shr].
    assert (loc_of_shr_record (shr_record_of_loc (Zpos qp) l) = l) as ->
      by (now destruct l as [|[| |]]).
    assert (shr_m (shr_record_of_loc (Zpos qp) l) = Zpos qp) as ->
      by (now destruct l as [|[| |]]).
    destruct (round_up_or_down (Zpos qp) l) as [Hround Hexact].
    assert (exists m1, round_nearest_even (Zpos qp) l = Zpos m1
                       /\ 2 ^ 52 <= Zpos m1 <= 2 ^ 53) as (m1 & Hm1 & Hb).
    { destruct Hround as [->| ->]; [exists qp|exists (qp + 1)%positive]; split; try reflexivity; lia. }
    rewrite Hm1.
    destruct (round_finish s m1 e Hb ltac:(lia)) as (mz & ez & Hres & Hdz & Hez & Hval).
    exists mz, ez. split; [exact Hres|]. split; [exact Hdz|]. split; [lia|].
    rewrite Hval. split; [destruct Hround; lia|].
    intros Hl _. rewrite <- Hm1. now apply Hexact.
  - (* 54 bits: one shift before rounding *)
    assert (Zpos (digits2_pos qp) = 54) as Hd by (apply digits2_unique; lia).
    unfold shr_fexp at 1. unfold fexp, emin. cbn [Zdigits2]. rewrite Hd.
    replace (Z.max (54 + e - 53) (3 - 1024 - 53) - e) with 1 by lia.
    cbn [shr SpecFloat.iter_pos].
    assert (exists h, (qp = xO h \/ qp = xI h)) as [h Hh]
      by (destruct qp as [h|h|]; [exists h; now right|exists h; now left|lia]).
    set (l1 := loc_of_shr_record (shr_1 (shr_record_of_loc (Zpos qp) l))).
    assert (shr_m (shr_1 (shr_record_of_loc (Zpos qp) l)) = Zpos h) as ->
      by (destruct Hh as [->| ->]; now destruct l as [|[| |]]).
    assert (l = loc_Exact -> Z.even (Zpos qp) = true -> l1 = loc_Exact) as Hex.
    { intros -> Heven. subst l1. destruct Hh as [->| ->]; [reflexivity|discriminate]. }
    destruct (round_up_or_down (Zpos h) l1) as [Hround Hexact].
    assert (2 * Zpos h <= Zpos qp <= 2 * Zpos h + 1) as Hhq
      by (destruct Hh as [->| ->]; lia).
    assert (exists m1, round_nearest_even (Zpos h) l1 = Zpos m1
                       /\ 2 ^ 52 <= Zpos m1 <= 2 ^ 53) as (m1 & Hm1 & Hb).
    { destruct Hround as [->| ->]; [exists h|exists (h + 1)%positive]; split; try reflexivity; lia. }
    rewrite Hm1.
    destruct (round_finish s m1 (e + 1) Hb ltac:(lia)) as (mz & ez & Hres & Hdz & Hez & Hval).
    exists mz, ez. split; [exact Hres|]. split; [exact Hdz|]. split; [lia|].
    assert (Zpos mz * 2 ^ (ez - e) = 2 * Zpos m1) as ->.
    { replace (ez - e) with (1 + (ez - (e + 1))) by lia.
      rewrite Z.pow_add_r by lia. rewrite <- Hval. change (2 ^ 1) with 2. lia. }
    split; [destruct Hround as [Hr|Hr]; rewrite Hr in Hm1; lia|].
    intros Hl [Hlt|Heven]; [lia|].
    specialize (Hexact (Hex Hl Heven)). rewrite Hexact in Hm1.
    destruct Hh as [->| ->]; [lia|discriminate].
Qed.

Lemma new_location_zero (n : Z) : new_location n 0 = loc_Exact.
Proof. unfold new_location. now destruct (Z.even n). Qed.

(** Division of two floats with full mantissas. *)
Lemma div_canonical (mx my : positive) (ex ey : Z) :
  Zpos (digits2_pos mx) = 53 -> Zpos (digits2_pos my) = 53 ->
  -52 <= ex <= 0 -> -52 <= ey <= 0 ->
  SFdiv 53 1024 (S754_finite false mx ex) (S754_finite false my ey)
  = binary_round_aux 53 1024 false
      ((Zpos mx * 2 ^ 53) / Zpos my) (ex - ey - 53)
      (new_location (Zpos my) ((Zpos mx * 2 ^ 53) mod Zpos my)).
Proof.
  intros Hx Hy Hex Hey.
  unfold SFdiv, SFdiv_core_binary, fexp, emin. cbn [Zdigits2 xorb]. rewrite Hx, Hy.
  replace (Z.min (Z.max (53 + ex - (53 + ey) - 53) (3 - 1024 - 53)) (ex - ey))
    with (ex - ey - 53) by lia.
  replace (ex - ey - (ex - ey - 53)) with 53 by lia.
  rewrite Z.shiftl_mul_pow2 by lia.
  unfold Z.div, Z.modulo.
  now destruct (Z.div_eucl (Zpos mx * 2 ^ 53) (Zpos my)).
Qed.

Lemma float_quot_pos (a b : positive) :
  Zpos a < 2 ^ 53 -> Zpos b < 2 ^ 53 ->
  let E := 53 + Zpos (digits2_pos b) - Zpos (digits2_pos a) in
  let q := (Zpos a * 2 ^ E) / Zpos b in
  exists mz ez,
    float_quot (Zpos a) (Zpos b) = S754_finite false mz ez
    /\ Zpos (digits2_pos mz) = 53
    /\ - E <= ez <= - E + 2
    /\ q - 1 <= Zpos mz * 2 ^ (ez + E) <= q + 2
    /\ ((Zpos a * 2 ^ E) mod Zpos b = 0 -> q < 2 ^ 53 \/ Z.even q = true ->
        Zpos mz * 2 ^ (ez + E) = q).
Proof.
  intros Ha Hb E q.
  destruct (float_of_int_pos a Ha) as (mx & Hfx & Hdx & Hmx).
  destruct (float_of_int_pos b Hb) as (my & Hfy & Hdy & Hmy).
  pose proof (digits2_bounds a) as Hda. pose proof (digits2_bounds b) as Hdb.
  pose proof (digits2_bounds mx) as Hbx. pose proof (digits2_bounds my) as Hby.
  rewrite Hdx in Hbx. rewrite Hdy in Hby.
  set (d1 := Zpos (digits2_pos a)) in *. set (d2 := Zpos (digits2_pos b)) in *.
  assert (1 <= d1 <= 53) as Hd1.
  { split; [subst d1; lia|]. destruct (Z_le_gt_dec d1 53); [easy|].
    assert (2 ^ 53 <= 2 ^ (d1 - 1)) by (apply Z.pow_le_mono_r; lia). lia. }
  assert (1 <= d2 <= 53) as Hd2.
  { split; [subst d2; lia|]. destruct (Z_le_gt_dec d2 53); [easy|].
    assert (2 ^ 53 <= 2 ^ (d2 - 1)) by (apply Z.pow_le_mono_r; lia). lia. }
  unfold float_quot. rewrite Hfx, Hfy.
  rewrite div_canonical by (try assumption; lia).
  assert (0 < 2 ^ (53 - d2)) as Hc by (apply Z.pow_pos_nonneg; lia).
  assert (Zpos mx * 2 ^ 53 = (Zpos a * 2 ^ E) * 2 ^ (53 - d2)) as Hnum.
  { rewrite Hmx. subst E. rewrite <- !Z.mul_assoc, <- !Z.pow_add_r by lia.
    f_equal. f_equal. lia. }
  assert (Zpos mx * 2 ^ 53 / Zpos my = q) as Hq.
  { rewrite Hnum, Hmy. subst q. apply Z.div_mul_cancel_r; lia. }
  assert ((Zpos mx * 2 ^ 53) mod Zpos my = ((Zpos a * 2 ^ E) mod Zpos b) * 2 ^ (53 - d2))
    as Hr.
  { rewrite Hnum, Hmy. apply Z.mul_mod_distr_r; lia. }
  assert (2 ^ 52 <= q < 2 ^ 54) as Hqb.
  { rewrite <- Hq. change (2 ^ (53 - 1)) with (2 ^ 52) in *. split.
    - apply Z.div_le_lower_bound; [lia|].
      change (2 ^ 52) with 4503599627370496 in *.
      change (2 ^ 53) with 9007199254740992 in *. lia.
    - apply Z.div_lt_upper_bound; [lia|].
      change (2 ^ 52) with 4503599627370496 in *.
      change (2 ^ 53) with 9007199254740992 in *.
      change (2 ^ 54) with 18014398509481984. lia. }
  rewrite Hq, Hr.
  replace (d1 - 53 - (d2 - 53) - 53) with (- E) by (subst E; lia).
  destruct (round_bracket false q (- E)
              (new_location (Zpos my) ((Zpos a * 2 ^ E) mod Zpos b * 2 ^ (53 - d2)))
              Hqb ltac:(subst E; lia))
    as (mz & ez & Hres & Hdz & Hez & Hval & Hexact).
  exists mz, ez. replace (ez + E) with (ez - - E) by lia.
  split; [exact Hres|]. split; [exact Hdz|]. split; [lia|]. split; [exact Hval|].
  intros Hzero Heven. apply Hexact; [|exact Heven].
  rewrite Hzero, Z.mul_0_l. apply new_location_zero.
Qed.

Lemma float_quot_zero (b : Z) :
  1 <= b < 2 ^ 53 -> float_quot 0 b = S754_zero false.
Proof.
  intros Hb. destruct b as [|pb|pb]; try lia.
  destruct (float_of_int_pos pb ltac:(lia)) as (my & Hfy & _).
  unfold float_quot. rewrite Hfy. reflexivity.
Qed.

(** [math.ceil(a / b)] is the integer ceiling of the quotient. *)
Lemma float_ceil_quot (a b : Z) :
  0 <= a < 2 ^ 52 -> 1 <= b < 2 ^ 53 ->
  float_ceil (float_quot a b) = ceil_quot a b.
Proof.
  intros Ha Hb.
  destruct a as [|pa|pa]; try lia.
  { rewrite float_quot_zero by exact Hb. now destruct b. }
  destruct b as [|pb|pb]; try lia.
  destruct (float_quot_pos pa pb ltac:(lia) ltac:(lia))
    as (mz & ez & Hres & _ & Hez & Hval & Hexact).
  pose proof (digits2_bounds pa) as Hda. pose proof (digits2_bounds pb) as Hdb.
  set (d1 := Zpos (digits2_pos pa)) in *. set (d2 := Zpos (digits2_pos pb)) in *.
  assert (1 <= d1 <= 52) as Hd1.
  { split; [subst d1; lia|]. destruct (Z_le_gt_dec d1 52); [easy|].
    assert (2 ^ 52 <= 2 ^ (d1 - 1)) by (apply Z.pow_le_mono_r; lia). lia. }
  assert (1 <= d2) as Hd2 by (subst d2; lia).
  set (E := 53 + d2 - d1) in *. set (U := 2 ^ E) in *.
  assert (2 * Zpos pb < U) as HU.
  { subst U E. replace (53 + d2 - d1) with (d2 + 1 + (52 - d1)) by lia.
    rewrite !Z.pow_add_r by lia. change (2 ^ 1) with 2.
    assert (0 < 2 ^ (52 - d1)) by (apply Z.pow_pos_nonneg; lia). nia. }
  assert (Z.even U = true) as Heven.
  { subst U. replace E with (Z.succ (E - 1)) by lia.
    rewrite Z.pow_succ_r by lia. apply Z.even_mul. }
  pose proof (ceil_quot_bounds (Zpos pa) (Zpos pb) ltac:(lia)) as Hk.
  set (k := ceil_quot (Zpos pa) (Zpos pb)) in *.
  set (q := Zpos pa * U / Zpos pb) in *.
  pose proof (Z.mul_div_le (Zpos pa * U) (Zpos pb) ltac:(lia)) as Hq1.
  pose proof (Z.mul_succ_div_gt (Zpos pa * U) (Zpos pb) ltac:(lia)) as Hq2.
  fold q in Hq1, Hq2.
  set (V := Zpos mz * 2 ^ (ez + E)) in *.
  assert ((k - 1) * U < V <= k * U) as HV.
  { split; [nia|].
    destruct (Z.eq_dec (Zpos pa) (k * Zpos pb)) as [Heq|Hne].
    - assert (q = k * U) as Hqk.
      { subst q. rewrite Heq. replace (k * Zpos pb * U) with (k * U * Zpos pb) by lia.
        apply Z.div_mul. lia. }
      rewrite Hexact; [lia| |].
      + rewrite Heq. replace (k * Zpos pb * U) with (k * U * Zpos pb) by lia.
        apply Z.mod_mul. lia.
      + right. rewrite Hqk, Z.even_mul, Heven. now destruct (Z.even k).
    - nia. }
  rewrite Hres. unfold float_ceil. fold k.
  assert (0 <= ez + E <= 2) as Hj by lia.
  assert (U = 2 ^ (- ez) * 2 ^ (ez + E)) as HUsplit.
  { subst U. rewrite <- Z.pow_add_r by lia. f_equal. lia. }
  assert (0 < 2 ^ (ez + E)) as Hjpos by (apply Z.pow_pos_nonneg; lia).
  assert (0 < 2 ^ (- ez)) as Hepos by (apply Z.pow_pos_nonneg; lia).
  subst V. destruct ez as [|pe|pe]; try lia.
  - change (2 ^ (- 0)) with 1 in *. rewrite Z.pow_0_r. nia.
  - change (- Zneg pe) with (Zpos pe) in *.
    assert (- Zpos mz / 2 ^ Zpos pe = - k); [|lia].
    symmetry. apply Z.div_unique with (r := k * 2 ^ Zpos pe - Zpos mz); nia.
Qed.

(** Rounding keeps the sign. *)
Lemma round_aux_sign (s : bool) (m e : Z) (l : location) :
  sign_of (binary_round_aux 53 1024 s m e l) = Some s
  \/ binary_round_aux 53 1024 s m e l = S754_nan.
Proof.
  unfold binary_round_aux.
  destruct (shr_fexp 53 1024 m e l) as [mrs' e'].
  destruct (shr_fexp 53 1024 _ e' loc_Exact) as [mrs'' e''].
  destruct (shr_m mrs''); [now left| |now right].
  destruct (e'' <=? 1024 - 53); now left.
Qed.

Lemma float_of_int_sign (z : Z) :
  z <> 0 ->
  sign_of (float_of_int z) = Some (z <? 0) \/ float_of_int z = S754_nan.
Proof.
  intros Hz. unfold float_of_int, binary_normalize, binary_round.
  destruct z as [|p|p]; [easy | |];
    destruct (shl_align _ _ _) as [mz ez]; apply round_aux_sign.
Qed.

Lemma float_ceil_nonpos (x : float) :
  sign_of x = Some true \/ x = S754_nan -> float_ceil x <= 0.
Proof.
  intros [H| ->]; [|easy].
  destruct x as [s|s| |s m e]; try easy.
  injection H as ->. cbn [float_ceil].
  destruct e as [|p|p]; [lia| |];
    pose proof (Z.pow_pos_nonneg 2 (Zpos p) ltac:(lia) ltac:(lia)).
  - apply Z.mul_nonpos_nonneg; lia.
  - assert (0 <= Zpos m / 2 ^ Zpos p) by (apply Z.div_pos; lia).
    change (- Zneg m) with (Zpos m). lia.
Qed.

(** [math.ceil(a / b)] is not positive when [b] is negative, whatever the
    sizes of [a] and [b]. *)
Lemma float_ceil_quot_neg_divisor (a b : Z) :
  0 <= a -> b < 0 -> float_ceil (float_quot a b) <= 0.
Proof.
  intros Ha Hb. unfold float_quot.
  destruct (float_of_int_sign b ltac:(lia)) as [Hy|Hy].
  2:{ rewrite Hy. now destruct (float_of_int a). }
  replace (b <? 0) with true in Hy by (symmetry; apply Z.ltb_lt; lia).
  assert (Hx : float_of_int a = S754_zero false
               \/ sign_of (float_of_int a) = Some false
               \/ float_of_int a = S754_nan).
  { destruct (Z.eq_dec a 0) as [->|Hne]; [now left|right].
    destruct (float_of_int_sign a Hne) as [H|H]; [left|now right].
    now replace (a <? 0) with false in H by (symmetry; apply Z.ltb_ge; lia). }
  apply float_ceil_nonpos.
  destruct (float_of_int b) as [sy|sy| |sy my ey]; try easy;
    injection Hy as ->;
    destruct (float_of_int a) as [sx|sx| |sx mx ex];
    try (now right); try (destruct Hx as [Hx|[Hx|Hx]]; try easy;
         injection Hx as ->; now left).
  cbn [SFdiv].
  destruct (SFdiv_core_binary _ _ _ _ _ _) as [[mz ez] lz].
  destruct Hx as [Hx|[Hx|Hx]]; try easy. injection Hx as ->.
  apply round_aux_sign.
Qed.

Lemma pow2_cancel (x y A B : Z) :
  2 ^ 52 <= x < 2 ^ 53 -> 2 ^ 52 <= y < 2 ^ 53 -> 0 <= A -> 0 <= B ->
  x * 2 ^ A = y * 2 ^ B -> A = B /\ x = y.
Proof.
  intros Hx Hy HA HB Heq.
  change (2 ^ 52) with 4503599627370496 in *.
  change (2 ^ 53) with 9007199254740992 in *.
  assert (0 < 2 ^ A) by (apply Z.pow_pos_nonneg; lia).
  assert (0 < 2 ^ B) by (apply Z.pow_pos_nonneg; lia).
  destruct (Z.lt_trichotomy A B) as [Hlt|[->|Hgt]].
  - exfalso. replace B with (A + Z.succ (B - A - 1)) in Heq by lia.
    rewrite Z.pow_add_r, Z.pow_succ_r in Heq by lia.
    assert (0 < 2 ^ (B - A - 1)) by (apply Z.pow_pos_nonneg; lia).
    assert (x = y * (2 * 2 ^ (B - A - 1))) as Hx'
      by (apply Z.mul_reg_r with (p := 2 ^ A); [lia|rewrite Heq; ring]).
    nia.
  - split; [reflexivity|]. apply Z.mul_reg_r with (p := 2 ^ B); lia.
  - exfalso. replace A with (B + Z.succ (A - B - 1)) in Heq by lia.
    rewrite Z.pow_add_r, Z.pow_succ_r in Heq by lia.
    assert (0 < 2 ^ (A - B - 1)) by (apply Z.pow_pos_nonneg; lia).
    assert (y = x * (2 * 2 ^ (A - B - 1))) as Hy'
      by (apply Z.mul_reg_r with (p := 2 ^ B); [lia|rewrite <- Heq; ring]).
    nia.
Qed.

(** The quotient of a multiple of [b] by [b] is exact. *)
Lemma float_quot_exact (q b : Z) :
  0 <= q -> 1 <= b < 2 ^ 53 -> q * b < 2 ^ 53 ->
  float_quot (q * b) b = float_of_int q.
Proof.
  intros Hq Hb Hqb.
  destruct q as [|pq|pq]; try lia.
  { rewrite Z.mul_0_l. now apply float_quot_zero. }
  destruct b as [|pb|pb]; try lia.
  change (Zpos pq * Zpos pb) with (Zpos (pq * pb)) in *.
  destruct (float_quot_pos (pq * pb) pb ltac:(lia) ltac:(lia))
    as (mz & ez & Hres & Hdz & Hez & _ & Hexact).
  destruct (float_of_int_pos pq ltac:(nia)) as (m0 & Hf0 & Hd0 & Hm0).
  pose proof (digits2_bounds (pq * pb)) as Hda. pose proof (digits2_bounds pb) as Hdb.
  pose proof (digits2_bounds pq) as Hdq.
  pose proof (digits2_bounds mz) as Hbz. pose proof (digits2_bounds m0) as Hb0.
  rewrite Hdz in Hbz. rewrite Hd0 in Hb0. change (2 ^ (53 - 1)) with (2 ^ 52) in *.
  set (d1 := Zpos (digits2_pos (pq * pb))) in *.
  set (d2 := Zpos (digits2_pos pb)) in *. set (dq := Zpos (digits2_pos pq)) in *.
  assert (1 <= d1 <= 53) as Hd1.
  { split; [subst d1; lia|]. destruct (Z_le_gt_dec d1 53); [easy|].
    assert (2 ^ 53 <= 2 ^ (d1 - 1)) by (apply Z.pow_le_mono_r; lia). lia. }
  assert (1 <= dq <= 53) as Hdq53.
  { split; [subst dq; lia|]. destruct (Z_le_gt_dec dq 53); [easy|].
    assert (2 ^ 53 <= 2 ^ (dq - 1)) by (apply Z.pow_le_mono_r; lia). nia. }
  assert (1 <= d2) as Hd2 by (subst d2; lia).
  set (E := 53 + d2 - d1) in *.
  assert (Zpos (pq * pb) * 2 ^ E / Zpos pb = Zpos pq * 2 ^ E) as Hquot.
  { rewrite Pos2Z.inj_mul.
    replace (Zpos pq * Zpos pb * 2 ^ E) with (Zpos pq * 2 ^ E * Zpos pb) by lia.
    apply Z.div_mul. lia. }
  assert (Zpos mz * 2 ^ (ez + E) = Zpos pq * 2 ^ E) as Hval.
  { rewrite <- Hquot. apply Hexact.
    - rewrite Pos2Z.inj_mul.
      replace (Zpos pq * Zpos pb * 2 ^ E) with (Zpos pq * 2 ^ E * Zpos pb) by lia.
      apply Z.mod_mul. lia.
    - right. rewrite Hquot. replace E with (Z.succ (E - 1)) by lia.
      rewrite Z.pow_succ_r by lia.
      replace (Zpos pq * (2 * 2 ^ (E - 1))) with (2 * (Zpos pq * 2 ^ (E - 1))) by lia.
      apply Z.even_mul. }
  assert (Zpos mz * 2 ^ (ez + E + (53 - dq)) = Zpos m0 * 2 ^ E) as Hscaled.
  { rewrite Z.pow_add_r by lia. rewrite Z.mul_assoc, Hval, Hm0. lia. }
  destruct (pow2_cancel (Zpos mz) (Zpos m0) (ez + E + (53 - dq)) E
              ltac:(lia) ltac:(lia) ltac:(lia) ltac:(lia) Hscaled) as [HA Hm].
  rewrite Hres, Hf0. f_equal; [lia|fold dq; lia].
Qed.

(** Conversion of ints below 2^53 keeps their order. *)
Lemma float_of_int_lt (a b : Z) :
  0 <= a < 2 ^ 53 -> 0 <= b < 2 ^ 53 ->
  float_lt (float_of_int a) (float_of_int b) = (a <? b).
Proof.
  intros Ha Hb.
  destruct a as [|pa|pa]; try lia; destruct b as [|pb|pb]; try lia.
  - reflexivity.
  - destruct (float_of_int_pos pb ltac:(lia)) as (my & -> & _). reflexivity.
  - destruct (float_of_int_pos pa ltac:(lia)) as (mx & -> & _). reflexivity.
  - destruct (float_of_int_pos pa ltac:(lia)) as (mx & -> & Hdx & Hmx).
    destruct (float_of_int_pos pb ltac:(lia)) as (my & -> & Hdy & Hmy).
    pose proof (digits2_bounds pa) as Hda. pose proof (digits2_bounds pb) as Hdb.
    set (d1 := Zpos (digits2_pos pa)) in *. set (d2 := Zpos (digits2_pos pb)) in *.
    assert (1 <= d1 <= 53) as Hd1.
    { split; [subst d1; lia|]. destruct (Z_le_gt_dec d1 53); [easy|].
      assert (2 ^ 53 <= 2 ^ (d1 - 1)) by (apply Z.pow_le_mono_r; lia). lia. }
    assert (1 <= d2 <= 53) as Hd2.
    { split; [subst d2; lia|]. destruct (Z_le_gt_dec d2 53); [easy|].
      assert (2 ^ 53 <= 2 ^ (d2 - 1)) by (apply Z.pow_le_mono_r; lia). lia. }
    unfold float_lt, SFltb, SFcompare.
    destruct (Z.compare_spec (d1 - 53) (d2 - 53)) as [Heq|Hlt|Hgt].
    + assert (d1 = d2) as Hd by lia. rewrite Hd in Hmx.
      assert (0 < 2 ^ (53 - d2)) by (apply Z.pow_pos_nonneg; lia).
      change (Pos.compare_cont Eq mx my) with (Pos.compare mx my).
      rewrite Pos2Z.inj_compare.
      destruct (Z.compare_spec (Zpos mx) (Zpos my));
        destruct (Z.ltb_spec (Zpos pa) (Zpos pb)); try reflexivity; nia.
    + assert (2 ^ d1 <= 2 ^ (d2 - 1)) by (apply Z.pow_le_mono_r; lia).
      destruct (Z.ltb_spec (Zpos pa) (Zpos pb)); [reflexivity|lia].
    + assert (2 ^ d2 <= 2 ^ (d1 - 1)) by (apply Z.pow_le_mono_r; lia).
      destruct (Z.ltb_spec (Zpos pa) (Zpos pb)); [lia|reflexivity].
Qed.

(** [x * 0.5] is exact: the mantissa stays and the exponent drops by one. *)
Lemma float_mul_half (sr : Z) (m : positive) (e : Z) :
  1 <= sr < 2 ^ 53 -> float_of_int sr = S754_finite false m e ->
  float_mul (float_of_int sr) float_half = S754_finite false m (e - 1).
Proof.
  intros Hsr Hf. destruct sr as [|p|p]; try lia.
  destruct (float_of_int_pos p ltac:(lia)) as (m' & Hf' & Hd & Hm).
  rewrite Hf in Hf'. injection Hf' as -> He. rewrite Hf.
  pose proof (digits2_bounds p) as Hdp.
  assert (-52 <= e <= 0) as Hrange.
  { rewrite He. split; [lia|].
    destruct (Z_le_gt_dec (Zpos (digits2_pos p)) 53); [lia|].
    assert (2 ^ 53 <= 2 ^ (Zpos (digits2_pos p) - 1)) by (apply Z.pow_le_mono_r; lia).
    lia. }
  unfold float_mul, SFmul, float_half. cbn [xorb].
  rewrite Pos.mul_comm.
  unfold binary_round_aux.
  assert (Zpos (digits2_pos (4503599627370496 * m')) = 105) as Hdd.
  { apply digits2_unique. rewrite Pos2Z.inj_mul.
    pose proof (digits2_bounds m') as Hb. rewrite Hd in Hb.
    change (2 ^ (53 - 1)) with 4503599627370496 in Hb.
    change (2 ^ 53) with 9007199254740992 in Hb.
    change (2 ^ (105 - 1)) with (4503599627370496 * 4503599627370496).
    change (2 ^ 105) with (4503599627370496 * 9007199254740992). nia. }
  unfold shr_fexp at 1. unfold fexp, emin. cbn [Zdigits2]. rewrite Hdd.
  replace (Z.max (105 + (e + -53) - 53) (3 - 1024 - 53) - (e + -53)) with 52 by lia.
  cbn [shr shr_record_of_loc].
  assert (SpecFloat.iter_pos shr_1 52
            (Build_shr_record (Zpos (4503599627370496 * m')) false false)
          = Build_shr_record (Zpos m') false false) as -> by reflexivity.
  cbn [shr_m loc_of_shr_record round_nearest_even].
  unfold shr_fexp. unfold fexp, emin. cbn [Zdigits2 shr_record_of_loc]. rewrite Hd.
  replace (Z.max (53 + (e + -53 + 52) - 53) (3 - 1024 - 53) - (e + -53 + 52)) with 0 by lia.
  cbn [shr shr_m].
  destruct (Z.leb_spec (e + -53 + 52) (1024 - 53)); [|lia].
  f_equal. lia.
Qed.

(** Order of two positive floats with full mantissas, by their values. *)
Lemma canonical_lt (m1 m2 : positive) (e1 e2 K : Z) :
  Zpos (digits2_pos m1) = 53 -> Zpos (digits2_pos m2) = 53 ->
  0 <= e1 + K -> 0 <= e2 + K ->
  float_lt (S754_finite false m1 e1) (S754_finite false m2 e2)
  = (Zpos m1 * 2 ^ (e1 + K) <? Zpos m2 * 2 ^ (e2 + K)).
Proof.
  intros Hd1 Hd2 H1 H2.
  pose proof (digits2_bounds m1) as Hb1. pose proof (digits2_bounds m2) as Hb2.
  rewrite Hd1 in Hb1. rewrite Hd2 in Hb2.
  change (2 ^ (53 - 1)) with 4503599627370496 in *.
  change (2 ^ 53) with 9007199254740992 in *.
  assert (0 < 2 ^ (e1 + K)) by (apply Z.pow_pos_nonneg; lia).
  assert (0 < 2 ^ (e2 + K)) by (apply Z.pow_pos_nonneg; lia).
  unfold float_lt, SFltb, SFcompare.
  destruct (Z.compare_spec e1 e2) as [Heq|Hlt|Hgt].
  - subst e2. change (Pos.compare_cont Eq m1 m2) with (Pos.compare m1 m2).
    rewrite Pos2Z.inj_compare.
    destruct (Z.compare_spec (Zpos m1) (Zpos m2)) as [Hm|Hm|Hm];
      destruct (Z.ltb_spec (Zpos m1 * 2 ^ (e1 + K)) (Zpos m2 * 2 ^ (e1 + K)))
        as [Hv|Hv]; try reflexivity; exfalso.
    + rewrite Hm in Hv. lia.
    + assert (Zpos m1 * 2 ^ (e1 + K) < Zpos m2 * 2 ^ (e1 + K))
        by (apply Z.mul_lt_mono_pos_r; lia). lia.
    + assert (Zpos m2 * 2 ^ (e1 + K) < Zpos m1 * 2 ^ (e1 + K))
        by (apply Z.mul_lt_mono_pos_r; lia). lia.
  - replace (e2 + K) with (e1 + K + Z.succ (e2 - e1 - 1)) in * by lia.
    rewrite (Z.pow_add_r 2 (e1 + K) (Z.succ (e2 - e1 - 1))), Z.pow_succ_r by lia.
    set (P := 2 ^ (e1 + K)) in *. set (R := 2 ^ (e2 - e1 - 1)).
    assert (0 < R) by (apply Z.pow_pos_nonneg; lia).
    assert (2 * Zpos m2 <= Zpos m2 * (2 * R)) by nia.
    assert (Zpos m1 * P < Zpos m2 * (2 * R) * P)
      by (apply Z.mul_lt_mono_pos_r; lia).
    destruct (Z.ltb_spec (Zpos m1 * P) (Zpos m2 * (P * (2 * R))));
      [reflexivity|lia].
  - replace (e1 + K) with (e2 + K + Z.succ (e1 - e2 - 1)) in * by lia.
    rewrite (Z.pow_add_r 2 (e2 + K) (Z.succ (e1 - e2 - 1))), Z.pow_succ_r by lia.
    set (P := 2 ^ (e2 + K)) in *. set (R := 2 ^ (e1 - e2 - 1)).
    assert (0 < R) by (apply Z.pow_pos_nonneg; lia).
    assert (2 * Zpos m1 <= Zpos m1 * (2 * R)) by nia.
    assert (Zpos m2 * P < Zpos m1 * (2 * R) * P)
      by (apply Z.mul_lt_mono_pos_r; lia).
    destruct (Z.ltb_spec (Zpos m1 * (P * (2 * R))) (Zpos m2 * P));
      [lia|reflexivity].
Qed.

(** [n < sr * 0.5], on floats, is [2 * n < sr]. *)
Lemma float_lt_half (n sr : Z) :
  0 <= n < 2 ^ 53 -> 1 <= sr < 2 ^ 53 ->
  float_lt (float_of_int n) (float_mul (float_of_int sr) float_half)
  = (2 * n <? sr).
Proof.
  intros Hn Hsr. destruct sr as [|ps|ps]; try lia.
  destruct (float_of_int_pos ps ltac:(lia)) as (ms & Hfs & Hds & Hms).
  rewrite (float_mul_half (Zpos ps) ms _ Hsr Hfs).
  pose proof (digits2_bounds ps) as Hbs.
  set (ds := Zpos (digits2_pos ps)) in *.
  assert (1 <= ds <= 53) as Hds53.
  { split; [subst ds; lia|]. destruct (Z_le_gt_dec ds 53); [easy|].
    assert (2 ^ 53 <= 2 ^ (ds - 1)) by (apply Z.pow_le_mono_r; lia). lia. }
  destruct n as [|pn|pn]; try lia.
  { cbn. reflexivity. }
  destruct (float_of_int_pos pn ltac:(lia)) as (mn & Hfn & Hdn & Hmn).
  rewrite Hfn.
  pose proof (digits2_bounds pn) as Hbn.
  set (dn := Zpos (digits2_pos pn)) in *.
  assert (1 <= dn <= 53) as Hdn53.
  { split; [subst dn; lia|]. destruct (Z_le_gt_dec dn 53); [easy|].
    assert (2 ^ 53 <= 2 ^ (dn - 1)) by (apply Z.pow_le_mono_r; lia). lia. }
  rewrite (canonical_lt mn ms (dn - 53) (ds - 53 - 1) 54) by (try assumption; lia).
  rewrite Hmn, Hms, <- !Z.mul_assoc, <- !Z.pow_add_r by lia.
  replace (53 - dn + (dn - 53 + 54)) with 54 by lia.
  replace (53 - ds + (ds - 53 - 1 + 54)) with 53 by lia.
  change (2 ^ 54) with (2 * 2 ^ 53).
  assert (0 < 2 ^ 53) by (apply Z.pow_pos_nonneg; lia).
  destruct (Z.ltb_spec (Zpos pn * (2 * 2 ^ 53)) (Zpos ps * 2 ^ 53));
    destruct (Z.ltb_spec (2 * Zpos pn) (Zpos ps)); try reflexivity; nia.
Qed.

(** *** The windows of the segmenter *)

Section Windows.
Context {sample : Type}.
Variable cfg : config.
Hypothesis window_positive : 1 <= segment_samples cfg.

Lemma total_segments_bounds (N : Z) :
  (total_segments cfg N - 1) * segment_samples cfg < N
  <= total_segments cfg N * segment_samples cfg.
Proof. apply ceil_quot_bounds, window_positive. Qed.

Lemma window_bounds (N i : Z) :
  0 <= i < total_segments cfg N ->
  0 <= window_start cfg i < window_end cfg N i /\ window_end cfg N i <= N.
Proof.
  intros Hi. pose proof (total_segments_bounds N).
  unfold window_start, window_end. nia.
Qed.

Lemma window_full (N i : Z) :
  0 <= i < total_segments cfg N - 1 ->
  window_end cfg N i = (i + 1) * segment_samples cfg.
Proof.
  intros Hi. pose proof (total_segments_bounds N).
  unfold window_end. nia.
Qed.

Lemma window_last (N : Z) :
  0 < total_segments cfg N -> window_end cfg N (total_segments cfg N - 1) = N.
Proof.
  intros Hn. pose proof (total_segments_bounds N).
  unfold window_end. nia.
Qed.




Lemma len_segment_audio (audio : list sample) (i : Z) :
  0 <= i < total_segments cfg (len audio) ->
  len (segment_audio cfg audio i)
  = window_end cfg (len audio) i - window_start cfg i.
Proof.
  intros Hi. pose proof (window_bounds (len audio) i Hi).
  unfold segment_audio. apply len_slice; lia.
Qed.




End Windows.

(** *** The script's float expressions and their integer forms *)

(** [math.ceil(total_samples / segment_samples)], computed on floats as the
    script does, is [total_segments]. *)
Lemma total_segments_float (cfg : config) (total_samples : Z) :
  0 <= total_samples < 2 ^ 52 ->
  1 <= segment_samples cfg < 2 ^ 53 ->
  float_ceil (float_quot total_samples (segment_samples cfg))
  = total_segments cfg total_samples.
Proof. intros HN Hw. now apply float_ceil_quot. Qed.

(** With a negative window the float computation gives no window either:
    [range] of it is empty. *)
Lemma total_segments_float_negative (cfg : config) (total_samples : Z) :
  0 <= total_samples -> segment_samples cfg < 0 ->
  range (float_ceil (float_quot total_samples (segment_samples cfg))) = []
  /\ range (total_segments cfg total_samples) = [].
Proof.
  intros HN Hw. split; apply range_nonpos.
  - now apply float_ceil_quot_neg_divisor.
  - now apply ceil_quot_neg_divisor.
Qed.

(** [len(segment_audio) < sr * 0.5], computed on floats, is [too_short]. *)
Lemma too_short_float {sample : Type} (cfg : config) (segment_audio : list sample) :
  len segment_audio < 2 ^ 53 ->
  1 <= sr cfg < 2 ^ 53 ->
  float_lt (float_of_int (len segment_audio))
    (float_mul (float_of_int (sr cfg)) float_half)
  = too_short cfg segment_audio.
Proof.
  intros Hlen Hsr. unfold too_short. apply float_lt_half; [|exact Hsr].
  pose proof (len_nonneg segment_audio). lia.
Qed.

(** The start of a window is a whole number of seconds, and [start / sr] is
    that number, exactly. *)
Lemma float_quot_window_start (cfg : config) (i : Z) :
  1 <= segment_sec cfg -> 1 <= sr cfg < 2 ^ 53 ->
  0 <= i -> window_start cfg i < 2 ^ 53 ->
  float_quot (window_start cfg i) (sr cfg) = float_of_int (i * segment_sec cfg).
Proof.
  intros Hsec Hsr Hi Hstart. unfold window_start, segment_samples in *.
  rewrite Z.mul_assoc. apply float_quot_exact; [nia|exact Hsr|].
  now rewrite <- Z.mul_assoc.
Qed.

Lemma start_times_increase (cfg : config) (i j : Z) :
  1 <= segment_sec cfg -> 1 <= sr cfg ->
  0 <= i < j -> window_start cfg j < 2 ^ 53 ->
  float_lt (float_quot (window_start cfg i) (sr cfg))
           (float_quot (window_start cfg j) (sr cfg)) = true.
Proof.
  intros Hsec Hsr Hij Hj.
  assert (1 <= segment_samples cfg) as Hw by (unfold segment_samples; nia).
  assert (window_start cfg i < window_start cfg j) as Hlt
    by (unfold window_start; nia).
  assert (0 <= i * segment_sec cfg < j * segment_sec cfg) as Hsecs by nia.
  assert (sr cfg <= window_start cfg j
          /\ j * segment_sec cfg <= window_start cfg j) as [Hsr53 Hj53].
  { unfold window_start, segment_samples. rewrite Z.mul_assoc.
    set (t := j * segment_sec cfg) in *. nia. }
  rewrite !float_quot_window_start by lia.
  rewrite float_of_int_lt by lia. now apply Z.ltb_lt.
Qed.


(** *** The buffered writer *)

Lemma fwrite_returns (bufsize : Z) (path : string) (data : bytes) (w : world) :
  fst (fwrite bufsize path data w) = Returned tt.
Proof. unfold fwrite. now destruct (bufsize <=? len (pending w ++ data)). Qed.

Lemma fwrite_contents (bufsize : Z) (path : string) (data : bytes) (w : world) :
  contents path (snd (fwrite bufsize path data w)) = contents path w ++ data.
Proof.
  unfold fwrite, contents, append_to.
  destruct (bufsize <=? len (pending w ++ data)); cbn [snd disk pending].
  - rewrite lookup_insert_eq. cbn. now rewrite app_nil_r, app_assoc.
  - now rewrite app_assoc.
Qed.

Lemma fwrite_overwritten (bufsize : Z) (path : string) (data x : bytes) (w : world) :
  <[path := x]> (disk (snd (fwrite bufsize path data w))) = <[path := x]> (disk w).
Proof.
  unfold fwrite, append_to.
  destruct (bufsize <=? len (pending w ++ data)); cbn [snd disk]; [|easy].
  apply insert_insert_eq.
Qed.

Lemma fwrite_other_files (bufsize : Z) (path p : string) (data : bytes) (w : world) :
  p <> path -> disk (snd (fwrite bufsize path data w)) !! p = disk w !! p.
Proof.
  intros Hp. unfold fwrite, append_to.
  destruct (bufsize <=? len (pending w ++ data)); cbn [snd disk]; [|easy].
  now apply lookup_insert_ne.
Qed.

(** A small write on an empty buffer stays in the buffer. *)
Lemma fwrite_buffered (bufsize : Z) (path : string) (data : bytes) (w : world) :
  len (pending w ++ data) < bufsize ->
  fwrite bufsize path data w = (Returned tt, World (disk w) (pending w ++ data)).
Proof.
  intros H. unfold fwrite.
  destruct (Z.leb_spec bufsize (len (pending w ++ data))); [lia|easy].
Qed.

Lemma write_all_cons (bufsize : Z) (path : string) (c : bytes)
    (cs : list bytes) (w : world) :
  write_all bufsize path (c :: cs) w
  = write_all bufsize path cs (snd (fwrite bufsize path c w)).
Proof. reflexivity. Qed.

Lemma write_all_contents (bufsize : Z) (path : string) (cs : list bytes)
    (w : world) :
  contents path (write_all bufsize path cs w) = contents path w ++ concat cs.
Proof.
  revert w. induction cs as [|c cs IH]; intros w.
  - cbn. now rewrite app_nil_r.
  - rewrite write_all_cons, IH, fwrite_contents. cbn [concat].
    now rewrite app_assoc.
Qed.

(** What is on disk once the file has been closed: everything written. *)
Lemma fclose_write_all (bufsize : Z) (path : string) (cs : list bytes)
    (w : world) :
  fclose path (write_all bufsize path cs w)
  = World (<[path := contents path w ++ concat cs]> (disk w)) [].
Proof.
  revert w. induction cs as [|c cs IH]; intros w.
  - cbn. unfold fclose, append_to, contents. now rewrite app_nil_r.
  - rewrite write_all_cons, IH, fwrite_contents, fwrite_overwritten.
    cbn [concat]. now rewrite app_assoc.
Qed.

(** While the file is open only that file changes. *)
Lemma write_all_disk (bufsize : Z) (path : string) (cs : list bytes)
    (w : world) :
  is_Some (disk w !! path) ->
  exists x, disk (write_all bufsize path cs w) = <[path := x]> (disk w).
Proof.
  revert w. induction cs as [|c cs IH]; intros w [y Hy].
  - exists y. cbn. now rewrite insert_id.
  - rewrite write_all_cons.
    destruct (IH (snd (fwrite bufsize path c w))) as [x Hx].
    + unfold fwrite, append_to.
      destruct (bufsize <=? len (pending w ++ c)); cbn [snd disk]; [|eauto].
      rewrite lookup_insert_eq. eauto.
    + exists x. rewrite Hx. apply fwrite_overwritten.
Qed.

(** *** The loop *)

Section Loop.
Context {sample : Type}.
Variables (cfg : config) (env : environment sample) (audio : list sample).
Variable out : string.

Lemma body_unfold (i : Z) (w : world) :
  sr cfg <> 0 ->
  body cfg env audio out i w
  = if too_short cfg (segment_audio cfg audio i) then (Returned tt, w)
    else
      match transcribe env i (segment_audio cfg audio i) with
      | Gives result =>
          match strip (get_text result) with
          | [] => (Returned tt, w)
          | text =>
              fwrite (bufsize env) out
                (utf8 (format_line
                         (float_quot (window_start cfg i) (sr cfg))
                         (float_quot (window_end cfg (len audio) i) (sr cfg))
                         text)) w
          end
      | Fails => (Raised RecognitionError, w)
      | Dies => (Killed, w)
      end.
Proof.
  intros Hsr. unfold body. fold (segment_audio cfg audio i).
  destruct (too_short cfg (segment_audio cfg audio i)); [reflexivity|].
  unfold truediv. apply Z.eqb_neq in Hsr. rewrite Hsr.
  unfold bind, ret, call_transcribe.
  destruct (transcribe env i (segment_audio cfg audio i)) as [result| |];
    try reflexivity.
  now destruct (strip (get_text result)).
Qed.

Lemma line_of_render (i : Z) (l : transcript_line) :
  line_of cfg env audio i = Some l ->
  exists result,
    too_short cfg (segment_audio cfg audio i) = false
    /\ transcribe env i (segment_audio cfg audio i) = Gives result
    /\ strip (get_text result) = line_text l
    /\ line_text l <> []
    /\ line_index l = i
    /\ line_start l = window_start cfg i
    /\ line_end l = window_end cfg (len audio) i.
Proof.
  unfold line_of.
  destruct (too_short cfg (segment_audio cfg audio i)); [easy|].
  destruct (transcribe env i (segment_audio cfg audio i)) as [result| |];
    try easy.
  destruct (strip (get_text result)) as [|c text] eqn:Htext; [easy|].
  intros [= <-]. exists result. now rewrite Htext.
Qed.

Lemma for_each_body (indices : list Z) (w : world) :
  sr cfg <> 0 ->
  for_each indices (body cfg env audio out) w
  = (snd (loop_trace cfg env audio indices),
     write_all (bufsize env) out
       (List.map (fun l => utf8 (render cfg l))
                 (fst (loop_trace cfg env audio indices))) w).
Proof.
  intros Hsr. revert w. induction indices as [|i rest IH]; intros w; [easy|].
  cbn [for_each loop_trace]. unfold bind at 1. rewrite body_unfold by exact Hsr.
  unfold line_of.
  destruct (too_short cfg (segment_audio cfg audio i)); [apply IH|].
  destruct (transcribe env i (segment_audio cfg audio i)) as [result| |];
    try reflexivity.
  destruct (loop_trace cfg env audio rest) as [ls r] eqn:Hrest.
  cbn [fst snd] in *.
  destruct (strip (get_text result)) as [|c text].
  - rewrite IH. reflexivity.
  - cbn [List.map]. rewrite write_all_cons.
    pose proof (fwrite_returns (bufsize env) out
      (utf8 (format_line (float_quot (window_start cfg i) (sr cfg))
         (float_quot (window_end cfg (len audio) i) (sr cfg)) (c :: text))) w) as Hret.
    destruct (fwrite _ _ _ w) as [r1 w1] eqn:Hw. cbn [fst] in Hret. subst r1.
    rewrite IH. unfold render. cbn [line_start line_end line_text snd].
    reflexivity.
Qed.

End Loop.

(** *** Runs of the script *)

Lemma utf8_app (s t : str) : utf8 (s ++ t) = utf8 s ++ utf8 t.
Proof. unfold utf8. now rewrite flat_map_app. Qed.

Lemma utf8_concat (ls : list str) : utf8 (concat ls) = concat (List.map utf8 ls).
Proof.
  induction ls as [|l ls IH]; [reflexivity|].
  cbn [concat List.map]. now rewrite utf8_app, IH.
Qed.

Lemma omap_cons_eq {A B : Type} (f : A -> option B) (x : A) (l : list A) :
  omap f (x :: l)
  = match f x with Some y => y :: omap f l | None => omap f l end.
Proof. reflexivity. Qed.

Lemma render_all_chunks (cfg : config) (ls : list transcript_line) :
  concat (List.map (fun l => utf8 (render cfg l)) ls) = render_all cfg ls.
Proof. unfold render_all. now rewrite utf8_concat, map_map. Qed.

Section Runs.
Context {sample : Type}.
Variables (cfg : config) (env : environment sample) (audio : list sample).

Lemma loop_trace_answered (indices : list Z) :
  all_answered cfg env audio indices ->
  loop_trace cfg env audio indices
  = (omap (line_of cfg env audio) indices, Returned tt).
Proof.
  induction indices as [|i rest IH]; intros Hall; [reflexivity|].
  assert (all_answered cfg env audio rest) as Hrest by (intros j Hj; apply Hall; now right).
  specialize (IH Hrest). cbn [loop_trace]. rewrite omap_cons_eq.
  destruct (too_short cfg (segment_audio cfg audio i)) eqn:Hshort.
  - unfold line_of at 1. now rewrite Hshort.
  - destruct (Hall i ltac:(now left) Hshort) as [result Hres].
    rewrite Hres, IH. reflexivity.
Qed.

Lemma loop_trace_stops (before after : list Z) (k : Z) :
  all_answered cfg env audio before ->
  too_short cfg (segment_audio cfg audio k) = false ->
  loop_trace cfg env audio (before ++ k :: after)
  = (omap (line_of cfg env audio) before,
     match transcribe env k (segment_audio cfg audio k) with
     | Gives _ => snd (loop_trace cfg env audio (k :: after))
     | Fails => Raised RecognitionError
     | Dies => Killed
     end)
    \/ exists result, transcribe env k (segment_audio cfg audio k) = Gives result.
Proof.
  intros Hall Hshort.
  destruct (transcribe env k (segment_audio cfg audio k)) as [result| |] eqn:Hk;
    [right; now exists result| left..].
  all: induction before as [|i rest IH]; cbn [app loop_trace];
    [now rewrite Hshort, Hk|]; rewrite omap_cons_eq.
  all: assert (all_answered cfg env audio rest) as Hrest by (intros j Hj; apply Hall; now right).
  all: specialize (IH Hrest).
  all: destruct (too_short cfg (segment_audio cfg audio i)) eqn:Hsi;
    [unfold line_of at 1; now rewrite Hsi|].
  all: destruct (Hall i ltac:(now left) Hsi) as [result Hres].
  all: now rewrite Hres, IH.
Qed.

Lemma run_unfold (fs : gmap string bytes) :
  load_audio env (wav_path cfg) = Some audio ->
  sr cfg <> 0 ->
  segment_samples cfg <> 0 ->
  run cfg env fs
  = let tr := loop_trace cfg env audio (range (total_segments cfg (len audio))) in
    (snd tr,
     match snd tr with
     | Killed =>
         disk (write_all (bufsize env) (out_path cfg)
                 (List.map (fun l => utf8 (render cfg l)) (fst tr))
                 (World (<[out_path cfg := []]> fs) []))
     | _ => <[out_path cfg := render_all cfg (fst tr)]> fs
     end).
Proof.
  intros Hload Hsr Hseg. unfold run, main, call_load_audio.
  rewrite Hload. unfold bind at 1. unfold ret at 1.
  unfold truediv, ceil_truediv.
  apply Z.eqb_neq in Hseg. rewrite Hseg.
  pose proof Hsr as Hsr'. apply Z.eqb_neq in Hsr'. rewrite Hsr'.
  unfold bind at 1. unfold ret at 1. unfold bind at 1. unfold ret at 1.
  unfold bind at 1. unfold os_path_exists at 1. cbn [disk].
  fold (total_segments cfg (len audio)).
  assert (forall w,
    with_open_append (out_path cfg)
      (for_each (range (total_segments cfg (len audio)))
         (body cfg env audio (out_path cfg))) (World (delete (out_path cfg) fs) w)
    = let tr := loop_trace cfg env audio (range (total_segments cfg (len audio))) in
      (snd tr,
       match snd tr with
       | Killed =>
           write_all (bufsize env) (out_path cfg)
             (List.map (fun l => utf8 (render cfg l)) (fst tr))
             (World (<[out_path cfg := []]> fs) [])
       | _ => World (<[out_path cfg := render_all cfg (fst tr)]> fs) []
       end)) as Hopen.
  { intros w. unfold with_open_append, open_append, append_to. cbn [disk].
    rewrite lookup_delete_eq. cbn [default app]. rewrite insert_delete_eq.
    rewrite for_each_body by exact Hsr. cbn zeta.
    destruct (loop_trace cfg env audio _) as [ls r]. cbn [fst snd].
    destruct r as [[]| |]; try reflexivity.
    all: rewrite fclose_write_all; unfold contents; cbn [disk pending].
    all: rewrite lookup_insert_eq, insert_insert_eq; cbn [default app].
    all: now rewrite render_all_chunks. }
  destruct (fs !! out_path cfg) as [old|] eqn:Hold.
  - rewrite bool_decide_eq_true_2 by eauto.
    unfold bind at 1. unfold os_remove. cbn [disk pending]. rewrite Hold.
    rewrite Hopen. cbn zeta.
    destruct (loop_trace cfg env audio _) as [ls r]. cbn [fst snd].
    now destruct r as [[]| |].
  - rewrite bool_decide_eq_false_2 by (intros [? [=]]).
    unfold bind at 1. unfold ret at 1.
    rewrite <- (delete_id fs (out_path cfg) Hold) at 1.
    rewrite Hopen. cbn zeta.
    destruct (loop_trace cfg env audio _) as [ls r]. cbn [fst snd].
    now destruct r as [[]| |].
Qed.

End Runs.

Lemma all_answered_range {sample : Type} (cfg : config)
    (env : environment sample) (audio : list sample) (n : Z) :
  (forall i, 0 <= i < n ->
     too_short cfg (segment_audio cfg audio i) = false ->
     exists result, transcribe env i (segment_audio cfg audio i) = Gives result) ->
  all_answered cfg env audio (range n).
Proof. intros H i Hi. apply H. now apply in_range. Qed.

Lemma transcript_indices {sample : Type} (cfg : config)
    (env : environment sample) (audio : list sample) (n : Z) (l : transcript_line) :
  In l (transcript cfg env audio n) ->
  0 <= line_index l < n /\ line_of cfg env audio (line_index l) = Some l.
Proof.
  unfold transcript. rewrite <- list_elem_of_In, list_elem_of_omap.
  intros (i & Hi & Hl). rewrite list_elem_of_In, in_range in Hi.
  destruct (line_of_render cfg env audio i l Hl) as (_ & _ & _ & _ & _ & Hidx & _).
  now rewrite Hidx.
Qed.

(** C10.  When the loader raises, the script stops with that error before it
    has looked at the output path: no file is created, removed or changed, so
    a transcript left by an earlier run is still there. *)
Theorem loader_error_leaves_files {sample : Type} (cfg : config)
    (env : environment sample) (fs : gmap string bytes) :
  load_audio env (wav_path cfg) = None ->
  run cfg env fs = (Raised AudioLoadError, fs)
  /\ snd (run cfg env fs) !! out_path cfg = fs !! out_path cfg.
Proof.
  intros Hload.
  assert (run cfg env fs = (Raised AudioLoadError, fs)) as Hrun.
  { unfold run, main, call_load_audio. rewrite Hload. reflexivity. }
  split; [exact Hrun|]. now rewrite Hrun.
Qed.

(** C3.  When the recognizer raises on window k, after returning on every
    earlier window it was given, the run ends with that error and the output
    file holds the lines of the qualifying windows 0..k-1, in window order,
    and nothing else. *)
Theorem recognizer_error_keeps_earlier_lines {sample : Type} (cfg : config)
    (env : environment sample) (audio : list sample)
    (fs : gmap string bytes) (k : Z) :
  load_audio env (wav_path cfg) = Some audio ->
  1 <= segment_samples cfg ->
  0 <= k < total_segments cfg (len audio) ->
  too_short cfg (segment_audio cfg audio k) = false ->
  transcribe env k (segment_audio cfg audio k) = Fails ->
  (forall i, 0 <= i < k ->
     too_short cfg (segment_audio cfg audio i) = false ->
     exists result, transcribe env i (segment_audio cfg audio i) = Gives result) ->
  run cfg env fs
  = (Raised RecognitionError,
     <[out_path cfg := utf8 (concat (List.map (render cfg) (transcript cfg env audio k)))]> fs)
  /\ (forall l, In l (transcript cfg env audio k) ->
      0 <= line_index l < k /\ line_of cfg env audio (line_index l) = Some l)
  /\ (forall i, 0 <= i < k -> forall l, line_of cfg env audio i = Some l ->
      In l (transcript cfg env audio k)).
Proof.
  intros Hload Hw Hk Hshort Hfail Hbefore.
  split; [|split].
  - rewrite (run_unfold cfg env audio fs Hload) by (unfold segment_samples in *; nia).
    rewrite (range_split _ k Hk). cbn zeta.
    destruct (loop_trace_stops cfg env audio (range k)
                (List.map (fun j => k + 1 + j)
                   (range (total_segments cfg (len audio) - k - 1))) k
                (all_answered_range cfg env audio k Hbefore) Hshort)
      as [Htrace|[result Hres]]; [|congruence].
    rewrite Htrace, Hfail. reflexivity.
  - apply transcript_indices.
  - intros i Hi l Hl. unfold transcript.
    rewrite <- list_elem_of_In, list_elem_of_omap. exists i.
    split; [|exact Hl]. now rewrite list_elem_of_In, in_range.
Qed.

(** *** Order of the transcript *)

Lemma range_sorted_from (s m : nat) :
  StronglySorted Z.lt (List.map Z.of_nat (seq s m)).
Proof.
  revert s. induction m as [|m IH]; intros s; cbn [seq List.map]; constructor.
  - apply IH.
  - apply List.Forall_forall. intros x Hx. apply in_map_iff in Hx.
    destruct Hx as (k & <- & Hk). apply in_seq in Hk. lia.
Qed.

Lemma range_sorted (n : Z) : StronglySorted Z.lt (range n).
Proof. apply range_sorted_from. Qed.

Lemma StronglySorted_weaken {A : Type} (R R' : A -> A -> Prop) (l : list A) :
  (forall a b, In a l -> In b l -> R a b -> R' a b) ->
  StronglySorted R l -> StronglySorted R' l.
Proof.
  intros Himp Hs. induction Hs as [|a l Hs IH Hall]; constructor.
  - apply IH. intros x y Hx Hy. apply Himp; now right.
  - rewrite List.Forall_forall in *. intros b Hb.
    apply Himp; [now left|now right|now apply Hall].
Qed.

(** *** The output path *)

Lemma string_of_list_ascii_app (a b : list ascii) :
  string_of_list_ascii (a ++ b)
  = (string_of_list_ascii a ++ string_of_list_ascii b)%string.
Proof.
  induction a as [|x a IH]; [reflexivity|].
  change (String x (string_of_list_ascii (a ++ b))
          = String x (string_of_list_ascii a ++ string_of_list_ascii b)%string).
  now rewrite IH.
Qed.

Lemma string_app_empty (s : string) : (s ++ "")%string = s.
Proof.
  induction s as [|c s IH]; [reflexivity|].
  change (String c (s ++ "")%string = String c s). now rewrite IH.
Qed.

Lemma rfind_from_spec (c : ascii) (p : list ascii) (i found : Z) :
  (rfind_from c p i found = found /\ ~ In c p)
  \/ exists a b, p = a ++ c :: b /\ ~ In c b
                 /\ rfind_from c p i found = i + len a.
Proof.
  revert i found. induction p as [|x p IH]; intros i found; [left; easy|].
  cbn [rfind_from]. destruct (Ascii.eqb_spec x c) as [->|Hne].
  - destruct (IH (i + 1) i) as [[Hr Hnot]|(a & b & -> & Hnot & Hr)].
    + right. exists [], p. split; [reflexivity|]. split; [exact Hnot|].
      rewrite Hr. unfold len. cbn [List.length]. lia.
    + right. exists (c :: a), b. split; [reflexivity|]. split; [exact Hnot|].
      rewrite Hr. unfold len. cbn [List.length]. lia.
  - destruct (IH (i + 1) found) as [[Hr Hnot]|(a & b & -> & Hnot & Hr)].
    + left. split; [exact Hr|]. intros [?|?]; congruence.
    + right. exists (x :: a), b. split; [reflexivity|]. split; [exact Hnot|].
      rewrite Hr. unfold len. cbn [List.length]. lia.
Qed.

Lemma slice_prefix {A : Type} (a b : list A) : slice (a ++ b) 0 (len a) = a.
Proof.
  unfold slice. rewrite !slice_index_inside
    by (rewrite ?len_app; pose proof (len_nonneg a); pose proof (len_nonneg b); lia).
  change (Z.to_nat 0) with 0%nat. rewrite drop_0.
  apply take_app_length'. unfold len. lia.
Qed.

Lemma skipn_prefix {A : Type} (a b : list A) : skipn (Z.to_nat (len a)) (a ++ b) = b.
Proof. apply drop_app_length'. unfold len. lia. Qed.

(** [splitext] cuts the path in two; the second part is empty, or it is a dot
    followed by characters of the last component that are not dots. *)
Lemma splitext_spec (p : string) :
  p = (fst (splitext p) ++ snd (splitext p))%string
  /\ (snd (splitext p) = EmptyString
      \/ exists rest,
           snd (splitext p) = String "."%char rest
           /\ ~ In "."%char (list_ascii_of_string rest)
           /\ ~ In "/"%char (list_ascii_of_string rest)).
Proof.
  unfold splitext. set (l := list_ascii_of_string p).
  destruct ((rfind "/"%char l <? rfind "."%char l)
            && existsb (fun a => negb (Ascii.eqb a "."%char))
                 (slice l (rfind "/"%char l + 1) (rfind "."%char l))) eqn:Hsplit.
  2:{ cbn [fst snd]. split; [now rewrite string_app_empty|now left]. }
  apply andb_prop in Hsplit. destruct Hsplit as [Hlt _]. apply Z.ltb_lt in Hlt.
  unfold rfind in *.
  destruct (rfind_from_spec "."%char l 0 (-1)) as [[Hdot _]|(a & b & Hl & Hb & Hdot)].
  { destruct (rfind_from_spec "/"%char l 0 (-1)) as [[Hs _]|(a' & b' & _ & _ & Hs)];
      [lia|pose proof (len_nonneg a'); lia]. }
  rewrite Hdot in *. cbn [fst snd]. rewrite Z.add_0_l in *. rewrite Hl.
  rewrite slice_prefix, skipn_prefix. split.
  - rewrite <- string_of_list_ascii_app, <- Hl. subst l.
    now rewrite string_of_list_ascii_of_string.
  - right. exists (string_of_list_ascii b). split; [reflexivity|].
    rewrite list_ascii_of_string_of_list_ascii. split; [exact Hb|].
    destruct (rfind_from_spec "/"%char l 0 (-1))
      as [[_ Hnone]|(a' & b' & Hl' & Hb' & Hs)].
    + intros Hin. apply Hnone. rewrite Hl. apply in_or_app. right. now right.
    + rewrite Hs, Z.add_0_l in Hlt. intros Hin. apply Hb'.
      assert (b' = skipn (S (List.length a')) l) as ->.
      { rewrite Hl'. symmetry.
        replace (a' ++ "/"%char :: b') with ((a' ++ ["/"%char]) ++ b')
          by now rewrite <- app_assoc.
        apply drop_app_length'. rewrite length_app. cbn. lia. }
      rewrite Hl. unfold len in Hlt.
      rewrite drop_app_le by lia. apply in_or_app. right. now right.
Qed.

Lemma insert_any_of_empty (path : string) (x : bytes) (fs1 fs2 : gmap string bytes) :
  <[path := []]> fs1 = <[path := []]> fs2 -> <[path := x]> fs1 = <[path := x]> fs2.
Proof.
  intros H. rewrite <- (insert_insert_eq fs1 path x []), H.
  apply insert_insert_eq.
Qed.

Lemma run_ignores_old_output {sample : Type} (cfg : config)
    (env : environment sample) (audio : list sample) (fs1 fs2 : gmap string bytes) :
  load_audio env (wav_path cfg) = Some audio ->
  sr cfg <> 0 ->
  segment_samples cfg <> 0 ->
  <[out_path cfg := []]> fs1 = <[out_path cfg := []]> fs2 ->
  run cfg env fs1 = run cfg env fs2.
Proof.
  intros Hload Hsr Hseg Hfs.
  rewrite !(run_unfold cfg env audio _ Hload Hsr Hseg). cbn zeta.
  rewrite Hfs. f_equal.
  destruct (snd (loop_trace cfg env audio _)); try reflexivity.
  all: now apply insert_any_of_empty.
Qed.

Lemma omap_all_none {A B : Type} (f : A -> option B) (l : list A) :
  (forall x, In x l -> f x = None) -> omap f l = [].
Proof.
  induction l as [|x l IH]; intros H; [reflexivity|].
  rewrite omap_cons_eq, (H x) by now left.
  apply IH. intros y Hy. apply H. now right.
Qed.

Lemma rfind_from_app (c : ascii) (a b : list ascii) (i found : Z) :
  rfind_from c (a ++ b) i found
  = rfind_from c b (i + len a) (rfind_from c a i found).
Proof.
  revert i found. induction a as [|x a IH]; intros i found.
  - cbn [app rfind_from]. f_equal. unfold len. cbn. lia.
  - cbn [app rfind_from]. rewrite IH. f_equal. unfold len. cbn [List.length]. lia.
Qed.

Lemma rfind_from_absent (c : ascii) (p : list ascii) (i found : Z) :
  ~ In c p -> rfind_from c p i found = found.
Proof.
  revert i found. induction p as [|x p IH]; intros i found Hnot; [reflexivity|].
  cbn [rfind_from]. destruct (Ascii.eqb_spec x c) as [->|Hne].
  - exfalso. apply Hnot. now left.
  - apply IH. intros Hin. apply Hnot. now right.
Qed.

Lemma rfind_from_bound (c : ascii) (p : list ascii) (i found : Z) :
  found < i -> rfind_from c p i found < i + len p.
Proof.
  revert i found. induction p as [|x p IH]; intros i found Hlt.
  - cbn [rfind_from]. unfold len. cbn. lia.
  - cbn [rfind_from]. unfold len. cbn [List.length].
    specialize (IH (i + 1) (if Ascii.eqb x c then i else found)
                  ltac:(destruct (Ascii.eqb x c); lia)).
    unfold len in IH. lia.
Qed.

Lemma slice_middle {A : Type} (a b c : list A) :
  slice (a ++ b ++ c) (len a) (len a + len b) = b.
Proof.
  pose proof (len_nonneg a). pose proof (len_nonneg b). pose proof (len_nonneg c).
  unfold slice. rewrite !slice_index_inside by (rewrite ?len_app; lia).
  rewrite skipn_prefix. replace (len a + len b - len a) with (len b) by lia.
  apply take_app_length'. unfold len. lia.
Qed.

Lemma string_app_assoc (a b c : string) :
  ((a ++ b) ++ c)%string = (a ++ b ++ c)%string.
Proof.
  induction a as [|x a IH]; [reflexivity|].
  change (String x ((a ++ b) ++ c)%string = String x (a ++ b ++ c)%string).
  now rewrite IH.
Qed.

Lemma list_ascii_of_string_app (a b : string) :
  list_ascii_of_string (a ++ b)
  = list_ascii_of_string a ++ list_ascii_of_string b.
Proof.
  induction a as [|x a IH]; [reflexivity|].
  change (x :: list_ascii_of_string (a ++ b)
          = x :: (list_ascii_of_string a ++ list_ascii_of_string b)).
  now rewrite IH.
Qed.

(** The last slash of a path whose directory part is empty or ends in a
    slash, and whose name has none. *)
Lemma rfind_slash (D R : list ascii) :
  (D = [] \/ exists d, D = d ++ ["/"%char]) ->
  ~ In "/"%char R ->
  rfind "/"%char (D ++ R) = len D - 1.
Proof.
  intros HD HR. unfold rfind. rewrite rfind_from_app.
  rewrite rfind_from_absent by exact HR.
  destruct HD as [->|[d ->]]; [reflexivity|].
  rewrite rfind_from_app. cbn [rfind_from]. rewrite Ascii.eqb_refl.
  rewrite len_app. change (len ["/"%char]) with 1. lia.
Qed.

Lemma splitext_cut (D Nm E : list ascii) :
  (D = [] \/ exists d, D = d ++ ["/"%char]) ->
  ~ In "/"%char Nm ->
  (exists c, In c Nm /\ c <> "."%char) ->
  ~ In "."%char E -> ~ In "/"%char E ->
  splitext (string_of_list_ascii (D ++ Nm ++ "."%char :: E))
  = (string_of_list_ascii (D ++ Nm), string_of_list_ascii ("."%char :: E)).
Proof.
  intros HD HNm (c & Hc & Hcdot) HEdot HEslash.
  pose proof (len_nonneg D). pose proof (len_nonneg Nm).
  unfold splitext. rewrite list_ascii_of_string_of_list_ascii.
  assert (rfind "/"%char (D ++ Nm ++ "."%char :: E) = len D - 1) as ->.
  { apply rfind_slash; [exact HD|]. intros Hin. apply in_app_or in Hin.
    destruct Hin as [Hin|[Hin|Hin]]; [now apply HNm|discriminate|now apply HEslash]. }
  assert (rfind "."%char (D ++ Nm ++ "."%char :: E) = len D + len Nm) as ->.
  { unfold rfind. rewrite !rfind_from_app. cbn [rfind_from].
    rewrite Ascii.eqb_refl. rewrite rfind_from_absent by exact HEdot. lia. }
  replace (len D - 1 + 1) with (len D) by lia. rewrite slice_middle.
  assert (existsb (fun a => negb (Ascii.eqb a "."%char)) Nm = true) as ->.
  { apply existsb_exists. exists c. split; [exact Hc|].
    now destruct (Ascii.eqb_spec c "."%char). }
  replace (len D - 1 <? len D + len Nm) with true by (symmetry; apply Z.ltb_lt; lia).
  cbn [andb]. rewrite <- len_app, app_assoc.
  now rewrite slice_prefix, skipn_prefix.
Qed.

(** A name with a dot after a character that is not a dot: the cut is at the
    last dot of the name. *)
Lemma splitext_at_last_dot (dir name ext : string) :
  (dir = EmptyString \/ exists d, dir = (d ++ "/")%string) ->
  ~ In "/"%char (list_ascii_of_string name) ->
  (exists c, In c (list_ascii_of_string name) /\ c <> "."%char) ->
  ~ In "."%char (list_ascii_of_string ext) ->
  ~ In "/"%char (list_ascii_of_string ext) ->
  splitext (dir ++ name ++ "." ++ ext)
  = ((dir ++ name)%string, ("." ++ ext)%string).
Proof.
  intros Hdir Hname Hchar Hdot Hslash.
  rewrite <- (string_of_list_ascii_of_string (dir ++ name ++ "." ++ ext)).
  rewrite !list_ascii_of_string_app.
  change (list_ascii_of_string "." ++ list_ascii_of_string ext)
    with ("."%char :: list_ascii_of_string ext).
  rewrite splitext_cut; try assumption.
  - rewrite string_of_list_ascii_app, !string_of_list_ascii_of_string.
    change (string_of_list_ascii ("."%char :: list_ascii_of_string ext))
      with (String "."%char (string_of_list_ascii (list_ascii_of_string ext))).
    now rewrite string_of_list_ascii_of_string.
  - destruct Hdir as [->|[d ->]]; [now left|right].
    exists (list_ascii_of_string d). now rewrite list_ascii_of_string_app.
Qed.

(** A name without a dot after its leading dots: no cut. *)
Lemma splitext_whole (dir dots name : string) :
  (dir = EmptyString \/ exists d, dir = (d ++ "/")%string) ->
  (forall c, In c (list_ascii_of_string dots) -> c = "."%char) ->
  ~ In "."%char (list_ascii_of_string name) ->
  ~ In "/"%char (list_ascii_of_string name) ->
  splitext (dir ++ dots ++ name) = ((dir ++ dots ++ name)%string, EmptyString).
Proof.
  intros Hdir Hdots Hdot Hslash.
  unfold splitext. rewrite !list_ascii_of_string_app.
  set (D := list_ascii_of_string dir) in *.
  set (P := list_ascii_of_string dots) in *.
  set (Nm := list_ascii_of_string name) in *.
  assert (D = [] \/ exists d, D = d ++ ["/"%char]) as HD.
  { subst D. destruct Hdir as [->|[d ->]]; [now left|right].
    exists (list_ascii_of_string d). now rewrite list_ascii_of_string_app. }
  pose proof (len_nonneg D).
  assert (rfind "/"%char (D ++ P ++ Nm) = len D - 1) as ->.
  { apply rfind_slash; [exact HD|]. intros Hin. apply in_app_or in Hin.
    destruct Hin as [Hin|Hin]; [|now apply Hslash].
    now specialize (Hdots _ Hin). }
  match goal with |- (if ?b then _ else _) = _ => assert (b = false) as -> end;
    [|reflexivity].
  destruct (list_eq_nil_dec P) as [HP|HP].
  - rewrite HP. cbn [app]. apply andb_false_intro1, Z.ltb_ge.
    unfold rfind. rewrite rfind_from_app, (rfind_from_absent _ Nm) by exact Hdot.
    pose proof (rfind_from_bound "."%char D 0 (-1) ltac:(lia)). lia.
  - destruct (exists_last HP) as (ds & x & HPeq).
    assert (x = "."%char) as ->
      by (apply Hdots; rewrite HPeq; apply in_or_app; right; now left).
    rewrite HPeq, <- !app_assoc. cbn [app].
    assert (rfind "."%char (D ++ ds ++ "."%char :: Nm) = len D + len ds) as ->.
    { unfold rfind. rewrite !rfind_from_app. cbn [rfind_from].
      rewrite Ascii.eqb_refl. rewrite rfind_from_absent by exact Hdot. lia. }
    apply andb_false_intro2.
    replace (len D - 1 + 1) with (len D) by lia. rewrite slice_middle.
    destruct (existsb _ ds) eqn:Hex; [|reflexivity].
    apply existsb_exists in Hex. destruct Hex as (c & Hc & Hne).
    rewrite (Hdots c) in Hne by (rewrite HPeq; apply in_or_app; now left).
    discriminate.
Qed.

Lemma last_component (L : list ascii) :
  exists D C,
    L = D ++ C
    /\ (D = [] \/ exists d, D = d ++ ["/"%char])
    /\ ~ In "/"%char C.
Proof.
  destruct (rfind_from_spec "/"%char L 0 (-1)) as [[_ Hnone]|(a & b & -> & Hb & _)].
  - exists [], L. split; [reflexivity|]. split; [now left|exact Hnone].
  - exists (a ++ ["/"%char]), b. split; [now rewrite <- app_assoc|].
    split; [right; now exists a|exact Hb].
Qed.

Lemma leading_dots (C : list ascii) :
  exists P R,
    C = P ++ R
    /\ (forall c, In c P -> c = "."%char)
    /\ (R = [] \/ exists x R', R = x :: R' /\ x <> "."%char).
Proof.
  induction C as [|x C (P & R & -> & HP & HR)].
  - exists [], []. split; [reflexivity|]. split; [easy|now left].
  - destruct (Ascii.eqb_spec x "."%char) as [->|Hne].
    + exists ("."%char :: P), R. split; [reflexivity|]. split; [|exact HR].
      intros c [<-|Hc]; [reflexivity|now apply HP].
    + exists [], (x :: P ++ R). split; [reflexivity|]. split; [easy|].
      right. now exists x, (P ++ R).
Qed.

(** Every path has one of the two forms that [splitext] tells apart. *)
Lemma path_forms (p : string) :
  (exists dir name ext : string,
     p = (dir ++ name ++ "." ++ ext)%string
     /\ (dir = EmptyString \/ exists d, dir = (d ++ "/")%string)
     /\ ~ In "/"%char (list_ascii_of_string name)
     /\ (exists c, In c (list_ascii_of_string name) /\ c <> "."%char)
     /\ ~ In "."%char (list_ascii_of_string ext)
     /\ ~ In "/"%char (list_ascii_of_string ext))
  \/ (exists dir dots name : string,
        p = (dir ++ dots ++ name)%string
        /\ (dir = EmptyString \/ exists d, dir = (d ++ "/")%string)
        /\ (forall c, In c (list_ascii_of_string dots) -> c = "."%char)
        /\ ~ In "."%char (list_ascii_of_string name)
        /\ ~ In "/"%char (list_ascii_of_string name)).
Proof.
  destruct (last_component (list_ascii_of_string p)) as (D & C & HL & HD & HC).
  destruct (leading_dots C) as (P & R & -> & HP & HR).
  assert (dir_ok : string_of_list_ascii D = EmptyString
                   \/ exists d, string_of_list_ascii D = (d ++ "/")%string).
  { destruct HD as [->|[d ->]]; [now left|right].
    exists (string_of_list_ascii d). now rewrite string_of_list_ascii_app. }
  assert (Hslash : forall X, (forall c, In c X -> In c (P ++ R)) -> ~ In "/"%char X)
    by (intros X HX Hin; now apply HC, HX).
  destruct (rfind_from_spec "."%char R 0 (-1)) as [[_ Hnone]|(a & E & -> & HE & _)].
  - right. exists (string_of_list_ascii D), (string_of_list_ascii P),
      (string_of_list_ascii R).
    rewrite !list_ascii_of_string_of_list_ascii.
    split; [|split; [exact dir_ok|split; [exact HP|split; [exact Hnone|]]]].
    + rewrite <- !string_of_list_ascii_app, <- HL.
      now rewrite string_of_list_ascii_of_string.
    + apply Hslash. intros c Hc. apply in_or_app. now right.
  - left. exists (string_of_list_ascii D), (string_of_list_ascii (P ++ a)),
      (string_of_list_ascii E).
    rewrite !list_ascii_of_string_of_list_ascii.
    split; [|split; [exact dir_ok|split; [|split; [|split; [exact HE|]]]]].
    + change ("." ++ string_of_list_ascii E)%string
        with (string_of_list_ascii ("."%char :: E)).
      rewrite <- !string_of_list_ascii_app, <- app_assoc, <- HL.
      now rewrite string_of_list_ascii_of_string.
    + apply Hslash. intros c Hc. apply in_app_or in Hc.
      apply in_or_app. destruct Hc as [Hc|Hc]; [now left|right].
      apply in_or_app. now left.
    + destruct HR as [HR|(x & R' & HR & Hx)].
      { now destruct a. }
      destruct a as [|y a].
      { cbn in HR. injection HR as <- _. contradiction. }
      cbn in HR. injection HR as <- _. exists y. split; [|exact Hx].
      apply in_or_app. right. now left.
    + apply Hslash. intros c Hc. apply in_or_app. right.
      apply in_or_app. right. now right.
Qed.

(** C9.  The output path is the input path with its extension replaced by
    [.txt]: the input path is cut in two by [splitext], at the last dot of
    its last component when a character other than a dot comes before that
    dot in the component (then the dot and what follows are replaced), and
    not at all otherwise (then [.txt] is added to the whole path), and every
    path is of one of these two kinds; for the script's [files.wav] it is
    [files.txt].  Once the audio is loaded, the
    run does not depend on what the output path held before: a file found
    there is removed before the output is opened, so the result is that of a
    run with no such file.  A buffer of no samples, and a buffer on which
    every recognized text is blank, give a run that completes and leaves an
    empty file at the output path. *)
Theorem output_file_recreated {sample : Type} (cfg : config)
    (env : environment sample) (audio : list sample) (fs : gmap string bytes) :
  load_audio env (wav_path cfg) = Some audio ->
  1 <= segment_samples cfg ->
  (wav_path cfg
   = (fst (splitext (wav_path cfg)) ++ snd (splitext (wav_path cfg)))%string
   /\ out_path cfg = (fst (splitext (wav_path cfg)) ++ ".txt")%string
   /\ (snd (splitext (wav_path cfg)) = EmptyString
       \/ exists rest,
            snd (splitext (wav_path cfg)) = String "."%char rest
            /\ ~ In "."%char (list_ascii_of_string rest)
            /\ ~ In "/"%char (list_ascii_of_string rest))
   /\ (forall dir name ext : string,
         wav_path cfg = (dir ++ name ++ "." ++ ext)%string ->
         (dir = EmptyString \/ exists d, dir = (d ++ "/")%string) ->
         ~ In "/"%char (list_ascii_of_string name) ->
         (exists c, In c (list_ascii_of_string name) /\ c <> "."%char) ->
         ~ In "."%char (list_ascii_of_string ext) ->
         ~ In "/"%char (list_ascii_of_string ext) ->
         splitext (wav_path cfg) = ((dir ++ name)%string, ("." ++ ext)%string)
         /\ out_path cfg = (dir ++ name ++ ".txt")%string)
   /\ (forall dir dots name : string,
         wav_path cfg = (dir ++ dots ++ name)%string ->
         (dir = EmptyString \/ exists d, dir = (d ++ "/")%string) ->
         (forall c, In c (list_ascii_of_string dots) -> c = "."%char) ->
         ~ In "."%char (list_ascii_of_string name) ->
         ~ In "/"%char (list_ascii_of_string name) ->
         splitext (wav_path cfg) = (wav_path cfg, EmptyString)
         /\ out_path cfg = (wav_path cfg ++ ".txt")%string)
   /\ ((exists dir name ext : string,
          wav_path cfg = (dir ++ name ++ "." ++ ext)%string
          /\ (dir = EmptyString \/ exists d, dir = (d ++ "/")%string)
          /\ ~ In "/"%char (list_ascii_of_string name)
          /\ (exists c, In c (list_ascii_of_string name) /\ c <> "."%char)
          /\ ~ In "."%char (list_ascii_of_string ext)
          /\ ~ In "/"%char (list_ascii_of_string ext))
       \/ (exists dir dots name : string,
             wav_path cfg = (dir ++ dots ++ name)%string
             /\ (dir = EmptyString \/ exists d, dir = (d ++ "/")%string)
             /\ (forall c, In c (list_ascii_of_string dots) -> c = "."%char)
             /\ ~ In "."%char (list_ascii_of_string name)
             /\ ~ In "/"%char (list_ascii_of_string name)))
   /\ out_path script_config = "files.txt"%string)
  /\ (forall old,
      run cfg env (<[out_path cfg := old]> fs)
      = run cfg env (delete (out_path cfg) fs))
  /\ (exists written,
      snd (run cfg env fs) !! out_path cfg = Some written
      /\ snd (run cfg env fs) = <[out_path cfg := written]> fs)
  /\ (len audio = 0 ->
      run cfg env fs = (Returned tt, <[out_path cfg := []]> fs))
  /\ ((forall i, 0 <= i < total_segments cfg (len audio) ->
         too_short cfg (segment_audio cfg audio i) = false ->
         exists result,
           transcribe env i (segment_audio cfg audio i) = Gives result
           /\ strip (get_text result) = []) ->
      run cfg env fs = (Returned tt, <[out_path cfg := []]> fs)).
Proof.
  intros Hload Hw.
  assert (sr cfg <> 0) as Hsr by (unfold segment_samples in Hw; nia).
  assert (segment_samples cfg <> 0) as Hseg by lia.
  assert ((forall i, 0 <= i < total_segments cfg (len audio) ->
             too_short cfg (segment_audio cfg audio i) = false ->
             exists result,
               transcribe env i (segment_audio cfg audio i) = Gives result
               /\ strip (get_text result) = []) ->
          run cfg env fs = (Returned tt, <[out_path cfg := []]> fs)) as Hblank.
  { intros Hall. rewrite (run_unfold cfg env audio fs Hload Hsr Hseg).
    rewrite (loop_trace_answered cfg env audio).
    - rewrite omap_all_none; [reflexivity|].
      intros i Hi. apply in_range in Hi. unfold line_of.
      destruct (too_short cfg (segment_audio cfg audio i)) eqn:Hshort; [easy|].
      destruct (Hall i Hi Hshort) as (result & -> & ->). reflexivity.
    - apply all_answered_range. intros i Hi Hshort.
      destruct (Hall i Hi Hshort) as (result & Hres & _). now exists result. }
  split; [|split; [|split; [|split]]].
  - destruct (splitext_spec (wav_path cfg)) as [Hcut Hext].
    split; [exact Hcut|]. split; [reflexivity|]. split; [exact Hext|].
    split; [|split; [|split; [apply path_forms|reflexivity]]].
    + intros dir name ext Hpath Hdir Hname Hchar Hdot Hslash.
      assert (splitext (wav_path cfg)
              = ((dir ++ name)%string, ("." ++ ext)%string)) as Hat
        by (rewrite Hpath; now apply splitext_at_last_dot).
      split; [exact Hat|]. unfold out_path. rewrite Hat. cbn [fst].
      apply string_app_assoc.
    + intros dir dots name Hpath Hdir Hdots Hdot Hslash.
      assert (splitext (wav_path cfg) = (wav_path cfg, EmptyString)) as Hat
        by (rewrite Hpath; now apply splitext_whole).
      split; [exact Hat|]. unfold out_path. now rewrite Hat.
  - intros old. apply (run_ignores_old_output cfg env audio); try easy.
    now rewrite insert_insert_eq, insert_delete_eq.
  - rewrite (run_unfold cfg env audio fs Hload Hsr Hseg). cbn zeta. cbn [snd].
    destruct (snd (loop_trace cfg env audio _)) as [[]| |].
    1,2: eexists; split; [apply lookup_insert_eq|reflexivity].
    match goal with |- context [write_all ?b ?p ?cs ?w] =>
      destruct (write_all_disk b p cs w) as [x Hx] end.
    { cbn [disk]. rewrite lookup_insert_eq. eauto. }
    rewrite Hx. cbn [disk]. rewrite insert_insert_eq.
    exists x. split; [apply lookup_insert_eq|reflexivity].
  - intros HN. apply Hblank. intros i Hi.
    rewrite HN in Hi. unfold total_segments in Hi.
    rewrite ceil_quot_zero in Hi. lia.
  - exact Hblank.
Qed.

(** *** Settings that give no window *)

Lemma run_zero_window {sample : Type} (cfg : config) (env : environment sample)
    (audio : list sample) (fs : gmap string bytes) :
  load_audio env (wav_path cfg) = Some audio ->
  segment_samples cfg = 0 ->
  run cfg env fs = (Raised ZeroDivisionError, fs).
Proof.
  intros Hload Hzero. unfold run, main, call_load_audio. rewrite Hload.
  unfold bind at 1. unfold ret at 1. unfold truediv, ceil_truediv.
  destruct (sr cfg =? 0) eqn:Hsr; [reflexivity|].
  unfold bind at 1. unfold ret at 1. rewrite Hzero. reflexivity.
Qed.




(** *** A run that is killed *)

Lemma write_all_buffered (bufsize : Z) (path : string) (cs : list bytes)
    (w : world) :
  len (pending w ++ concat cs) < bufsize ->
  write_all bufsize path cs w = World (disk w) (pending w ++ concat cs).
Proof.
  revert w. induction cs as [|c cs IH]; intros w Hlen.
  - cbn. rewrite app_nil_r. now destruct w.
  - cbn [concat] in Hlen. rewrite app_assoc in Hlen.
    rewrite write_all_cons, fwrite_buffered
      by (rewrite len_app in Hlen; pose proof (len_nonneg (concat cs)); lia).
    cbn [snd]. rewrite IH by exact Hlen. cbn [disk pending concat].
    now rewrite app_assoc.
Qed.

Lemma too_short_by_bounds {sample : Type} (cfg : config) (audio : list sample)
    (i : Z) :
  1 <= segment_samples cfg ->
  0 <= i < total_segments cfg (len audio) ->
  too_short cfg (segment_audio cfg audio i)
  = (2 * (window_end cfg (len audio) i - window_start cfg i) <? sr cfg).
Proof.
  intros Hw Hi. unfold too_short. now rewrite (len_segment_audio cfg Hw).
Qed.

Lemma len_silence (n : Z) : 0 <= n -> len (silence n) = n.
Proof. intros H. unfold silence. rewrite len_repeat. lia. Qed.

(** Everything written fits in the buffer: a run killed in the loop leaves
    the output file empty, whatever was written before. *)
Lemma killed_run_below_bufsize {sample : Type} (cfg : config)
    (env : environment sample) (audio : list sample) (fs : gmap string bytes) :
  load_audio env (wav_path cfg) = Some audio ->
  1 <= segment_samples cfg ->
  let tr := loop_trace cfg env audio (range (total_segments cfg (len audio))) in
  snd tr = Killed ->
  len (render_all cfg (fst tr)) < bufsize env ->
  run cfg env fs = (Killed, <[out_path cfg := []]> fs).
Proof.
  intros Hload Hw tr Hkilled Hfits. subst tr.
  rewrite (run_unfold cfg env audio fs Hload)
    by (unfold segment_samples in *; nia).
  cbn zeta. rewrite Hkilled.
  rewrite write_all_buffered; [reflexivity|].
  cbn [pending app]. now rewrite render_all_chunks.
Qed.

(** C2 fails on the code.  A one-minute recording, "hello" recognized in the
    first window, and the process killed while the recognizer works on the
    second window.  The first window qualifies; the body of the loop writes
    its line with [f.write] and returns with the line in the buffer of the
    file object and the file on disk still empty; the recognizer is then
    invoked on the second window, and the run that is killed there leaves the
    output file empty. *)
Theorem killed_run_loses_written_line :
  let env := studio 960000 (dies_at 1) in
  let audio := silence 960000 in
  let line := list_byte_of_string "[   0.0–  30.0s] hello" ++ [x0a] in
  let empty_file : gmap string bytes := {[ "files.txt"%string := [] ]} in
  line_of script_config env audio 0
  = Some (TranscriptLine 0 0 480000 (lit "hello"))
  /\ utf8 (render script_config (TranscriptLine 0 0 480000 (lit "hello"))) = line
  /\ body script_config env audio "files.txt" 0 (World empty_file [])
     = (Returned tt, World empty_file line)
  /\ body script_config env audio "files.txt" 1 (World empty_file line)
     = (Killed, World empty_file line)
  /\ run script_config env ∅ = (Killed, empty_file).
Proof.
  intros env audio line empty_file. subst env audio line empty_file.
  assert (1 <= segment_samples script_config) as Hw by (vm_compute; discriminate).
  assert (len (silence 960000) = 960000) as Hlen by (apply len_silence; lia).
  assert (total_segments script_config (len (silence 960000)) = 2) as Hn
    by (rewrite Hlen; reflexivity).
  assert (forall i, 0 <= i < 2 ->
            too_short script_config (segment_audio script_config (silence 960000) i)
            = false) as Hlong.
  { intros i Hi. rewrite too_short_by_bounds by (rewrite ?Hn; lia).
    rewrite Hlen. unfold window_end, window_start.
    change (segment_samples script_config) with 480000.
    change (sr script_config) with 16000. lia. }
  assert (line_of script_config (studio 960000 (dies_at 1)) (silence 960000) 0
          = Some (TranscriptLine 0 0 480000 (lit "hello"))) as Hline.
  { unfold line_of. rewrite Hlong by lia. rewrite Hlen. reflexivity. }
  split; [exact Hline|]. split; [vm_compute; reflexivity|].
  split; [|split].
  1, 2: rewrite body_unfold by discriminate; rewrite Hlong by lia; rewrite Hlen.
  { change (transcribe (studio 960000 (dies_at 1)) 0 _) with (Gives hello).
    vm_compute. reflexivity. }
  { reflexivity. }
  rewrite (killed_run_below_bufsize script_config _ (silence 960000));
    [f_equal|reflexivity|exact Hw|..].
  all: rewrite Hn; change (range 2) with [0; 1]; cbn [loop_trace].
  all: rewrite !Hlong by lia; rewrite Hline.
  all: change (transcribe (studio 960000 (dies_at 1)) 0 _) with (Gives hello).
  all: change (transcribe (studio 960000 (dies_at 1)) 1 _)
         with (@Dies (gmap string pyval)).
  - reflexivity.
  - cbn [fst]. vm_compute. reflexivity.
Qed.

(** *** The minimum-duration test *)

(** *** Trimming *)

Lemma lstrip_spec (s : str) :
  exists l, s = l ++ lstrip s
            /\ forallb isspace l = true
            /\ (lstrip s = [] \/ exists c t, lstrip s = c :: t /\ isspace c = false).
Proof.
  induction s as [|c s (l & Hs & Hl & Hhead)].
  - exists []. repeat split. now left.
  - cbn [lstrip]. destruct (isspace c) eqn:Hc.
    + exists (c :: l). split; [cbn; now rewrite <- Hs|].
      split; [cbn; now rewrite Hc, Hl|exact Hhead].
    + exists []. repeat split. right. now exists c, s.
Qed.

Lemma lstrip_blank (s : str) : forallb isspace s = true -> lstrip s = [].
Proof.
  induction s as [|c s IH]; [easy|]. cbn. intros H.
  apply andb_prop in H. destruct H as [-> H]. now apply IH.
Qed.

Lemma lstrip_keeps_last (s : str) (c : N) :
  isspace c = false -> lstrip (s ++ [c]) = lstrip s ++ [c].
Proof.
  intros Hc. induction s as [|x s IH]; cbn; [now rewrite Hc|].
  now destruct (isspace x).
Qed.

Lemma forallb_rev {A : Type} (f : A -> bool) (l : list A) :
  forallb f (rev l) = forallb f l.
Proof.
  induction l as [|x l IH]; [reflexivity|].
  cbn. rewrite forallb_app, IH. cbn. rewrite andb_true_r. apply andb_comm.
Qed.

(** [strip] removes a blank prefix and a blank suffix, and what is left is
    empty or starts and ends with a character that is not blank. *)
Lemma strip_spec (s : str) :
  exists l r,
    s = l ++ strip s ++ r
    /\ forallb isspace l = true
    /\ forallb isspace r = true
    /\ (strip s = []
        \/ (exists c t, strip s = c :: t /\ isspace c = false)
           /\ (exists t c, strip s = t ++ [c] /\ isspace c = false)).
Proof.
  destruct (lstrip_spec s) as (l & Hs & Hl & Hhead).
  destruct (lstrip_spec (rev (lstrip s))) as (r & Hrev & Hr & Hlast).
  exists l, (rev r). unfold strip, rstrip.
  assert (lstrip s = rev (lstrip (rev (lstrip s))) ++ rev r) as Hmid.
  { rewrite <- rev_app_distr, <- Hrev. now rewrite rev_involutive. }
  split; [now rewrite <- Hmid|]. split; [exact Hl|].
  split; [now rewrite forallb_rev|].
  destruct Hlast as [Hnil|(c & t & Hct & Hc)]; [left; now rewrite Hnil|].
  right. split.
  - destruct Hhead as [Hnil|(c' & t' & Hct' & Hc')].
    + rewrite Hnil in Hct. discriminate.
    + rewrite Hct'. cbn [rev]. rewrite lstrip_keeps_last by exact Hc'.
      rewrite rev_app_distr. cbn. eauto.
  - rewrite Hct. cbn [rev]. eauto.
Qed.

Lemma strip_blank (s : str) : forallb isspace s = true <-> strip s = [].
Proof.
  split.
  - intros H. unfold strip. now rewrite lstrip_blank.
  - intros H. destruct (strip_spec s) as (l & r & Hs & Hl & Hr & _).
    rewrite H in Hs. rewrite Hs, forallb_app. cbn. now rewrite Hl, Hr.
Qed.

(** *** Digits and fields *)

Lemma uint_digits (u : Decimal.uint) :
  Forall decimal_digit (lit (NilEmpty.string_of_uint u)).
Proof.
  induction u; cbn; constructor; try assumption; unfold decimal_digit; lia.
Qed.

Lemma digits_decimal (z : Z) : Forall decimal_digit (digits z) /\ digits z <> [].
Proof.
  unfold digits. destruct (N.to_uint (Z.to_N z)) as [|u|u|u|u|u|u|u|u|u|u].
  1: split; [constructor; [unfold decimal_digit; cbn; lia|constructor]|discriminate].
  all: split; [apply uint_digits|discriminate].
Qed.

Lemma digits_one (z : Z) : 0 <= z < 10 -> digits z = [(48 + Z.to_N z)%N].
Proof.
  intros H.
  assert (z = 0 \/ z = 1 \/ z = 2 \/ z = 3 \/ z = 4 \/ z = 5 \/ z = 6 \/ z = 7
          \/ z = 8 \/ z = 9) as Hz by lia.
  repeat (destruct Hz as [->|Hz]; [reflexivity|]). now subst z.
Qed.

(** [tenths] is ten times the value, rounded to nearest, ties to even. *)
Lemma tenths_nearest (m : positive) (e : Z) :
  let scale := 2 ^ Z.max (- e) 0 in
  let exact := 10 * Zpos m * 2 ^ Z.max e 0 in
  2 * Z.abs (exact - tenths m e * scale) <= scale
  /\ (2 * Z.abs (exact - tenths m e * scale) = scale -> Z.even (tenths m e) = true).
Proof.
  unfold tenths. destruct e as [|p|p]; cbv zeta.
  - change (Z.max (- 0) 0) with 0. change (Z.max 0 0) with 0.
    rewrite Z.pow_0_r. split; [lia|]. intros H. lia.
  - replace (Z.max (- Zpos p) 0) with 0 by lia.
    replace (Z.max (Zpos p) 0) with (Zpos p) by lia.
    rewrite Z.pow_0_r. split; [lia|]. intros H. lia.
  - replace (Z.max (- Zneg p) 0) with (Zpos p) by lia.
    replace (Z.max (Zneg p) 0) with 0 by lia.
    rewrite Z.pow_0_r, Z.mul_1_r.
    assert (0 < 2 ^ Zpos p) as Hd by (apply Z.pow_pos_nonneg; lia).
    pose proof (Z.div_mod (10 * Zpos m) (2 ^ Zpos p) ltac:(lia)) as Hdiv.
    pose proof (Z.mod_pos_bound (10 * Zpos m) (2 ^ Zpos p) Hd) as Hmod.
    set (d := 2 ^ Zpos p) in *. set (q := 10 * Zpos m / d) in *.
    set (r := (10 * Zpos m) mod d) in *.
    destruct (Z.ltb_spec (2 * r) d); [split; [nia|intros; nia]|].
    destruct (Z.ltb_spec d (2 * r)); [split; [nia|intros; nia]|].
    destruct (Z.even q) eqn:Hq; [split; [nia|now intros]|].
    split; [nia|]. intros _. rewrite Z.even_add, Hq. reflexivity.
Qed.

Lemma len_rjust (w : Z) (s : str) : len (rjust w s) = Z.max w (len s).
Proof. unfold rjust. rewrite len_app, len_repeat. pose proof (len_nonneg s). lia. Qed.

Lemma no_newline_in_field (x : float) : ~ In newline (format_6_1f x).
Proof.
  unfold format_6_1f, rjust. intros Hin. apply in_app_or in Hin.
  destruct Hin as [Hin|Hin]; [apply repeat_spec in Hin; discriminate|].
  assert (forall s, ~ In newline (sign s)) as Hsign
    by (intros [|]; cbn; intuition discriminate).
  assert (forall z, ~ In newline (digits z)) as Hdigits.
  { intros z Hz. destruct (digits_decimal z) as [Hall _].
    rewrite List.Forall_forall in Hall. specialize (Hall _ Hz).
    unfold decimal_digit, newline in Hall. lia. }
  destruct x as [s|s| |s m e]; cbn [fixed1] in Hin.
  - apply in_app_or in Hin. destruct Hin as [Hin|Hin]; [now apply Hsign in Hin|].
    cbn in Hin. intuition discriminate.
  - apply in_app_or in Hin. destruct Hin as [Hin|Hin]; [now apply Hsign in Hin|].
    cbn in Hin. intuition discriminate.
  - cbn in Hin. intuition discriminate.
  - apply in_app_or in Hin. destruct Hin as [Hin|Hin]; [now apply Hsign in Hin|].
    apply in_app_or in Hin. destruct Hin as [Hin|Hin]; [now apply Hdigits in Hin|].
    apply in_app_or in Hin. destruct Hin as [Hin|Hin]; [|now apply Hdigits in Hin].
    cbn in Hin. intuition discriminate.
Qed.

Lemma one_newline_per_line (st et : float) (text : str) :
  ~ In newline text ->
  count_occ N.eq_dec (format_line st et text) newline = 1%nat.
Proof.
  intros Htext. unfold format_line. rewrite !count_occ_app.
  rewrite (proj1 (count_occ_not_In N.eq_dec (format_6_1f st) newline))
    by apply no_newline_in_field.
  rewrite (proj1 (count_occ_not_In N.eq_dec (format_6_1f et) newline))
    by apply no_newline_in_field.
  rewrite (proj1 (count_occ_not_In N.eq_dec text newline)) by exact Htext.
  reflexivity.
Qed.

(** C7.  For a window handed to the recognizer, the text is the [text] entry
    of the result, taken as empty when the entry is missing or None, with the
    blank characters at both ends removed.  When nothing is left, the body of
    the loop writes nothing and raises nothing; otherwise it makes exactly
    one write, of the line formatted for this window, and that line holds one
    line terminator when the text holds none. *)
Theorem recognized_text_line {sample : Type} (cfg : config)
    (env : environment sample) (audio : list sample) (out : string) (i : Z)
    (result : gmap string pyval) (w : world) :
  sr cfg <> 0 ->
  too_short cfg (segment_audio cfg audio i) = false ->
  transcribe env i (segment_audio cfg audio i) = Gives result ->
  let text := strip (get_text result) in
  let line :=
    format_line (float_quot (window_start cfg i) (sr cfg))
      (float_quot (window_end cfg (len audio) i) (sr cfg)) text in
  ((result !! "text"%string = None \/ result !! "text"%string = Some PyNone) ->
     get_text result = [])
  /\ (forall s, result !! "text"%string = Some (PyStr s) -> get_text result = s)
  /\ (exists l r,
        get_text result = l ++ text ++ r
        /\ forallb isspace l = true /\ forallb isspace r = true)
  /\ (text = []
      \/ (exists c t, text = c :: t /\ isspace c = false)
         /\ (exists t c, text = t ++ [c] /\ isspace c = false))
  /\ (forallb isspace (get_text result) = true <-> text = [])
  /\ (text = [] -> body cfg env audio out i w = (Returned tt, w))
  /\ (text <> [] ->
      body cfg env audio out i w = fwrite (bufsize env) out (utf8 line) w
      /\ fst (body cfg env audio out i w) = Returned tt
      /\ contents out (snd (body cfg env audio out i w))
         = contents out w ++ utf8 line
      /\ (forall p, p <> out ->
            disk (snd (body cfg env audio out i w)) !! p = disk w !! p)
      /\ (~ In newline text -> count_occ N.eq_dec line newline = 1%nat)).
Proof.
  intros Hsr Hlong Hres text line.
  destruct (strip_spec (get_text result)) as (l & r & Hcut & Hl & Hr & Hends).
  split; [|split; [|split; [|split; [|split; [|split]]]]].
  - unfold get_text. now intros [->| ->].
  - unfold get_text. now intros s ->.
  - now exists l, r.
  - exact Hends.
  - apply strip_blank.
  - intros Hempty. rewrite body_unfold by exact Hsr.
    rewrite Hlong, Hres. fold text. now rewrite Hempty.
  - intros Hne.
    assert (body cfg env audio out i w = fwrite (bufsize env) out (utf8 line) w)
      as Hbody.
    { rewrite body_unfold by exact Hsr. rewrite Hlong, Hres. subst line.
      fold text. now destruct text. }
    rewrite Hbody. split; [reflexivity|]. split; [apply fwrite_returns|].
    split; [apply fwrite_contents|]. split.
    + intros p Hp. now apply fwrite_other_files.
    + apply one_newline_per_line.
Qed.

(** *** The format of a line *)

Lemma half_minute_recording :
  loop_trace script_config (studio 480000 always_hello) (silence 480000)
    (range (total_segments script_config (len (silence 480000))))
  = ([TranscriptLine 0 0 480000 (lit "hello")], Returned tt).
Proof.
  assert (1 <= segment_samples script_config) as Hw by (vm_compute; discriminate).
  assert (len (silence 480000) = 480000) as Hlen by (apply len_silence; lia).
  assert (total_segments script_config (len (silence 480000)) = 1) as Hn
    by (rewrite Hlen; reflexivity).
  rewrite Hn. change (range 1) with [0]. cbn [loop_trace]. unfold line_of.
  rewrite too_short_by_bounds by (rewrite ?Hn; lia).
  rewrite Hlen. reflexivity.
Qed.

Lemma body_appends {sample : Type} (cfg : config) (env : environment sample)
    (audio : list sample) (out : string) (i : Z) (w : world) :
  sr cfg <> 0 ->
  exists appended,
    contents out (snd (body cfg env audio out i w)) = contents out w ++ appended
    /\ (appended = []
        \/ exists text,
             text <> []
             /\ appended
                = utf8 (format_line (float_quot (window_start cfg i) (sr cfg))
                          (float_quot (window_end cfg (len audio) i) (sr cfg))
                          text)).
Proof.
  intros Hsr. rewrite body_unfold by exact Hsr.
  assert (exists appended : bytes,
            contents out w = contents out w ++ appended
            /\ (appended = []
                \/ exists text,
                     text <> []
                     /\ appended
                        = utf8 (format_line
                                  (float_quot (window_start cfg i) (sr cfg))
                                  (float_quot (window_end cfg (len audio) i) (sr cfg))
                                  text))) as Hnone
    by (exists []; split; [now rewrite app_nil_r|now left]).
  destruct (too_short cfg (segment_audio cfg audio i)); [exact Hnone|].
  destruct (transcribe env i (segment_audio cfg audio i)) as [result| |];
    try exact Hnone.
  destruct (strip (get_text result)) as [|c text] eqn:Htext; [exact Hnone|].
  eexists. split; [apply fwrite_contents|]. right. exists (c :: text).
  split; [discriminate|reflexivity].
Qed.

(** C6.  A line is the bracket, the two times, each in a field of width 6,
    separated by an en dash, then [s] ], the text and a line terminator; what
    an iteration of the loop adds to the output is nothing or one such line,
    with the bounds of the window divided by the sample rate as times.  The
    field of a finite time is its sign, the decimal digits of the integer
    part, a point and one digit, where the digits are those of ten times the
    value rounded to the nearest integer, ties to even; it is padded with
    spaces on the left up to six characters.  For the first window of a
    thirty-second recording in which "hello" is recognized the times are 0.0
    and 30.0 and the file holds the line of the example. *)
Theorem line_format :
  (forall st et text,
      format_line st et text
      = lit "[" ++ format_6_1f st ++ [en_dash] ++ format_6_1f et
          ++ lit "s] " ++ text ++ [newline])
  /\ (forall s m e,
      let t := tenths m e in
      let number :=
        sign s ++ digits (t / 10) ++ lit "." ++ [(48 + Z.to_N (t mod 10))%N] in
      format_6_1f (S754_finite s m e)
      = repeat space (Z.to_nat (6 - len number)) ++ number
      /\ len (format_6_1f (S754_finite s m e)) = Z.max 6 (len number)
      /\ Forall decimal_digit (digits (t / 10))
      /\ digits (t / 10) <> []
      /\ 0 <= t mod 10 < 10
      /\ 2 * Z.abs (10 * Zpos m * 2 ^ Z.max e 0 - t * 2 ^ Z.max (- e) 0)
         <= 2 ^ Z.max (- e) 0
      /\ (2 * Z.abs (10 * Zpos m * 2 ^ Z.max e 0 - t * 2 ^ Z.max (- e) 0)
          = 2 ^ Z.max (- e) 0 -> Z.even t = true))
  /\ (forall (sample : Type) (cfg : config) (env : environment sample)
             (audio : list sample) (out : string) (i : Z) (w : world),
      sr cfg <> 0 ->
      exists appended,
        contents out (snd (body cfg env audio out i w))
        = contents out w ++ appended
        /\ (appended = []
            \/ exists text,
                 text <> []
                 /\ appended
                    = utf8 (format_line
                              (float_quot (window_start cfg i) (sr cfg))
                              (float_quot (window_end cfg (len audio) i) (sr cfg))
                              text)))
  /\ format_6_1f (S754_zero false) = lit "   0.0"
  /\ float_quot 0 16000 = S754_zero false
  /\ float_quot 480000 16000 = S754_finite false 8444249301319680 (-48)
  /\ tenths 8444249301319680 (-48) = 300
  /\ utf8 (format_line (float_quot 0 16000) (float_quot 480000 16000) (lit "hello"))
     = list_byte_of_string "[   0.0–  30.0s] hello" ++ [x0a]
  /\ run script_config (studio 480000 always_hello) ∅
     = (Returned tt,
        {[ "files.txt"%string := list_byte_of_string "[   0.0–  30.0s] hello" ++ [x0a] ]}).
Proof.
  split; [reflexivity|]. split.
  - intros s m e t number.
    assert (0 <= t mod 10 < 10) as Hfrac by (apply Z.mod_pos_bound; lia).
    assert (fixed1 (S754_finite s m e) = number) as Hnumber.
    { cbn [fixed1]. fold t. now rewrite (digits_one (t mod 10)). }
    destruct (digits_decimal (t / 10)) as [Hall Hne].
    destruct (tenths_nearest m e) as [Hnear Htie].
    unfold format_6_1f. rewrite len_rjust, Hnumber. unfold rjust.
    repeat split; try assumption; lia.
  - split; [intros sample cfg env audio out i w; apply body_appends|].
    do 5 (split; [vm_compute; reflexivity|]).
    rewrite (run_unfold script_config _ (silence 480000));
      [|reflexivity|vm_compute; discriminate..].
    rewrite half_minute_recording. vm_compute. reflexivity.
Qed.

(** ** The script for any window length *)

(** *** Whole seconds among the window lengths *)

Lemma general_run_of_config {sample : Type} (cfg : config)
    (env : environment sample) (fs : gmap string bytes) :
  General.run (General.of_config cfg) env fs = run cfg env fs.
Proof. reflexivity. Qed.

Lemma general_body_of_config {sample : Type} (cfg : config)
    (env : environment sample) (audio : list sample) (out : string) (i : Z)
    (w : world) :
  General.body (General.of_config cfg) (segment_samples cfg) env audio out i w
  = body cfg env audio out i w.
Proof. reflexivity. Qed.

Lemma general_segment_samples_of_config (cfg : config) :
  General.segment_samples (General.of_config cfg) = Returned (segment_samples cfg).
Proof. reflexivity. Qed.

Lemma float_mul_zero_r (x : float) :
  General.int_of_float (float_mul x (S754_zero false)) = Returned 0
  \/ exists e, General.int_of_float (float_mul x (S754_zero false)) = Raised e.
Proof.
  destruct x as [s|s| |s m e]; cbn; eauto.
Qed.

(** A window of at least one sample needs a sample rate other than zero. *)
Lemma segment_samples_rate (cfg : General.settings) (w : Z) :
  General.segment_samples cfg = Returned w -> w <> 0 -> General.sr cfg <> 0.
Proof.
  unfold General.segment_samples. intros Hw Hnz Hsr. rewrite Hsr in Hw.
  destruct (General.segment_sec cfg) as [z|x].
  - injection Hw as <-. lia.
  - change (float_of_int 0) with (S754_zero false) in Hw.
    cbv beta iota in Hw.
    destruct (float_mul_zero_r x) as [H|[e H]]; rewrite H in Hw; [|discriminate].
    injection Hw as <-. lia.
Qed.

(** A whole number of seconds is never below the half-second threshold. *)
Lemma whole_seconds_above_threshold (cfg : General.settings) (z w : Z) :
  General.segment_sec cfg = General.PyInt z ->
  General.segment_samples cfg = Returned w -> 1 <= w ->
  General.sr cfg <= 2 * w.
Proof.
  unfold General.segment_samples. intros -> [= <-] Hw.
  destruct (Z_le_gt_dec (General.sr cfg) 0); [lia|].
  assert (1 <= z) by nia. nia.
Qed.

Section GeneralWindows.
Context {sample : Type}.
Variable w : Z.
Hypothesis window_positive : 1 <= w.

Lemma general_total_segments_bounds (N : Z) :
  (General.total_segments w N - 1) * w < N <= General.total_segments w N * w.
Proof. apply ceil_quot_bounds, window_positive. Qed.

Lemma general_window_bounds (N i : Z) :
  0 <= i < General.total_segments w N ->
  0 <= General.window_start w i < General.window_end w N i
  /\ General.window_end w N i <= N.
Proof.
  intros Hi. pose proof (general_total_segments_bounds N).
  unfold General.window_start, General.window_end. nia.
Qed.

Lemma general_window_full (N i : Z) :
  0 <= i < General.total_segments w N - 1 ->
  General.window_end w N i = (i + 1) * w.
Proof.
  intros Hi. pose proof (general_total_segments_bounds N).
  unfold General.window_end. nia.
Qed.

Lemma general_len_segment_audio (audio : list sample) (i : Z) :
  0 <= i < General.total_segments w (len audio) ->
  len (General.segment_audio w audio i)
  = General.window_end w (len audio) i - General.window_start w i.
Proof.
  intros Hi. pose proof (general_window_bounds (len audio) i Hi).
  unfold General.segment_audio. apply len_slice; lia.
Qed.

Lemma general_window_width (N i : Z) :
  General.window_end w N i - General.window_start w i <= w.
Proof. unfold General.window_start, General.window_end. nia. Qed.

End GeneralWindows.

Lemma general_body_unfold {sample : Type} (cfg : General.settings) (w : Z)
    (env : environment sample) (audio : list sample) (out : string) (i : Z)
    (world : Run.world) :
  General.sr cfg <> 0 ->
  General.body cfg w env audio out i world
  = if General.too_short cfg (General.segment_audio w audio i)
    then (Returned tt, world)
    else
      match transcribe env i (General.segment_audio w audio i) with
      | Gives result =>
          match strip (get_text result) with
          | [] => (Returned tt, world)
          | text =>
              fwrite (bufsize env) out
                (utf8 (format_line
                         (float_quot (General.window_start w i) (General.sr cfg))
                         (float_quot (General.window_end w (len audio) i)
                            (General.sr cfg))
                         text)) world
          end
      | Fails => (Raised RecognitionError, world)
      | Dies => (Killed, world)
      end.
Proof.
  intros Hsr. unfold General.body. fold (General.segment_audio w audio i).
  destruct (General.too_short cfg (General.segment_audio w audio i)); [reflexivity|].
  unfold truediv. apply Z.eqb_neq in Hsr. rewrite Hsr.
  unfold bind, ret, call_transcribe.
  destruct (transcribe env i (General.segment_audio w audio i)) as [result| |];
    try reflexivity.
  now destruct (strip (get_text result)).
Qed.

(** C5, as the code has it.  The minimum-duration rule, for a window length that is any number
    from which line 24 gets at least one sample.  A window of the loop is
    left out exactly when it has fewer than 0.5 * sr samples: then the body
    of the loop does nothing, whatever the recognizer would answer, and
    otherwise the recognizer is consulted.  When the window is at least half
    a second long, 2 * segment_samples >= sr, a window that is not the last
    has segment_samples samples and is never left out, so only the last
    window can be; a whole number of seconds is such a window.  When the
    window is shorter than half a second, every window is left out.  Line
    24 itself: the product of an int is that int, the product of a float is
    rounded as a float and then cut towards zero, and an infinite or
    undefined product is refused. *)
Theorem short_window_filter {sample : Type} (cfg : General.settings)
    (segment_samples : Z) (audio : list sample) (out : string) (i : Z) :
  General.segment_samples cfg = Returned segment_samples ->
  1 <= segment_samples ->
  0 <= i < General.total_segments segment_samples (len audio) ->
  let n := General.total_segments segment_samples (len audio) in
  let start := General.window_start segment_samples i in
  let end_ := General.window_end segment_samples (len audio) i in
  let seg := slice audio start end_ in
  let width := end_ - start in
  len seg = width
  /\ (General.too_short cfg seg = true
      <-> (inject_Z width < (1 # 2) * inject_Z (General.sr cfg))%Q)
  /\ ((forall (env : environment sample) (w : world),
          General.body cfg segment_samples env audio out i w = (Returned tt, w))
      <-> (inject_Z width < (1 # 2) * inject_Z (General.sr cfg))%Q)
  /\ (forall (env : environment sample) (w : world),
        General.too_short cfg seg = false ->
        transcribe env i seg = Fails ->
        General.body cfg segment_samples env audio out i w
        = (Raised RecognitionError, w))
  /\ (General.sr cfg <= 2 * segment_samples ->
      (i < n - 1 -> width = segment_samples /\ General.too_short cfg seg = false)
      /\ (General.too_short cfg seg = true -> i = n - 1))
  /\ (forall z, General.segment_sec cfg = General.PyInt z ->
      General.sr cfg <= 2 * segment_samples)
  /\ (2 * segment_samples < General.sr cfg ->
      General.too_short cfg seg = true
      /\ forall (env : environment sample) (w : world),
           General.body cfg segment_samples env audio out i w = (Returned tt, w))
  /\ (General.segment_samples (General.of_config script_config) = Returned 480000
      /\ General.segment_samples half_second_window = Returned 8000
      /\ General.segment_samples quarter_second_window = Returned 4000
      /\ General.segment_samples
           (General.Settings "files.wav" (General.PyFloat seven_tenths) 10)
         = Returned 7
      /\ General.segment_samples
           (General.Settings "files.wav"
              (General.PyFloat two_and_three_quarters) 3)
         = Returned 8
      /\ General.segment_samples
           (General.Settings "files.wav"
              (General.PyFloat minus_two_and_three_quarters) 3)
         = Returned (-8)
      /\ General.segment_samples
           (General.Settings "files.wav"
              (General.PyFloat (S754_infinity false)) 16000)
         = Raised OverflowError
      /\ General.segment_samples
           (General.Settings "files.wav" (General.PyFloat S754_nan) 16000)
         = Raised ValueError).
Proof.
  intros Hline Hw Hi n start end_ seg width.
  assert (General.sr cfg <> 0) as Hsr
    by (apply (segment_samples_rate cfg segment_samples Hline); lia).
  assert (len seg = width) as Hlen
    by apply (general_len_segment_audio segment_samples Hw audio i Hi).
  assert (General.too_short cfg seg = true
          <-> (inject_Z width < (1 # 2) * inject_Z (General.sr cfg))%Q) as Hhalf.
  { unfold General.too_short. rewrite Hlen, Z.ltb_lt.
    unfold Qlt, Qmult, inject_Z. cbn. lia. }
  assert (General.too_short cfg seg = true ->
          forall (env : environment sample) (world : Run.world),
            General.body cfg segment_samples env audio out i world
            = (Returned tt, world)) as Hskip.
  { intros Hshort env world. rewrite general_body_unfold by exact Hsr.
    change (General.segment_audio segment_samples audio i) with seg.
    now rewrite Hshort. }
  split; [exact Hlen|]. split; [exact Hhalf|].
  split; [|split; [|split; [|split; [|split]]]].
  6: (repeat split; vm_compute; reflexivity).
  - rewrite <- Hhalf. split; [|exact Hskip].
    intros Hnothing.
    specialize (Hnothing (Environment sample (fun _ => None) (fun _ _ => Fails) 0)
                         (World ∅ [])).
    rewrite general_body_unfold in Hnothing by exact Hsr.
    change (General.segment_audio segment_samples audio i) with seg in Hnothing.
    destruct (General.too_short cfg seg); [reflexivity|].
    cbn in Hnothing. discriminate.
  - intros env world Hlong Hfail. rewrite general_body_unfold by exact Hsr.
    change (General.segment_audio segment_samples audio i) with seg.
    now rewrite Hlong, Hfail.
  - intros Hhalf_second.
    assert (i < n - 1 ->
            width = segment_samples /\ General.too_short cfg seg = false) as Hfull.
    { intros Hnotlast. subst n.
      assert (width = segment_samples) as Hwidth.
      { subst width end_ start.
        rewrite (general_window_full segment_samples Hw (len audio) i) by lia.
        unfold General.window_start. lia. }
      split; [exact Hwidth|]. unfold General.too_short.
      rewrite Hlen, Hwidth. lia. }
    split; [exact Hfull|]. intros Hshort.
    destruct (Z.eq_dec i (n - 1)) as [|Hne]; [easy|].
    destruct (Hfull ltac:(subst n; lia)) as [_ Hlong]. congruence.
  - intros z Hint.
    now apply (whole_seconds_above_threshold cfg z segment_samples).
  - intros Hshorter.
    assert (General.too_short cfg seg = true) as Hshort.
    { unfold General.too_short. rewrite Hlen.
      pose proof (general_window_width segment_samples (len audio) i).
      subst width end_ start. lia. }
    split; [exact Hshort|]. now apply Hskip.
Qed.

(** C5 as stated does not hold: with a window of a quarter of a second and
    a recording of three such windows, the first window is not the last, has
    exactly segment_samples samples, and is left out by the minimum-duration
    test, as is every window. *)
Lemma short_windows_are_all_left_out :
  let cfg := quarter_second_window in
  let audio := silence 12000 in
  General.segment_samples cfg = Returned 4000
  /\ General.total_segments 4000 (len audio) = 3
  /\ len (General.segment_audio 4000 audio 0) = 4000
  /\ General.too_short cfg (General.segment_audio 4000 audio 0) = true
  /\ (forall (env : environment Z) (w : world),
        General.body cfg 4000 env audio "files.txt" 0 w = (Returned tt, w))
  /\ (forall i, 0 <= i < 3 ->
        General.too_short cfg (General.segment_audio 4000 audio i) = true).
Proof.
  cbv zeta.
  split; [vm_compute; reflexivity|]. split; [vm_compute; reflexivity|].
  split; [vm_compute; reflexivity|]. split; [vm_compute; reflexivity|].
  split.
  - intros env w. rewrite general_body_unfold by discriminate.
    replace (General.too_short quarter_second_window
               (General.segment_audio 4000 (silence 12000) 0)) with true
      by (vm_compute; reflexivity).
    reflexivity.
  - intros i Hi.
    assert (i = 0 \/ i = 1 \/ i = 2) as [->|[->| ->]] by lia;
      vm_compute; reflexivity.
Qed.

(** *** Order of the start times, as floats *)

Lemma digits2_mono (a b : positive) :
  (a <= b)%positive -> Zpos (digits2_pos a) <= Zpos (digits2_pos b).
Proof.
  intros Hab. pose proof (digits2_bounds a) as Ha. pose proof (digits2_bounds b) as Hb.
  destruct (Z_le_gt_dec (Zpos (digits2_pos a)) (Zpos (digits2_pos b))); [easy|].
  assert (2 ^ Zpos (digits2_pos b) <= 2 ^ (Zpos (digits2_pos a) - 1))
    by (apply Z.pow_le_mono_r; lia).
  lia.
Qed.

(** Division by the same int keeps two different ints apart: the float
    quotients of two ints below 2^51 are in the order of the ints. *)
Lemma float_quot_increasing (a a' b : Z) :
  0 <= a < a' -> a' < 2 ^ 51 -> 1 <= b < 2 ^ 53 ->
  float_lt (float_quot a b) (float_quot a' b) = true.
Proof.
  intros Ha Ha' Hb.
  destruct b as [|pb|pb]; try lia.
  destruct a' as [|pa'|pa']; try lia.
  assert (Zpos pa' < 2 ^ 53) as Ha53
    by (assert (2 ^ 51 < 2 ^ 53) by (apply Z.pow_lt_mono_r; lia); lia).
  destruct (float_quot_pos pa' pb Ha53 ltac:(lia))
    as (m' & e' & Hres' & Hd' & He' & Hval' & _).
  destruct a as [|pa|pa]; try lia.
  { rewrite float_quot_zero by lia. rewrite Hres'. reflexivity. }
  destruct (float_quot_pos pa pb ltac:(lia) ltac:(lia))
    as (m & e & Hres & Hd & He & Hval & _).
  rewrite Hres, Hres'.
  pose proof (digits2_bounds pa) as Hda. pose proof (digits2_bounds pa') as Hda'.
  pose proof (digits2_bounds pb) as Hdb.
  pose proof (digits2_mono pa pa' ltac:(lia)) as Hmono.
  set (da := Zpos (digits2_pos pa)) in *. set (da' := Zpos (digits2_pos pa')) in *.
  set (db := Zpos (digits2_pos pb)) in *.
  assert (1 <= da) as Hda1 by (subst da; lia).
  assert (1 <= db) as Hdb1 by (subst db; lia).
  assert (da' <= 51) as Hda51.
  { destruct (Z_le_gt_dec da' 51); [easy|].
    assert (2 ^ 51 <= 2 ^ (da' - 1)) by (apply Z.pow_le_mono_r; lia). lia. }
  set (E := 53 + db - da) in *. set (E' := 53 + db - da') in *.
  rewrite (canonical_lt m m' e e' E) by (try assumption; lia).
  apply Z.ltb_lt.
  set (q := Zpos pa * 2 ^ E / Zpos pb) in *.
  set (q' := Zpos pa' * 2 ^ E' / Zpos pb) in *.
  set (T := 2 ^ (E - E')).
  assert (0 < T) as HT by (apply Z.pow_pos_nonneg; lia).
  assert (2 ^ E = 2 ^ E' * T) as HET.
  { subst T. rewrite <- Z.pow_add_r by lia. f_equal. lia. }
  assert (Zpos m' * 2 ^ (e' + E) = Zpos m' * 2 ^ (e' + E') * T) as Hscale.
  { subst T. rewrite <- Z.mul_assoc, <- Z.pow_add_r by lia. do 2 f_equal. lia. }
  rewrite Hscale.
  pose proof (Z.mul_div_le (Zpos pa * 2 ^ E) (Zpos pb) ltac:(lia)) as Hq.
  pose proof (Z.mul_succ_div_gt (Zpos pa' * 2 ^ E') (Zpos pb) ltac:(lia)) as Hq'.
  fold q in Hq. fold q' in Hq'.
  (* 2^E is large against the divisor *)
  assert (4 * Zpos pb * T <= 2 ^ E) as Hbig.
  { assert (T = 2 ^ (da' - da)) as -> by (subst T E E'; f_equal; lia).
    assert (2 ^ E = 2 ^ db * 2 ^ (da' - da) * 2 ^ (53 - da')) as ->.
    { rewrite <- !Z.pow_add_r by lia. f_equal. subst E. lia. }
    assert (4 <= 2 ^ (53 - da')).
    { change 4 with (2 ^ 2). apply Z.pow_le_mono_r; lia. }
    assert (0 < 2 ^ (da' - da)) by (apply Z.pow_pos_nonneg; lia).
    assert (0 < 2 ^ db) by (apply Z.pow_pos_nonneg; lia).
    assert (Zpos pb * 2 ^ (da' - da) <= 2 ^ db * 2 ^ (da' - da)) by nia.
    nia. }
  assert (0 < 2 ^ E') as HE' by (apply Z.pow_pos_nonneg; lia).
  assert ((q + 2) * Zpos pb < (q' - 1) * T * Zpos pb) as Hmul.
  { assert ((q + 2) * Zpos pb <= Zpos pa * 2 ^ E + 2 * Zpos pb) by lia.
    assert (Zpos pa' * 2 ^ E - 2 * Zpos pb * T < (q' - 1) * T * Zpos pb).
    { rewrite HET.
      replace ((q' - 1) * T * Zpos pb)
        with (Zpos pb * Z.succ q' * T - 2 * Zpos pb * T) by lia.
      assert (Zpos pa' * 2 ^ E' * T < Zpos pb * Z.succ q' * T)
        by (apply Z.mul_lt_mono_pos_r; lia).
      lia. }
    assert (Zpos pa * 2 ^ E + 2 ^ E <= Zpos pa' * 2 ^ E).
    { replace (Zpos pa * 2 ^ E + 2 ^ E) with ((Zpos pa + 1) * 2 ^ E) by lia.
      apply Z.mul_le_mono_nonneg_r; lia. }
    assert (2 * Zpos pb + 2 * Zpos pb * T <= 2 ^ E) by nia.
    lia. }
  assert (q + 2 < (q' - 1) * T) as Hlt
    by (apply Z.mul_lt_mono_pos_r with (p := Zpos pb); lia).
  assert ((q' - 1) * T <= Zpos m' * 2 ^ (e' + E') * T)
    by (apply Z.mul_le_mono_nonneg_r; lia).
  lia.
Qed.

(** *** Runs in which the recognizer always returns *)

Section GeneralRuns.
Context {sample : Type}.
Variables (cfg : General.settings) (w : Z).
Variables (env : environment sample) (audio : list sample).

Lemma general_line_of_render (i : Z) (l : transcript_line) :
  General.line_of cfg w env audio i = Some l ->
  exists result,
    General.too_short cfg (General.segment_audio w audio i) = false
    /\ transcribe env i (General.segment_audio w audio i) = Gives result
    /\ strip (get_text result) = line_text l
    /\ line_text l <> []
    /\ line_index l = i
    /\ line_start l = General.window_start w i
    /\ line_end l = General.window_end w (len audio) i.
Proof.
  unfold General.line_of.
  destruct (General.too_short cfg (General.segment_audio w audio i)); [easy|].
  destruct (transcribe env i (General.segment_audio w audio i)) as [result| |];
    try easy.
  destruct (strip (get_text result)) as [|c text] eqn:Htext; [easy|].
  intros [= <-]. exists result. now rewrite Htext.
Qed.

Lemma general_line_of_some (i : Z) (result : gmap string pyval) :
  General.too_short cfg (General.segment_audio w audio i) = false ->
  transcribe env i (General.segment_audio w audio i) = Gives result ->
  strip (get_text result) <> [] ->
  General.line_of cfg w env audio i
  = Some (TranscriptLine i (General.window_start w i)
            (General.window_end w (len audio) i) (strip (get_text result))).
Proof.
  intros Hshort Hres Htext. unfold General.line_of. rewrite Hshort, Hres.
  now destruct (strip (get_text result)).
Qed.

Lemma general_transcript_indices (n : Z) (l : transcript_line) :
  In l (General.transcript cfg w env audio n)
  <-> exists i, 0 <= i < n /\ General.line_of cfg w env audio i = Some l.
Proof.
  unfold General.transcript. rewrite <- list_elem_of_In, list_elem_of_omap.
  split; intros (i & Hi & Hl); exists i; split; try exact Hl.
  - now rewrite list_elem_of_In, in_range in Hi.
  - now rewrite list_elem_of_In, in_range.
Qed.

Lemma general_lines_sorted (indices : list Z) :
  StronglySorted Z.lt indices ->
  StronglySorted (fun a b => line_index a < line_index b)
    (omap (General.line_of cfg w env audio) indices).
Proof.
  intros Hs. induction Hs as [|i rest Hs IH Hall]; [constructor|].
  rewrite omap_cons_eq.
  destruct (General.line_of cfg w env audio i) as [l|] eqn:Hl; [|exact IH].
  constructor; [exact IH|].
  apply List.Forall_forall. intros l' Hl'.
  rewrite <- list_elem_of_In, list_elem_of_omap in Hl'.
  destruct Hl' as (j & Hj & Hlj). rewrite list_elem_of_In in Hj.
  rewrite List.Forall_forall in Hall. specialize (Hall j Hj).
  destruct (general_line_of_render i l Hl) as (_ & _ & _ & _ & _ & -> & _).
  destruct (general_line_of_render j l' Hlj) as (_ & _ & _ & _ & _ & -> & _).
  exact Hall.
Qed.

(** The loop, when the recognizer returns on every window it is given:
    one write for each qualifying window, in the order of the windows. *)
Lemma general_for_each_answered (out : string) (indices : list Z)
    (world : Run.world) :
  General.sr cfg <> 0 ->
  (forall i, In i indices ->
     General.too_short cfg (General.segment_audio w audio i) = false ->
     exists result,
       transcribe env i (General.segment_audio w audio i) = Gives result) ->
  for_each indices (General.body cfg w env audio out) world
  = (Returned tt,
     write_all (bufsize env) out
       (List.map (fun l => utf8 (General.render cfg l))
          (omap (General.line_of cfg w env audio) indices)) world).
Proof.
  intros Hsr. revert world.
  induction indices as [|i rest IH]; intros world Hall; [reflexivity|].
  assert (forall j, In j rest ->
            General.too_short cfg (General.segment_audio w audio j) = false ->
            exists result,
              transcribe env j (General.segment_audio w audio j) = Gives result)
    as Hrest by (intros j Hj; apply Hall; now right).
  cbn [for_each]. unfold bind at 1. rewrite general_body_unfold by exact Hsr.
  rewrite omap_cons_eq. unfold General.line_of at 1.
  destruct (General.too_short cfg (General.segment_audio w audio i)) eqn:Hshort;
    [now apply IH|].
  destruct (Hall i ltac:(now left) Hshort) as [result Hres]. rewrite Hres.
  destruct (strip (get_text result)) as [|c text]; [now apply IH|].
  cbn [List.map]. rewrite write_all_cons.
  pose proof (fwrite_returns (bufsize env) out
    (utf8 (format_line
             (float_quot (General.window_start w i) (General.sr cfg))
             (float_quot (General.window_end w (len audio) i) (General.sr cfg))
             (c :: text))) world) as Hret.
  unfold General.render at 1. cbn [line_start line_end line_text].
  destruct (fwrite _ _ _ world) as [r1 w1]. cbn [fst snd] in *. subst r1.
  now apply IH.
Qed.

Lemma general_run_answered (fs : gmap string bytes) :
  load_audio env (General.wav_path cfg) = Some audio ->
  General.segment_samples cfg = Returned w ->
  w <> 0 ->
  (forall i, 0 <= i < General.total_segments w (len audio) ->
     General.too_short cfg (General.segment_audio w audio i) = false ->
     exists result,
       transcribe env i (General.segment_audio w audio i) = Gives result) ->
  General.run cfg env fs
  = (Returned tt,
     <[General.out_path cfg :=
         utf8 (concat (List.map (General.render cfg)
                 (General.transcript cfg w env audio
                    (General.total_segments w (len audio)))))]> fs).
Proof.
  intros Hload Hline Hw Hall.
  pose proof (segment_samples_rate cfg w Hline Hw) as Hsr.
  unfold General.run, General.main, call_load_audio.
  rewrite Hload. unfold bind at 1. unfold ret at 1.
  unfold truediv, ceil_truediv.
  pose proof Hsr as Hsr'. apply Z.eqb_neq in Hsr'. rewrite Hsr'.
  unfold bind at 1. unfold ret at 1.
  unfold bind at 1. unfold General.pure. rewrite Hline.
  apply Z.eqb_neq in Hw. rewrite Hw.
  unfold bind at 1. unfold ret at 1.
  fold (General.total_segments w (len audio)).
  assert (forall d,
    with_open_append (General.out_path cfg)
      (for_each (range (General.total_segments w (len audio)))
         (General.body cfg w env audio (General.out_path cfg)))
      (World (delete (General.out_path cfg) d) [])
    = (Returned tt,
       World (<[General.out_path cfg :=
                  utf8 (concat (List.map (General.render cfg)
                          (General.transcript cfg w env audio
                             (General.total_segments w (len audio)))))]> d) []))
    as Hopen.
  { intros d. unfold with_open_append, open_append, append_to. cbn [disk].
    rewrite lookup_delete_eq. cbn [default from_option id app].
    rewrite insert_delete_eq.
    rewrite general_for_each_answered
      by (try exact Hsr; intros i Hi; apply Hall; now apply in_range).
    rewrite fclose_write_all. unfold contents. cbn [disk pending].
    rewrite lookup_insert_eq, insert_insert_eq. cbn [default from_option id app].
    unfold General.transcript.
    now rewrite utf8_concat, map_map. }
  unfold bind at 1. unfold os_path_exists at 1. cbn [disk].
  destruct (fs !! General.out_path cfg) as [old|] eqn:Hold.
  - rewrite bool_decide_eq_true_2 by eauto.
    unfold bind at 1. unfold os_remove. cbn [disk pending]. rewrite Hold.
    now rewrite Hopen.
  - rewrite bool_decide_eq_false_2 by (intros [? [=]]).
    unfold bind at 1. unfold ret at 1.
    rewrite <- (delete_id fs (General.out_path cfg) Hold) at 1.
    now rewrite Hopen.
Qed.

End GeneralRuns.

Lemma general_exact_time_increasing (cfg : General.settings) (a b : Z) :
  1 <= General.sr cfg -> a < b ->
  (General.exact_time cfg a < General.exact_time cfg b)%Q.
Proof.
  intros Hsr Hab. unfold General.exact_time, Qlt, Qdiv, Qmult, Qinv, inject_Z.
  destruct (General.sr cfg) as [|p|p] eqn:Hp; try lia. cbn. nia.
Qed.

(** C8, as the code has it.  The order of the transcript, for a window length that is any
    number from which line 24 gets at least one sample, and a sample rate of
    at least one.  When the recognizer returns on every window it is given,
    the run completes and the output file holds the lines of the qualifying
    windows (long enough, and with a recognized text that is not empty once
    trimmed), one line each, in the order of the windows: window indices,
    start offsets and start times are strictly increasing from one line to
    the next, the start times also as the floats that the script prints.
    When the window is at least half a second long, 2 * segment_samples >=
    sr, as every whole number of seconds is, the only window that the
    minimum-duration test can leave out is the last one.  When the window is
    shorter than half a second, every window is left out and the file is
    left empty. *)
Theorem transcript_in_window_order {sample : Type} (cfg : General.settings)
    (segment_samples : Z) (env : environment sample) (audio : list sample)
    (fs : gmap string bytes) :
  load_audio env (General.wav_path cfg) = Some audio ->
  General.segment_samples cfg = Returned segment_samples ->
  1 <= segment_samples ->
  1 <= General.sr cfg ->
  let n := General.total_segments segment_samples (len audio) in
  (forall i, 0 <= i < n ->
     General.too_short cfg (General.segment_audio segment_samples audio i) = false ->
     exists result,
       transcribe env i (General.segment_audio segment_samples audio i)
       = Gives result) ->
  let T := General.transcript cfg segment_samples env audio n in
  General.run cfg env fs
  = (Returned tt,
     <[General.out_path cfg := utf8 (concat (List.map (General.render cfg) T))]> fs)
  /\ StronglySorted
       (fun a b =>
          line_index a < line_index b
          /\ line_start a < line_start b
          /\ (General.exact_time cfg (line_start a)
              < General.exact_time cfg (line_start b))%Q) T
  /\ (len audio < 2 ^ 51 -> General.sr cfg < 2 ^ 53 ->
      StronglySorted
        (fun a b =>
           float_lt (float_quot (line_start a) (General.sr cfg))
                    (float_quot (line_start b) (General.sr cfg)) = true) T)
  /\ (forall z, General.segment_sec cfg = General.PyInt z ->
      len audio < 2 ^ 53 ->
      StronglySorted
        (fun a b =>
           float_lt (float_quot (line_start a) (General.sr cfg))
                    (float_quot (line_start b) (General.sr cfg)) = true) T)
  /\ (forall i, 0 <= i < n ->
      (exists l, In l T /\ line_index l = i)
      <-> (General.too_short cfg (General.segment_audio segment_samples audio i)
           = false
           /\ exists result,
                transcribe env i (General.segment_audio segment_samples audio i)
                = Gives result
                /\ strip (get_text result) <> []))
  /\ (forall l, In l T ->
      0 <= line_index l < n
      /\ line_start l = General.window_start segment_samples (line_index l)
      /\ line_end l
         = General.window_end segment_samples (len audio) (line_index l)
      /\ exists result,
           transcribe env (line_index l)
             (General.segment_audio segment_samples audio (line_index l))
           = Gives result
           /\ line_text l = strip (get_text result))
  /\ (General.sr cfg <= 2 * segment_samples ->
      forall i, 0 <= i < n ->
        General.too_short cfg (General.segment_audio segment_samples audio i)
        = true ->
        i = n - 1)
  /\ (forall z, General.segment_sec cfg = General.PyInt z ->
      General.sr cfg <= 2 * segment_samples)
  /\ (2 * segment_samples < General.sr cfg ->
      T = [] /\ General.run cfg env fs
                = (Returned tt, <[General.out_path cfg := []]> fs)).
Proof.
  intros Hload Hline Hw Hsr n Hall T.
  assert (General.run cfg env fs
          = (Returned tt,
             <[General.out_path cfg
               := utf8 (concat (List.map (General.render cfg) T))]> fs)) as Hrun
    by (apply general_run_answered; try assumption; lia).
  assert (forall l, In l T ->
            0 <= line_index l < n
            /\ General.line_of cfg segment_samples env audio (line_index l)
               = Some l) as Hin.
  { intros l Hl. apply general_transcript_indices in Hl.
    destruct Hl as (i & Hi & Hl).
    destruct (general_line_of_render cfg segment_samples env audio i l Hl)
      as (_ & _ & _ & _ & _ & Hidx & _).
    now rewrite Hidx. }
  assert (forall l, In l T ->
            line_start l = line_index l * segment_samples) as Hstart.
  { intros l Hl. destruct (Hin l Hl) as [_ Hline_of].
    destruct (general_line_of_render cfg segment_samples env audio _ l Hline_of)
      as (_ & _ & _ & _ & _ & _ & -> & _).
    reflexivity. }
  assert (StronglySorted (fun a b => line_index a < line_index b) T) as Hsorted
    by apply general_lines_sorted, range_sorted.
  assert (forall l, In l T -> line_start l < len audio) as Hinside.
  { intros l Hl. destruct (Hin l Hl) as [Hidx _]. rewrite (Hstart l Hl).
    pose proof (general_window_bounds segment_samples Hw (len audio)
                  (line_index l) Hidx) as Hb.
    unfold General.window_start in Hb. lia. }
  split; [exact Hrun|].
  split; [|split; [|split; [|split; [|split; [|split; [|split]]]]]].
  - apply StronglySorted_weaken with (2 := Hsorted).
    intros a b Ha Hb Hab.
    assert (line_start a < line_start b)
      by (rewrite (Hstart a Ha), (Hstart b Hb); nia).
    split; [easy|]. split; [easy|]. now apply general_exact_time_increasing.
  - intros Hsmall Hrate. apply StronglySorted_weaken with (2 := Hsorted).
    intros a b Ha Hb Hab.
    pose proof (Hinside b Hb). destruct (Hin a Ha) as [Hia _].
    apply float_quot_increasing; [|lia|lia].
    rewrite (Hstart a Ha), (Hstart b Hb). nia.
  - intros z Hint Hsmall. apply StronglySorted_weaken with (2 := Hsorted).
    intros a b Ha Hb Hab.
    pose proof (Hinside b Hb). destruct (Hin a Ha) as [Hia _].
    rewrite (Hstart a Ha), (Hstart b Hb) in *.
    assert (segment_samples = z * General.sr cfg) as Hprod.
    { unfold General.segment_samples in Hline. rewrite Hint in Hline.
      now injection Hline. }
    assert (1 <= z) by nia.
    pose proof (start_times_increase
                  (Config (General.wav_path cfg) z (General.sr cfg))
                  (line_index a) (line_index b)) as Hfloat.
    unfold window_start, Script.segment_samples in Hfloat.
    cbn [Script.segment_sec Script.sr] in Hfloat.
    rewrite <- Hprod in Hfloat. apply Hfloat; lia.
  - intros i Hi. split.
    + intros (l & Hl & Hidx). destruct (Hin l Hl) as [_ Hline_of].
      rewrite Hidx in Hline_of.
      destruct (general_line_of_render cfg segment_samples env audio i l Hline_of)
        as (result & Hshort & Hres & Htext & Hne & _).
      split; [exact Hshort|]. exists result. split; [exact Hres|]. congruence.
    + intros (Hshort & result & Hres & Htext).
      exists (TranscriptLine i (General.window_start segment_samples i)
                (General.window_end segment_samples (len audio) i)
                (strip (get_text result))).
      split; [|reflexivity].
      apply general_transcript_indices. exists i. split; [exact Hi|].
      now apply general_line_of_some.
  - intros l Hl. destruct (Hin l Hl) as [Hidx Hline_of].
    destruct (general_line_of_render cfg segment_samples env audio _ l Hline_of)
      as (result & _ & Hres & Htext & _ & _ & Hs & He).
    split; [exact Hidx|]. split; [exact Hs|]. split; [exact He|].
    exists result. split; [exact Hres|]. now symmetry.
  - intros Hhalf i Hi Hshort.
    destruct (Z.eq_dec i (n - 1)) as [|Hne]; [easy|]. exfalso.
    unfold General.too_short in Hshort.
    rewrite (general_len_segment_audio segment_samples Hw audio i Hi) in Hshort.
    rewrite (general_window_full segment_samples Hw (len audio) i) in Hshort
      by (subst n; lia).
    unfold General.window_start in Hshort. lia.
  - intros z Hint.
    now apply (whole_seconds_above_threshold cfg z segment_samples).
  - intros Hshorter.
    assert (T = []) as HT.
    { apply omap_all_none. intros i Hi. apply in_range in Hi.
      unfold General.line_of.
      replace (General.too_short cfg (General.segment_audio segment_samples audio i))
        with true; [reflexivity|].
      symmetry. unfold General.too_short.
      rewrite (general_len_segment_audio segment_samples Hw audio i Hi).
      pose proof (general_window_width segment_samples (len audio) i). lia. }
    split; [exact HT|]. rewrite Hrun, HT. reflexivity.
Qed.

(** C8 as stated does not hold: with a window of a quarter of a second and
    a recording of three such windows in each of which "hello" would be
    recognized, no window is the trailing short one, every window is left
    out, and the run completes with an empty file. *)
Lemma short_windows_leave_no_line :
  let cfg := quarter_second_window in
  let env := studio 12000 always_hello in
  let audio := silence 12000 in
  General.segment_samples cfg = Returned 4000
  /\ General.total_segments 4000 (len audio) = 3
  /\ (forall i, 0 <= i < 3 ->
        len (General.segment_audio 4000 audio i) = 4000
        /\ General.too_short cfg (General.segment_audio 4000 audio i) = true
        /\ transcribe env i (General.segment_audio 4000 audio i) = Gives hello)
  /\ strip (get_text hello) = lit "hello"
  /\ General.run cfg env ∅ = (Returned tt, {[ "files.txt"%string := [] ]}).
Proof.
  cbv zeta.
  split; [vm_compute; reflexivity|]. split; [vm_compute; reflexivity|].
  split; [|split; [vm_compute; reflexivity|]].
  - intros i Hi.
    assert (i = 0 \/ i = 1 \/ i = 2) as [->|[->| ->]] by lia;
      (split; [vm_compute; reflexivity|split; [vm_compute; reflexivity|reflexivity]]).
  - rewrite (general_run_answered quarter_second_window 4000
               (studio 12000 always_hello) (silence 12000));
      [|reflexivity|vm_compute; reflexivity|discriminate
       |intros i _ _; exists hello; reflexivity].
    replace (General.transcript quarter_second_window 4000
               (studio 12000 always_hello) (silence 12000)
               (General.total_segments 4000 (len (silence 12000))))
      with (@nil transcript_line) by (vm_compute; reflexivity).
    reflexivity.
Qed.

(** *** The theorems at sample inputs *)


(** C3 on a recording of three windows, the recognizer raising on the
    second. *)
Lemma recognizer_error_keeps_earlier_lines_witness :
  let cfg := script_config in
  let env := studio 1212000 (fails_at 1) in
  let audio := silence 1212000 in
  let fs := with_earlier_transcript in
  let k := 1 in
  (load_audio env (wav_path cfg) = Some audio)
  /\ (1 <= segment_samples cfg)
  /\ (0 <= k < total_segments cfg (len audio))
  /\ (too_short cfg (segment_audio cfg audio k) = false)
  /\ (transcribe env k (segment_audio cfg audio k) = Fails)
  /\ ((forall i, 0 <= i < k ->
       too_short cfg (segment_audio cfg audio i) = false ->
       exists result, transcribe env i (segment_audio cfg audio i) = Gives result))
  /\ run cfg env fs
    = (Raised RecognitionError,
       <[out_path cfg := utf8 (concat (List.map (render cfg) (transcript cfg env audio k)))]> fs)
    /\ (forall l, In l (transcript cfg env audio k) ->
        0 <= line_index l < k /\ line_of cfg env audio (line_index l) = Some l)
    /\ (forall i, 0 <= i < k -> forall l, line_of cfg env audio i = Some l ->
        In l (transcript cfg env audio k)).
Proof.
  intros cfg env audio fs k. subst cfg env audio fs k. cbv zeta.
  split; [reflexivity|].
  split; [vm_compute; discriminate|].
  split; [rewrite len_silence by lia; change (total_segments script_config 1212000) with 3; lia|].
  split; [rewrite too_short_by_bounds;
      [rewrite len_silence by lia; reflexivity|vm_compute; discriminate
      |rewrite len_silence by lia; change (total_segments script_config 1212000) with 3; lia]|].
  split; [reflexivity|].
  split; [intros i Hi _; exists hello; assert (i = 0) as -> by lia; reflexivity|].
  refine (recognizer_error_keeps_earlier_lines script_config (studio 1212000 (fails_at 1)) (silence 1212000) with_earlier_transcript 1 _ _ _ _ _ _);
    [reflexivity
    |vm_compute; discriminate
    |rewrite len_silence by lia; change (total_segments script_config 1212000) with 3; lia
    |rewrite too_short_by_bounds;
      [rewrite len_silence by lia; reflexivity|vm_compute; discriminate
      |rewrite len_silence by lia; change (total_segments script_config 1212000) with 3; lia]
    |reflexivity
    |intros i Hi _; exists hello; assert (i = 0) as -> by lia; reflexivity].
Defined.

(** C5 on the last window, a quarter of a second long, of a recording cut
    into windows of half a second. *)
Lemma short_window_filter_witness :
  let cfg := half_second_window in
  let segment_samples := 8000 in
  let audio := silence 20000 in
  let out := "files.txt"%string in
  let i := 2 in
  (General.too_short cfg (General.segment_audio segment_samples audio i) = true)
  /\ (len (General.segment_audio segment_samples audio i) = 4000)
  /\ (General.segment_samples cfg = Returned segment_samples)
  /\ (1 <= segment_samples)
  /\ (0 <= i < General.total_segments segment_samples (len audio))
  /\ (let n := General.total_segments segment_samples (len audio) in
    let start := General.window_start segment_samples i in
    let end_ := General.window_end segment_samples (len audio) i in
    let seg := slice audio start end_ in
    let width := end_ - start in
    len seg = width
    /\ (General.too_short cfg seg = true
        <-> (inject_Z width < (1 # 2) * inject_Z (General.sr cfg))%Q)
    /\ ((forall (env : environment Z) (w : world),
            General.body cfg segment_samples env audio out i w = (Returned tt, w))
        <-> (inject_Z width < (1 # 2) * inject_Z (General.sr cfg))%Q)
    /\ (forall (env : environment Z) (w : world),
          General.too_short cfg seg = false ->
          transcribe env i seg = Fails ->
          General.body cfg segment_samples env audio out i w
          = (Raised RecognitionError, w))
    /\ (General.sr cfg <= 2 * segment_samples ->
        (i < n - 1 -> width = segment_samples /\ General.too_short cfg seg = false)
        /\ (General.too_short cfg seg = true -> i = n - 1))
    /\ (forall z, General.segment_sec cfg = General.PyInt z ->
        General.sr cfg <= 2 * segment_samples)
    /\ (2 * segment_samples < General.sr cfg ->
        General.too_short cfg seg = true
        /\ forall (env : environment Z) (w : world),
             General.body cfg segment_samples env audio out i w = (Returned tt, w))
    /\ (General.segment_samples (General.of_config script_config) = Returned 480000
        /\ General.segment_samples half_second_window = Returned 8000
        /\ General.segment_samples quarter_second_window = Returned 4000
        /\ General.segment_samples
             (General.Settings "files.wav" (General.PyFloat seven_tenths) 10)
           = Returned 7
        /\ General.segment_samples
             (General.Settings "files.wav"
                (General.PyFloat two_and_three_quarters) 3)
           = Returned 8
        /\ General.segment_samples
             (General.Settings "files.wav"
                (General.PyFloat minus_two_and_three_quarters) 3)
           = Returned (-8)
        /\ General.segment_samples
             (General.Settings "files.wav"
                (General.PyFloat (S754_infinity false)) 16000)
           = Raised OverflowError
        /\ General.segment_samples
             (General.Settings "files.wav" (General.PyFloat S754_nan) 16000)
           = Raised ValueError)).
Proof.
  intros cfg segment_samples audio out i. subst cfg segment_samples audio out i. cbv zeta.
  split; [vm_compute; reflexivity|].
  split; [vm_compute; reflexivity|].
  split; [vm_compute; reflexivity|].
  split; [lia|].
  split; [rewrite len_silence by lia; change (General.total_segments 8000 20000) with 3; lia|].
  refine (short_window_filter half_second_window 8000 (silence 20000) "files.txt"%string 2 _ _ _);
    [vm_compute; reflexivity
    |lia
    |rewrite len_silence by lia; change (General.total_segments 8000 20000) with 3; lia].
Defined.

(** C7 on the only window of a recording of 30 seconds. *)
Lemma recognized_text_line_witness :
  let cfg := script_config in
  let env := studio 480000 always_hello in
  let audio := silence 480000 in
  let out := "files.txt"%string in
  let i := 0 in
  let result := hello in
  let w := World ∅ [] in
  (sr cfg <> 0)
  /\ (too_short cfg (segment_audio cfg audio i) = false)
  /\ (transcribe env i (segment_audio cfg audio i) = Gives result)
  /\ (let text := strip (get_text result) in
    let line :=
      format_line (float_quot (window_start cfg i) (sr cfg))
        (float_quot (window_end cfg (len audio) i) (sr cfg)) text in
    ((result !! "text"%string = None \/ result !! "text"%string = Some PyNone) ->
       get_text result = [])
    /\ (forall s, result !! "text"%string = Some (PyStr s) -> get_text result = s)
    /\ (exists l r,
          get_text result = l ++ text ++ r
          /\ forallb isspace l = true /\ forallb isspace r = true)
    /\ (text = []
        \/ (exists c t, text = c :: t /\ isspace c = false)
           /\ (exists t c, text = t ++ [c] /\ isspace c = false))
    /\ (forallb isspace (get_text result) = true <-> text = [])
    /\ (text = [] -> body cfg env audio out i w = (Returned tt, w))
    /\ (text <> [] ->
        body cfg env audio out i w = fwrite (bufsize env) out (utf8 line) w
        /\ fst (body cfg env audio out i w) = Returned tt
        /\ contents out (snd (body cfg env audio out i w))
           = contents out w ++ utf8 line
        /\ (forall p, p <> out ->
              disk (snd (body cfg env audio out i w)) !! p = disk w !! p)
        /\ (~ In newline text -> count_occ N.eq_dec line newline = 1%nat))).
Proof.
  intros cfg env audio out i result w. subst cfg env audio out i result w. cbv zeta.
  split; [vm_compute; discriminate|].
  split; [rewrite too_short_by_bounds;
      [rewrite len_silence by lia; reflexivity|vm_compute; discriminate
      |rewrite len_silence by lia; change (total_segments script_config 480000) with 1; lia]|].
  split; [reflexivity|].
  refine (recognized_text_line script_config (studio 480000 always_hello) (silence 480000) "files.txt"%string 0 hello (World ∅ []) _ _ _);
    [vm_compute; discriminate
    |rewrite too_short_by_bounds;
      [rewrite len_silence by lia; reflexivity|vm_compute; discriminate
      |rewrite len_silence by lia; change (total_segments script_config 480000) with 1; lia]
    |reflexivity].
Defined.

(** C8 on a recording of two windows of half a second and a last one of a
    quarter, with "hello" recognized in each. *)
Lemma transcript_in_window_order_witness :
  let cfg := half_second_window in
  let segment_samples := 8000 in
  let env := studio 20000 always_hello in
  let audio := silence 20000 in
  let fs := with_earlier_transcript in
  (General.total_segments segment_samples (len audio) = 3)
  /\ (General.too_short cfg (General.segment_audio segment_samples audio 2) = true)
  /\ (List.map line_index (General.transcript cfg segment_samples env audio 3) = [0; 1])
  /\ (load_audio env (General.wav_path cfg) = Some audio)
  /\ (General.segment_samples cfg = Returned segment_samples)
  /\ (1 <= segment_samples)
  /\ (1 <= General.sr cfg)
  /\ (let n := General.total_segments segment_samples (len audio) in
  ((forall i, 0 <= i < n ->
       General.too_short cfg (General.segment_audio segment_samples audio i) = false ->
       exists result,
         transcribe env i (General.segment_audio segment_samples audio i)
         = Gives result))
  /\ (let T := General.transcript cfg segment_samples env audio n in
    General.run cfg env fs
    = (Returned tt,
       <[General.out_path cfg := utf8 (concat (List.map (General.render cfg) T))]> fs)
    /\ StronglySorted
         (fun a b =>
            line_index a < line_index b
            /\ line_start a < line_start b
            /\ (General.exact_time cfg (line_start a)
                < General.exact_time cfg (line_start b))%Q) T
    /\ (len audio < 2 ^ 51 -> General.sr cfg < 2 ^ 53 ->
        StronglySorted
          (fun a b =>
             float_lt (float_quot (line_start a) (General.sr cfg))
                      (float_quot (line_start b) (General.sr cfg)) = true) T)
    /\ (forall z, General.segment_sec cfg = General.PyInt z ->
        len audio < 2 ^ 53 ->
        StronglySorted
          (fun a b =>
             float_lt (float_quot (line_start a) (General.sr cfg))
                      (float_quot (line_start b) (General.sr cfg)) = true) T)
    /\ (forall i, 0 <= i < n ->
        (exists l, In l T /\ line_index l = i)
        <-> (General.too_short cfg (General.segment_audio segment_samples audio i)
             = false
             /\ exists result,
                  transcribe env i (General.segment_audio segment_samples audio i)
                  = Gives result
                  /\ strip (get_text result) <> []))
    /\ (forall l, In l T ->
        0 <= line_index l < n
        /\ line_start l = General.window_start segment_samples (line_index l)
        /\ line_end l
           = General.window_end segment_samples (len audio) (line_index l)
        /\ exists result,
             transcribe env (line_index l)
               (General.segment_audio segment_samples audio (line_index l))
             = Gives result
             /\ line_text l = strip (get_text result))
    /\ (General.sr cfg <= 2 * segment_samples ->
        forall i, 0 <= i < n ->
          General.too_short cfg (General.segment_audio segment_samples audio i)
          = true ->
          i = n - 1)
    /\ (forall z, General.segment_sec cfg = General.PyInt z ->
        General.sr cfg <= 2 * segment_samples)
    /\ (2 * segment_samples < General.sr cfg ->
        T = [] /\ General.run cfg env fs
                  = (Returned tt, <[General.out_path cfg := []]> fs)))).
Proof.
  intros cfg segment_samples env audio fs. subst cfg segment_samples env audio fs. cbv zeta.
  split; [vm_compute; reflexivity|].
  split; [vm_compute; reflexivity|].
  split; [vm_compute; reflexivity|].
  split; [reflexivity|].
  split; [vm_compute; reflexivity|].
  split; [lia|].
  split; [vm_compute; discriminate|].
  split; [intros i _ _; exists hello; reflexivity|].
  refine (transcript_in_window_order half_second_window 8000 (studio 20000 always_hello) (silence 20000) with_earlier_transcript _ _ _ _ _);
    [reflexivity
    |vm_compute; reflexivity
    |lia
    |vm_compute; discriminate
    |intros i _ _; exists hello; reflexivity].
Defined.

(** C9 on a recording of three windows in which nothing is recognized. *)
Lemma output_file_recreated_witness :
  let cfg := script_config in
  let env := studio 1212000 (fun _ => Gives nothing) in
  let audio := silence 1212000 in
  let fs := with_earlier_transcript in
  (load_audio env (wav_path cfg) = Some audio)
  /\ (1 <= segment_samples cfg)
  /\ (wav_path cfg
     = (fst (splitext (wav_path cfg)) ++ snd (splitext (wav_path cfg)))%string
     /\ out_path cfg = (fst (splitext (wav_path cfg)) ++ ".txt")%string
     /\ (snd (splitext (wav_path cfg)) = EmptyString
         \/ exists rest,
              snd (splitext (wav_path cfg)) = String "."%char rest
              /\ ~ In "."%char (list_ascii_of_string rest)
              /\ ~ In "/"%char (list_ascii_of_string rest))
     /\ (forall dir name ext : string,
           wav_path cfg = (dir ++ name ++ "." ++ ext)%string ->
           (dir = EmptyString \/ exists d, dir = (d ++ "/")%string) ->
           ~ In "/"%char (list_ascii_of_string name) ->
           (exists c, In c (list_ascii_of_string name) /\ c <> "."%char) ->
           ~ In "."%char (list_ascii_of_string ext) ->
           ~ In "/"%char (list_ascii_of_string ext) ->
           splitext (wav_path cfg) = ((dir ++ name)%string, ("." ++ ext)%string)
           /\ out_path cfg = (dir ++ name ++ ".txt")%string)
     /\ (forall dir dots name : string,
           wav_path cfg = (dir ++ dots ++ name)%string ->
           (dir = EmptyString \/ exists d, dir = (d ++ "/")%string) ->
           (forall c, In c (list_ascii_of_string dots) -> c = "."%char) ->
           ~ In "."%char (list_ascii_of_string name) ->
           ~ In "/"%char (list_ascii_of_string name) ->
           splitext (wav_path cfg) = (wav_path cfg, EmptyString)
           /\ out_path cfg = (wav_path cfg ++ ".txt")%string)
     /\ ((exists dir name ext : string,
            wav_path cfg = (dir ++ name ++ "." ++ ext)%string
            /\ (dir = EmptyString \/ exists d, dir = (d ++ "/")%string)
            /\ ~ In "/"%char (list_ascii_of_string name)
            /\ (exists c, In c (list_ascii_of_string name) /\ c <> "."%char)
            /\ ~ In "."%char (list_ascii_of_string ext)
            /\ ~ In "/"%char (list_ascii_of_string ext))
         \/ (exists dir dots name : string,
               wav_path cfg = (dir ++ dots ++ name)%string
               /\ (dir = EmptyString \/ exists d, dir = (d ++ "/")%string)
               /\ (forall c, In c (list_ascii_of_string dots) -> c = "."%char)
               /\ ~ In "."%char (list_ascii_of_string name)
               /\ ~ In "/"%char (list_ascii_of_string name)))
     /\ out_path script_config = "files.txt"%string)
    /\ (forall old,
        run cfg env (<[out_path cfg := old]> fs)
        = run cfg env (delete (out_path cfg) fs))
    /\ (exists written,
        snd (run cfg env fs) !! out_path cfg = Some written
        /\ snd (run cfg env fs) = <[out_path cfg := written]> fs)
    /\ (len audio = 0 ->
        run cfg env fs = (Returned tt, <[out_path cfg := []]> fs))
    /\ ((forall i, 0 <= i < total_segments cfg (len audio) ->
           too_short cfg (segment_audio cfg audio i) = false ->
           exists result,
             transcribe env i (segment_audio cfg audio i) = Gives result
             /\ strip (get_text result) = []) ->
        run cfg env fs = (Returned tt, <[out_path cfg := []]> fs)).
Proof.
  intros cfg env audio fs. subst cfg env audio fs. cbv zeta.
  split; [reflexivity|].
  split; [vm_compute; discriminate|].
  refine (output_file_recreated script_config (studio 1212000 (fun _ => Gives nothing)) (silence 1212000) with_earlier_transcript _ _);
    [reflexivity
    |vm_compute; discriminate].
Defined.

(** C10 when no recording can be read and an earlier transcript exists. *)
Lemma loader_error_leaves_files_witness :
  let cfg := script_config in
  let env := no_recording in
  let fs := with_earlier_transcript in
  (load_audio env (wav_path cfg) = None)
  /\ run cfg env fs = (Raised AudioLoadError, fs)
    /\ snd (run cfg env fs) !! out_path cfg = fs !! out_path cfg.
Proof.
  intros cfg env fs. subst cfg env fs. cbv zeta.
  split; [reflexivity|].
  refine (loader_error_leaves_files script_config no_recording with_earlier_transcript _);
    [reflexivity].
Defined.


(** ** Further properties of the script *)

(** *** The float computations of the script *)

(** X1.  The number of windows is computed on floats, [math.ceil] of the
    rounded quotient, and yet is exact: for a recording of fewer than 2^52
    samples it is the least n with n * segment_samples >= total_samples. *)
Theorem float_window_count (cfg : config) (total_samples : Z) :
  0 <= total_samples < 2 ^ 52 ->
  1 <= segment_samples cfg < 2 ^ 53 ->
  let n := float_ceil (float_quot total_samples (segment_samples cfg)) in
  n = total_segments cfg total_samples
  /\ (n - 1) * segment_samples cfg < total_samples <= n * segment_samples cfg
  /\ (forall m, total_samples <= m * segment_samples cfg -> n <= m).
Proof.
  intros HN Hw n. subst n. rewrite float_ceil_quot by assumption.
  pose proof (ceil_quot_bounds total_samples (segment_samples cfg) ltac:(lia)) as Hb.
  split; [reflexivity|]. split; [exact Hb|]. intros m Hm.
  fold (total_segments cfg total_samples) in *. nia.
Qed.

(** X2.  The minimum-duration test compares an int with the float
    [sr * 0.5]; for lengths and sample rates below 2^53 it holds exactly
    when twice the length is below the sample rate, odd sample rates
    included. *)
Theorem float_threshold_test {sample : Type} (cfg : config)
    (segment_audio : list sample) :
  len segment_audio < 2 ^ 53 ->
  1 <= sr cfg < 2 ^ 53 ->
  float_lt (float_of_int (len segment_audio))
    (float_mul (float_of_int (sr cfg)) float_half) = true
  <-> 2 * len segment_audio < sr cfg.
Proof.
  intros Hlen Hsr. pose proof (len_nonneg segment_audio).
  rewrite float_lt_half by lia. apply Z.ltb_lt.
Qed.

(** X3.  With a negative window the float quotient is negative or zero, so
    its ceiling is not positive and the loop has no iteration. *)
Theorem float_window_count_negative (cfg : config) (total_samples : Z) :
  0 <= total_samples < 2 ^ 53 -> - 2 ^ 53 < segment_samples cfg < 0 ->
  float_ceil (float_quot total_samples (segment_samples cfg)) <= 0
  /\ range (float_ceil (float_quot total_samples (segment_samples cfg))) = []
  /\ range (total_segments cfg total_samples) = [].
Proof.
  intros [HN _] [_ Hw].
  pose proof (float_ceil_quot_neg_divisor total_samples _ HN Hw) as Hc.
  split; [exact Hc|]. split; apply range_nonpos; [exact Hc|].
  now apply ceil_quot_neg_divisor.
Qed.

(** *** Whole seconds *)

Lemma tenths_of_int (p m : positive) (e : Z) :
  e <= 0 -> Zpos m = Zpos p * 2 ^ (- e) -> tenths m e = 10 * Zpos p.
Proof.
  intros He Hm. unfold tenths. destruct e as [|q|q]; [cbn in Hm; lia|lia|].
  change (- Zneg q) with (Zpos q) in Hm. cbv zeta.
  assert (0 < 2 ^ Zpos q) as Hpos by (apply Z.pow_pos_nonneg; lia).
  replace (10 * Zpos m) with (10 * Zpos p * 2 ^ Zpos q) by lia.
  rewrite Z.mod_mul, Z.div_mul by lia.
  destruct (Z.ltb_spec (2 * 0) (2 ^ Zpos q)); [reflexivity|lia].
Qed.

Lemma fixed1_of_int (k : Z) :
  0 <= k < 2 ^ 53 -> fixed1 (float_of_int k) = digits k ++ lit ".0".
Proof.
  intros Hk. destruct k as [|p|p]; try lia; [reflexivity|].
  destruct (float_of_int_pos p ltac:(lia)) as (m & Hf & _ & Hm).
  pose proof (digits2_bounds p) as Hd.
  assert (Zpos (digits2_pos p) <= 53) as Hd53.
  { destruct (Z_le_gt_dec (Zpos (digits2_pos p)) 53); [easy|].
    assert (2 ^ 53 <= 2 ^ (Zpos (digits2_pos p) - 1))
      by (apply Z.pow_le_mono_r; lia). lia. }
  rewrite Hf. unfold fixed1.
  rewrite (tenths_of_int p)
    by (try lia; rewrite Hm; f_equal; f_equal; lia).
  cbv zeta. replace (10 * Zpos p / 10) with (Zpos p)
    by (rewrite Z.mul_comm, Z.div_mul; lia).
  replace (10 * Zpos p mod 10) with 0
    by (rewrite Z.mul_comm, Z.mod_mul; lia).
  reflexivity.
Qed.

Lemma digits_short : forallb (fun k => len (digits k) <=? 4) (range 10000) = true.
Proof. vm_compute. reflexivity. Qed.

Lemma len_digits_below_10000 (k : Z) : 0 <= k < 10000 -> len (digits k) <= 4.
Proof.
  intros Hk. pose proof digits_short as H.
  rewrite forallb_forall in H. apply Z.leb_le, H, in_range, Hk.
Qed.

(** X4.  The time stamps of full windows are whole seconds.  For a recording
    of fewer than 2^53 samples, the start time [start / sr] of window i is
    the float i * segment_sec exactly and is printed as that integer followed
    by [.0]; so is the end time of every window but the last, with i + 1 for
    i; the end time of the last window is the duration of the recording,
    [total_samples / sr].  Up to 9999 seconds such a field takes exactly the
    six characters of its width. *)
Theorem whole_second_timestamps {sample : Type} (cfg : config)
    (audio : list sample) (i : Z) :
  1 <= segment_sec cfg -> 1 <= sr cfg < 2 ^ 53 -> len audio < 2 ^ 53 ->
  0 <= i < total_segments cfg (len audio) ->
  let n := total_segments cfg (len audio) in
  let seconds := fun k => rjust 6 (digits (k * segment_sec cfg) ++ lit ".0") in
  float_quot (window_start cfg i) (sr cfg) = float_of_int (i * segment_sec cfg)
  /\ format_6_1f (float_quot (window_start cfg i) (sr cfg)) = seconds i
  /\ (i < n - 1 ->
      format_6_1f (float_quot (window_end cfg (len audio) i) (sr cfg))
      = seconds (i + 1))
  /\ (i = n - 1 ->
      float_quot (window_end cfg (len audio) i) (sr cfg)
      = float_quot (len audio) (sr cfg))
  /\ (forall k, 0 <= k -> k * segment_sec cfg < 10000 -> len (seconds k) = 6).
Proof.
  intros Hsec Hsr HN Hi n seconds. subst n seconds. cbv beta.
  assert (1 <= segment_samples cfg) as Hw by (unfold segment_samples; nia).
  assert (forall j, 0 <= j -> window_start cfg j <= len audio ->
            float_quot (window_start cfg j) (sr cfg)
            = float_of_int (j * segment_sec cfg)
            /\ format_6_1f (float_quot (window_start cfg j) (sr cfg))
               = rjust 6 (digits (j * segment_sec cfg) ++ lit ".0")) as Hwhole.
  { intros j Hj Hstart.
    assert (float_quot (window_start cfg j) (sr cfg)
            = float_of_int (j * segment_sec cfg)) as Hq
      by (apply float_quot_window_start; lia).
    split; [exact Hq|]. unfold format_6_1f. rewrite Hq, fixed1_of_int; [reflexivity|].
    unfold window_start, segment_samples in Hstart. nia. }
  pose proof (window_bounds cfg Hw (len audio) i Hi) as Hb.
  destruct (Hwhole i ltac:(lia) ltac:(lia)) as [Hq Hf].
  split; [exact Hq|]. split; [exact Hf|]. split; [|split].
  - intros Hnot_last.
    rewrite (window_full cfg Hw (len audio) i) by lia.
    pose proof (window_bounds cfg Hw (len audio) (i + 1) ltac:(lia)) as Hb'.
    change ((i + 1) * segment_samples cfg) with (window_start cfg (i + 1)).
    apply Hwhole; lia.
  - intros ->. now rewrite (window_last cfg Hw) by lia.
  - intros k Hk Hshort. rewrite len_rjust, len_app.
    pose proof (len_digits_below_10000 (k * segment_sec cfg) ltac:(nia)).
    change (len (lit ".0")) with 2. lia.
Qed.

(** *** The windows as data *)

Lemma range_snoc (k : Z) : 0 <= k -> range (k + 1) = range k ++ [k].
Proof.
  intros H. rewrite (range_split (k + 1) k) by lia.
  now rewrite (range_nonpos (k + 1 - k - 1)) by lia.
Qed.

Lemma slice_take_drop {A : Type} (l : list A) (a b : Z) :
  0 <= a <= b -> b <= len l ->
  slice l a b = take (Z.to_nat (b - a)) (drop (Z.to_nat a) l).
Proof.
  intros Hab Hb. unfold slice. now rewrite !slice_index_inside by lia.
Qed.

Lemma windows_concat_upto {sample : Type} (cfg : config) (audio : list sample)
    (k : nat) :
  1 <= segment_samples cfg ->
  Z.of_nat k <= total_segments cfg (len audio) ->
  concat (List.map (segment_audio cfg audio) (range (Z.of_nat k)))
  = take (Z.to_nat (Z.min (Z.of_nat k * segment_samples cfg) (len audio))) audio.
Proof.
  intros Hw. induction k as [|k IH]; intros Hk.
  - change (range (Z.of_nat 0)) with (@nil Z). cbn [List.map concat].
    replace (Z.to_nat (Z.min (Z.of_nat 0 * segment_samples cfg) (len audio)))
      with 0%nat by (pose proof (len_nonneg audio); lia).
    reflexivity.
  - replace (Z.of_nat (S k)) with (Z.of_nat k + 1) by lia.
    rewrite range_snoc by lia. rewrite map_app, concat_app, IH by lia.
    cbn [List.map concat]. rewrite app_nil_r.
    pose proof (window_bounds cfg Hw (len audio) (Z.of_nat k) ltac:(lia)) as Hb.
    unfold segment_audio. rewrite slice_take_drop by lia.
    unfold window_start, window_end in *.
    rewrite (Z.min_l (Z.of_nat k * segment_samples cfg) (len audio)) by lia.
    rewrite take_take_drop. f_equal. lia.
Qed.

(** X5.  Cutting loses and repeats nothing: the slices taken for the windows
    0 .. total_segments - 1, put end to end, are the buffer. *)
Theorem windows_concat_to_buffer {sample : Type} (cfg : config)
    (audio : list sample) :
  1 <= segment_samples cfg ->
  concat (List.map (segment_audio cfg audio)
            (range (total_segments cfg (len audio))))
  = audio.
Proof.
  intros Hw.
  pose proof (total_segments_bounds cfg Hw (len audio)) as Hn.
  pose proof (len_nonneg audio) as HN.
  assert (0 <= total_segments cfg (len audio)) as Hn0 by nia.
  rewrite <- (Z2Nat.id (total_segments cfg (len audio))) at 1 by exact Hn0.
  rewrite windows_concat_upto by (rewrite ?Z2Nat.id; lia).
  rewrite Z2Nat.id by exact Hn0.
  apply take_ge. unfold len in *. lia.
Qed.

(** *** Files that a run leaves alone *)

Lemma run_load_error {sample : Type} (cfg : config) (env : environment sample)
    (fs : gmap string bytes) :
  load_audio env (wav_path cfg) = None -> run cfg env fs = (Raised AudioLoadError, fs).
Proof. intros Hload. unfold run, main, call_load_audio. now rewrite Hload. Qed.

(** The file system after a run, whatever the settings and however the run
    ends: the one before it, with at most the output file removed or
    replaced. *)
Lemma run_disk {sample : Type} (cfg : config) (env : environment sample)
    (fs : gmap string bytes) :
  snd (run cfg env fs) = fs
  \/ exists written, snd (run cfg env fs) = <[out_path cfg := written]> fs.
Proof.
  destruct (load_audio env (wav_path cfg)) as [audio|] eqn:Hload.
  2:{ left. now rewrite run_load_error. }
  destruct (Z.eq_dec (segment_samples cfg) 0) as [Hzero|Hseg].
  { left. now rewrite (run_zero_window cfg env audio fs Hload Hzero). }
  assert (sr cfg <> 0) as Hsr by (unfold segment_samples in Hseg; nia).
  right. rewrite (run_unfold cfg env audio fs Hload Hsr Hseg). cbn zeta.
  destruct (snd (loop_trace cfg env audio _)); cbn [snd]; eauto.
  destruct (write_all_disk (bufsize env) (out_path cfg)
              (List.map (fun l => utf8 (render cfg l))
                 (fst (loop_trace cfg env audio
                         (range (total_segments cfg (len audio))))))
              (World (<[out_path cfg := []]> fs) [])) as [x Hx].
  { cbn [disk]. rewrite lookup_insert_eq. eauto. }
  exists x. rewrite Hx. cbn [disk]. apply insert_insert_eq.
Qed.

(** X6.  A run touches no file but the output file: whatever the settings,
    the recording and the recognizer, and however the run ends (it returns,
    it raises, or the process is killed), every other path holds afterwards
    what it held before. *)
Theorem run_changes_only_output {sample : Type} (cfg : config)
    (env : environment sample) (fs : gmap string bytes) (p : string) :
  p <> out_path cfg -> snd (run cfg env fs) !! p = fs !! p.
Proof.
  intros Hp. destruct (run_disk cfg env fs) as [->|[written ->]]; [reflexivity|].
  now apply lookup_insert_ne.
Qed.



(** *** The name of the output file *)

(** X8.  Which part of the input name is replaced.  For a path made of a
    directory part that is empty or ends in a slash, a name without slash
    that has a character other than a dot, a dot, and an extension without
    dot or slash, [splitext] cuts at that last dot, and the output path is
    the directory and the name followed by [.txt]: a dot in a directory name
    is not taken for the start of an extension, and only the last of several
    extensions is replaced. *)
Theorem output_path_of_name (cfg : config) (dir name ext : string) :
  wav_path cfg = (dir ++ name ++ "." ++ ext)%string ->
  (dir = EmptyString \/ exists d, dir = (d ++ "/")%string) ->
  ~ In "/"%char (list_ascii_of_string name) ->
  (exists c, In c (list_ascii_of_string name) /\ c <> "."%char) ->
  ~ In "."%char (list_ascii_of_string ext) ->
  ~ In "/"%char (list_ascii_of_string ext) ->
  splitext (wav_path cfg) = ((dir ++ name)%string, ("." ++ ext)%string)
  /\ out_path cfg = (dir ++ name ++ ".txt")%string.
Proof.
  intros Hpath Hdir Hname Hchar Hdot Hslash.
  assert (splitext (wav_path cfg) = ((dir ++ name)%string, ("." ++ ext)%string))
    as Hcut.
  { rewrite Hpath.
    rewrite <- (string_of_list_ascii_of_string (dir ++ name ++ "." ++ ext)).
    rewrite !list_ascii_of_string_app.
    change (list_ascii_of_string "." ++ list_ascii_of_string ext)
      with ("."%char :: list_ascii_of_string ext).
    rewrite splitext_cut; try assumption.
    - rewrite string_of_list_ascii_app, !string_of_list_ascii_of_string.
      change (string_of_list_ascii ("."%char :: list_ascii_of_string ext))
        with (String "."%char (string_of_list_ascii (list_ascii_of_string ext))).
      now rewrite string_of_list_ascii_of_string.
    - destruct Hdir as [->|[d ->]]; [now left|right].
      exists (list_ascii_of_string d). now rewrite list_ascii_of_string_app. }
  split; [exact Hcut|]. unfold out_path. rewrite Hcut. cbn [fst].
  apply string_app_assoc.
Qed.

(** X9.  A name that has no dot after its leading dots has no extension:
    [.txt] is added to the whole input path, also when a directory of the
    path has a dot in its name. *)
Theorem output_path_without_extension (cfg : config) (dir dots name : string) :
  wav_path cfg = (dir ++ dots ++ name)%string ->
  (dir = EmptyString \/ exists d, dir = (d ++ "/")%string) ->
  (forall c, In c (list_ascii_of_string dots) -> c = "."%char) ->
  ~ In "."%char (list_ascii_of_string name) ->
  ~ In "/"%char (list_ascii_of_string name) ->
  splitext (wav_path cfg) = (wav_path cfg, EmptyString)
  /\ out_path cfg = (wav_path cfg ++ ".txt")%string.
Proof.
  intros Hpath Hdir Hdots Hdot Hslash.
  assert (splitext (wav_path cfg) = (wav_path cfg, EmptyString)) as Hcut.
  2:{ split; [exact Hcut|]. unfold out_path. now rewrite Hcut. }
  rewrite Hpath. unfold splitext. rewrite !list_ascii_of_string_app.
  set (D := list_ascii_of_string dir) in *.
  set (P := list_ascii_of_string dots) in *.
  set (Nm := list_ascii_of_string name) in *.
  assert (D = [] \/ exists d, D = d ++ ["/"%char]) as HD.
  { subst D. destruct Hdir as [->|[d ->]]; [now left|right].
    exists (list_ascii_of_string d). now rewrite list_ascii_of_string_app. }
  pose proof (len_nonneg D).
  assert (rfind "/"%char (D ++ P ++ Nm) = len D - 1) as ->.
  { apply rfind_slash; [exact HD|]. intros Hin. apply in_app_or in Hin.
    destruct Hin as [Hin|Hin]; [|now apply Hslash].
    now specialize (Hdots _ Hin). }
  match goal with |- (if ?b then _ else _) = _ => assert (b = false) as -> end;
    [|reflexivity].
  destruct (list_eq_nil_dec P) as [HP|HP]. 
  - rewrite HP. cbn [app]. apply andb_false_intro1, Z.ltb_ge.
    unfold rfind. rewrite rfind_from_app, (rfind_from_absent _ Nm) by exact Hdot.
    pose proof (rfind_from_bound "."%char D 0 (-1) ltac:(lia)). lia.
  - destruct (exists_last HP) as (ds & x & HPeq).
    assert (x = "."%char) as -> by (apply Hdots; rewrite HPeq; apply in_or_app; right; now left).
    rewrite HPeq, <- !app_assoc. cbn [app].
    assert (rfind "."%char (D ++ ds ++ "."%char :: Nm) = len D + len ds) as ->.
    { unfold rfind. rewrite !rfind_from_app. cbn [rfind_from].
      rewrite Ascii.eqb_refl. rewrite rfind_from_absent by exact Hdot. lia. }
    apply andb_false_intro2.
    replace (len D - 1 + 1) with (len D) by lia. rewrite slice_middle.
    destruct (existsb _ ds) eqn:Hex; [|reflexivity].
    apply existsb_exists in Hex. destruct Hex as (c & Hc & Hne).
    rewrite (Hdots c) in Hne by (rewrite HPeq; apply in_or_app; now left).
    discriminate.
Qed.

(** *** What a kill can cost *)

(** X10.  A run killed while the recognizer works on window k leaves in
    the output file a prefix of the lines written for the windows before k:
    lines are lost from the end only, never reordered or cut in the middle
    of what is kept, and nothing of an earlier transcript remains.  When all
    those lines together are shorter than the buffer, every one of them is
    lost. *)
Theorem killed_run_keeps_prefix {sample : Type} (cfg : config)
    (env : environment sample) (audio : list sample)
    (fs : gmap string bytes) (k : Z) :
  load_audio env (wav_path cfg) = Some audio ->
  1 <= segment_samples cfg ->
  0 <= k < total_segments cfg (len audio) ->
  too_short cfg (segment_audio cfg audio k) = false ->
  transcribe env k (segment_audio cfg audio k) = Dies ->
  (forall i, 0 <= i < k ->
     too_short cfg (segment_audio cfg audio i) = false ->
     exists result, transcribe env i (segment_audio cfg audio i) = Gives result) ->
  exists on_disk lost,
    run cfg env fs = (Killed, <[out_path cfg := on_disk]> fs)
    /\ render_all cfg (transcript cfg env audio k) = on_disk ++ lost
    /\ (len (render_all cfg (transcript cfg env audio k)) < bufsize env ->
        on_disk = []).
Proof.
  intros Hload Hw Hk Hshort Hdies Hbefore.
  rewrite (run_unfold cfg env audio fs Hload) by (unfold segment_samples in *; nia).
  rewrite (range_split _ k Hk). cbn zeta.
  destruct (loop_trace_stops cfg env audio (range k)
              (List.map (fun j => k + 1 + j)
                 (range (total_segments cfg (len audio) - k - 1))) k
              (all_answered_range cfg env audio k Hbefore) Hshort)
    as [Htrace|[result Hres]]; [|congruence].
  rewrite Htrace, Hdies. cbn [fst snd].
  fold (transcript cfg env audio k).
  set (cs := List.map (fun l => utf8 (render cfg l)) (transcript cfg env audio k)).
  set (w0 := World (<[out_path cfg := []]> fs) []).
  destruct (write_all_disk (bufsize env) (out_path cfg) cs w0) as [x Hx].
  { subst w0. cbn [disk]. rewrite lookup_insert_eq. eauto. }
  pose proof (write_all_contents (bufsize env) (out_path cfg) cs w0) as Hall.
  unfold contents in Hall. rewrite Hx in Hall. subst w0. cbn [disk pending] in *.
  rewrite !lookup_insert_eq in Hall. cbn [default from_option id app] in Hall.
  subst cs. rewrite render_all_chunks in *.
  exists x, (pending (write_all (bufsize env) (out_path cfg)
                        (List.map (fun l => utf8 (render cfg l))
                           (transcript cfg env audio k))
                        (World (<[out_path cfg := []]> fs) []))).
  split; [now rewrite Hx, insert_insert_eq|]. split; [now rewrite Hall|].
  intros Hfits.
  rewrite write_all_buffered in Hx
    by (cbn [pending app]; now rewrite render_all_chunks).
  cbn [disk] in Hx.
  assert (<[out_path cfg := x]> (<[out_path cfg := []]> fs) !! out_path cfg
          = <[out_path cfg := []]> fs !! out_path cfg) as Hlook by now rewrite <- Hx.
  rewrite !lookup_insert_eq in Hlook. congruence.
Qed.

Lemma loop_trace_bufsize {sample : Type} (cfg : config)
    (env : environment sample) (audio : list sample) (b : Z) (indices : list Z) :
  loop_trace cfg {| load_audio := load_audio env; transcribe := transcribe env;
            bufsize := b |}
    audio indices
  = loop_trace cfg env audio indices.
Proof.
  induction indices as [|i rest IH]; [reflexivity|].
  cbn [loop_trace]. unfold line_of. cbn [transcribe]. now rewrite IH.
Qed.

(** X11.  The size of the buffer of the file object shows only when the
    process is killed: a run that returns or raises gives, with any other
    buffer size, the same result and the same files. *)
Theorem buffer_size_shows_only_on_kill {sample : Type} (cfg : config)
    (env : environment sample) (fs : gmap string bytes) (b : Z) :
  fst (run cfg env fs) <> Killed ->
  run cfg {| load_audio := load_audio env; transcribe := transcribe env;
            bufsize := b |} fs
  = run cfg env fs.
Proof.
  intros Hnot.
  destruct (load_audio env (wav_path cfg)) as [audio|] eqn:Hload.
  2:{ now rewrite !run_load_error. }
  destruct (Z.eq_dec (segment_samples cfg) 0) as [Hzero|Hseg].
  { now rewrite !(run_zero_window cfg _ audio fs). }
  assert (sr cfg <> 0) as Hsr by (unfold segment_samples in Hseg; nia).
  rewrite (run_unfold cfg env audio fs Hload Hsr Hseg) in Hnot |- *.
  rewrite (run_unfold cfg {| load_audio := load_audio env; transcribe := transcribe env;
            bufsize := b |}
             audio fs Hload Hsr Hseg).
  cbn zeta in *. rewrite loop_trace_bufsize. cbn [fst] in Hnot.
  now destruct (snd (loop_trace cfg env audio _)).
Qed.

(** *** Lines of the output file *)

Lemma byte_of_N_line_feed (n : N) : byte_of_N n = x0a -> n = 10%N.
Proof.
  unfold byte_of_N. destruct (Byte.of_N n) as [b|] eqn:Hb; [|discriminate].
  intros ->. now apply Byte.to_of_N in Hb.
Qed.

Lemma count_line_feed_one (n : N) :
  n <> 10%N -> forall l, count_occ byte_eq_dec (byte_of_N n :: l) x0a
                         = count_occ byte_eq_dec l x0a.
Proof.
  intros Hn l. apply count_occ_cons_neq. intros Heq. now apply Hn, byte_of_N_line_feed.
Qed.

Lemma above_line_feed (a b : N) : (11 <= a)%N -> (a + b)%N <> 10%N.
Proof. lia. Qed.

Lemma utf8_char_line_feeds (c : N) :
  count_occ byte_eq_dec (utf8_char c) x0a
  = if N.eq_dec c newline then 1%nat else 0%nat.
Proof.
  unfold utf8_char, newline.
  destruct (N.ltb_spec c 128).
  - destruct (N.eq_dec c 10%N) as [->|Hne]; [reflexivity|].
    now rewrite count_line_feed_one.
  - destruct (N.eq_dec c 10%N) as [->|_]; [lia|].
    destruct (c <? 2048)%N; [|destruct (c <? 65536)%N];
      rewrite !count_line_feed_one by (apply above_line_feed; lia);
      reflexivity.
Qed.

(** The encoding puts a line-feed byte where the text has a line feed, and
    nowhere else. *)
Lemma utf8_line_feeds (s : str) :
  count_occ byte_eq_dec (utf8 s) x0a = count_occ N.eq_dec s newline.
Proof.
  induction s as [|c s IH]; [reflexivity|].
  change (utf8 (c :: s)) with (utf8_char c ++ utf8 s).
  rewrite count_occ_app, IH, utf8_char_line_feeds. cbn [count_occ].
  destruct (N.eq_dec c newline) as [->|Hne].
  - now destruct (N.eq_dec newline newline).
  - destruct (N.eq_dec c newline); [contradiction|reflexivity].
Qed.

Lemma count_occ_concat {A : Type} (dec : forall x y : A, {x = y} + {x <> y})
    (ls : list (list A)) (x : A) :
  (forall l, In l ls -> count_occ dec l x = 1%nat) ->
  count_occ dec (concat ls) x = List.length ls.
Proof.
  induction ls as [|l ls IH]; intros H; [reflexivity|].
  cbn [concat List.length]. rewrite count_occ_app, H by now left.
  rewrite IH; [reflexivity|]. intros l' Hl'. apply H. now right.
Qed.

(** X12.  In the bytes of the output file a line feed is a line
    terminator.  The encoding never produces the byte 0x0A except for a line
    feed of the text; so, when no recognized text holds a line feed (the ends
    are trimmed, the inside is not), a run that completes leaves as many
    line-feed bytes in the file as there are qualifying windows. *)
Theorem one_line_feed_per_line {sample : Type} (cfg : config)
    (env : environment sample) (audio : list sample) (fs : gmap string bytes) :
  load_audio env (wav_path cfg) = Some audio ->
  1 <= segment_sec cfg ->
  1 <= sr cfg ->
  let n := total_segments cfg (len audio) in
  (forall i, 0 <= i < n ->
     too_short cfg (segment_audio cfg audio i) = false ->
     exists result, transcribe env i (segment_audio cfg audio i) = Gives result) ->
  let T := transcript cfg env audio n in
  (forall l, In l T -> ~ In newline (line_text l)) ->
  (forall s : str,
     count_occ byte_eq_dec (utf8 s) x0a = count_occ N.eq_dec s newline)
  /\ exists written,
       run cfg env fs = (Returned tt, <[out_path cfg := written]> fs)
       /\ count_occ byte_eq_dec written x0a = List.length T.
Proof.
  intros Hload Hsec Hsr n Hall T Htext. subst n T.
  split; [exact utf8_line_feeds|].
  exists (render_all cfg (transcript cfg env audio (total_segments cfg (len audio)))).
  split.
  - rewrite (run_unfold cfg env audio fs Hload)
      by (unfold segment_samples; nia).
    cbn zeta.
    rewrite (loop_trace_answered cfg env audio _
               (all_answered_range cfg env audio _ Hall)).
    reflexivity.
  - unfold render_all. rewrite utf8_line_feeds, count_occ_concat.
    + now rewrite length_map.
    + intros s Hs. apply in_map_iff in Hs. destruct Hs as (l & <- & Hl).
      apply one_newline_per_line. now apply Htext.
Qed.

(** *** The further properties at sample inputs *)

(** X1 on the script's settings and a recording of 75.75 seconds. *)
Lemma float_window_count_witness :
  let cfg := script_config in
  let total_samples := 1212000 in
  (0 <= total_samples < 2 ^ 52)
  /\ (1 <= segment_samples cfg < 2 ^ 53)
  /\ (let n := float_ceil (float_quot total_samples (segment_samples cfg)) in
    n = total_segments cfg total_samples
    /\ (n - 1) * segment_samples cfg < total_samples <= n * segment_samples cfg
    /\ (forall m, total_samples <= m * segment_samples cfg -> n <= m)).
Proof.
  intros cfg total_samples. subst cfg total_samples. cbv zeta.
  split; [lia|].
  split; [change (segment_samples script_config) with 480000; lia|].
  refine (float_window_count script_config 1212000 _ _);
    [lia
    |change (segment_samples script_config) with 480000; lia].
Defined.

(** X2 on the script's settings and a quarter of a second of audio. *)
Lemma float_threshold_test_witness :
  let cfg := script_config in
  let segment_audio := silence 4000 in
  (len segment_audio < 2 ^ 53)
  /\ (1 <= sr cfg < 2 ^ 53)
  /\ (float_lt (float_of_int (len segment_audio))
      (float_mul (float_of_int (sr cfg)) float_half) = true
    <-> 2 * len segment_audio < sr cfg).
Proof.
  intros cfg segment_audio. subst cfg segment_audio. cbv zeta.
  split; [rewrite len_silence by lia; lia|].
  split; [change (sr script_config) with 16000; lia|].
  refine (float_threshold_test script_config (silence 4000) _ _);
    [rewrite len_silence by lia; lia
    |change (sr script_config) with 16000; lia].
Defined.

(** X3 on a window of -30 seconds and a recording of one minute. *)
Lemma float_window_count_negative_witness :
  let cfg := negative_window in
  let total_samples := 960000 in
  (0 <= total_samples < 2 ^ 53)
  /\ (- 2 ^ 53 < segment_samples cfg < 0)
  /\ float_ceil (float_quot total_samples (segment_samples cfg)) <= 0
    /\ range (float_ceil (float_quot total_samples (segment_samples cfg))) = []
    /\ range (total_segments cfg total_samples) = [].
Proof.
  intros cfg total_samples. subst cfg total_samples. cbv zeta.
  split; [lia|].
  split; [change (segment_samples negative_window) with (-480000); lia|].
  refine (float_window_count_negative negative_window 960000 _ _);
    [lia
    |change (segment_samples negative_window) with (-480000); lia].
Defined.

(** X4 on the second window of a recording of 75.75 seconds. *)
Lemma whole_second_timestamps_witness :
  let cfg := script_config in
  let audio := silence 1212000 in
  let i := 1 in
  (1 <= segment_sec cfg)
  /\ (1 <= sr cfg < 2 ^ 53)
  /\ (len audio < 2 ^ 53)
  /\ (0 <= i < total_segments cfg (len audio))
  /\ (let n := total_segments cfg (len audio) in
    let seconds := fun k => rjust 6 (digits (k * segment_sec cfg) ++ lit ".0") in
    float_quot (window_start cfg i) (sr cfg) = float_of_int (i * segment_sec cfg)
    /\ format_6_1f (float_quot (window_start cfg i) (sr cfg)) = seconds i
    /\ (i < n - 1 ->
        format_6_1f (float_quot (window_end cfg (len audio) i) (sr cfg))
        = seconds (i + 1))
    /\ (i = n - 1 ->
        float_quot (window_end cfg (len audio) i) (sr cfg)
        = float_quot (len audio) (sr cfg))
    /\ (forall k, 0 <= k -> k * segment_sec cfg < 10000 -> len (seconds k) = 6)).
Proof.
  intros cfg audio i. subst cfg audio i. cbv zeta.
  split; [vm_compute; discriminate|].
  split; [change (sr script_config) with 16000; lia|].
  split; [rewrite len_silence by lia; lia|].
  split; [rewrite len_silence by lia; change (total_segments script_config 1212000) with 3; lia|].
  refine (whole_second_timestamps script_config (silence 1212000) 1 _ _ _ _);
    [vm_compute; discriminate
    |change (sr script_config) with 16000; lia
    |rewrite len_silence by lia; lia
    |rewrite len_silence by lia; change (total_segments script_config 1212000) with 3; lia].
Defined.

(** X5 on the script's settings and a recording of 75.75 seconds. *)
Lemma windows_concat_to_buffer_witness :
  let cfg := script_config in
  let audio := silence 1212000 in
  (1 <= segment_samples cfg)
  /\ concat (List.map (segment_audio cfg audio)
              (range (total_segments cfg (len audio))))
    = audio.
Proof.
  intros cfg audio. subst cfg audio. cbv zeta.
  split; [vm_compute; discriminate|].
  refine (windows_concat_to_buffer script_config (silence 1212000) _);
    [vm_compute; discriminate].
Defined.

(** X6 on the path of the recording, with the script's settings. *)
Lemma run_changes_only_output_witness :
  let cfg := script_config in
  let env := studio 1212000 always_hello in
  let fs := with_earlier_transcript in
  let p := "files.wav"%string in
  (p <> out_path cfg)
  /\ snd (run cfg env fs) !! p = fs !! p.
Proof.
  intros cfg env fs p. subst cfg env fs p. cbv zeta.
  split; [vm_compute; discriminate|].
  refine (run_changes_only_output script_config (studio 1212000 always_hello) with_earlier_transcript "files.wav"%string _);
    [vm_compute; discriminate].
Defined.


(** X8 on a recording with two extensions in a directory with a dot in
    its name. *)
Lemma output_path_of_name_witness :
  let cfg := archived_recording in
  let dir := "talks.v2/"%string in
  let name := "day1.final"%string in
  let ext := "wav"%string in
  (wav_path cfg = (dir ++ name ++ "." ++ ext)%string)
  /\ ((dir = EmptyString \/ exists d, dir = (d ++ "/")%string))
  /\ (~ In "/"%char (list_ascii_of_string name))
  /\ ((exists c, In c (list_ascii_of_string name) /\ c <> "."%char))
  /\ (~ In "."%char (list_ascii_of_string ext))
  /\ (~ In "/"%char (list_ascii_of_string ext))
  /\ splitext (wav_path cfg) = ((dir ++ name)%string, ("." ++ ext)%string)
    /\ out_path cfg = (dir ++ name ++ ".txt")%string.
Proof.
  intros cfg dir name ext. subst cfg dir name ext. cbv zeta.
  split; [reflexivity|].
  split; [right; exists "talks.v2"%string; reflexivity|].
  split; [vm_compute; intuition discriminate|].
  split; [exists "d"%char; split; [now left|discriminate]|].
  split; [vm_compute; intuition discriminate|].
  split; [vm_compute; intuition discriminate|].
  refine (output_path_of_name archived_recording "talks.v2/"%string "day1.final"%string "wav"%string _ _ _ _ _ _);
    [reflexivity
    |right; exists "talks.v2"%string; reflexivity
    |vm_compute; intuition discriminate
    |exists "d"%char; split; [now left|discriminate]
    |vm_compute; intuition discriminate
    |vm_compute; intuition discriminate].
Defined.

(** X9 on a recording whose name starts with a dot. *)
Lemma output_path_without_extension_witness :
  let cfg := hidden_recording in
  let dir := "talks.v2/"%string in
  let dots := "."%string in
  let name := "day1"%string in
  (wav_path cfg = (dir ++ dots ++ name)%string)
  /\ ((dir = EmptyString \/ exists d, dir = (d ++ "/")%string))
  /\ ((forall c, In c (list_ascii_of_string dots) -> c = "."%char))
  /\ (~ In "."%char (list_ascii_of_string name))
  /\ (~ In "/"%char (list_ascii_of_string name))
  /\ splitext (wav_path cfg) = (wav_path cfg, EmptyString)
    /\ out_path cfg = (wav_path cfg ++ ".txt")%string.
Proof.
  intros cfg dir dots name. subst cfg dir dots name. cbv zeta.
  split; [reflexivity|].
  split; [right; exists "talks.v2"%string; reflexivity|].
  split; [intros c [<-|[]]; reflexivity|].
  split; [vm_compute; intuition discriminate|].
  split; [vm_compute; intuition discriminate|].
  refine (output_path_without_extension hidden_recording "talks.v2/"%string "."%string "day1"%string _ _ _ _ _);
    [reflexivity
    |right; exists "talks.v2"%string; reflexivity
    |intros c [<-|[]]; reflexivity
    |vm_compute; intuition discriminate
    |vm_compute; intuition discriminate].
Defined.

(** X10 on a recording of three windows, the process killed during the
    second. *)
Lemma killed_run_keeps_prefix_witness :
  let cfg := script_config in
  let env := studio 1212000 (dies_at 1) in
  let audio := silence 1212000 in
  let fs := with_earlier_transcript in
  let k := 1 in
  (load_audio env (wav_path cfg) = Some audio)
  /\ (1 <= segment_samples cfg)
  /\ (0 <= k < total_segments cfg (len audio))
  /\ (too_short cfg (segment_audio cfg audio k) = false)
  /\ (transcribe env k (segment_audio cfg audio k) = Dies)
  /\ ((forall i, 0 <= i < k ->
       too_short cfg (segment_audio cfg audio i) = false ->
       exists result, transcribe env i (segment_audio cfg audio i) = Gives result))
  /\ exists on_disk lost,
      run cfg env fs = (Killed, <[out_path cfg := on_disk]> fs)
      /\ render_all cfg (transcript cfg env audio k) = on_disk ++ lost
      /\ (len (render_all cfg (transcript cfg env audio k)) < bufsize env ->
          on_disk = []).
Proof.
  intros cfg env audio fs k. subst cfg env audio fs k. cbv zeta.
  split; [reflexivity|].
  split; [vm_compute; discriminate|].
  split; [rewrite len_silence by lia; change (total_segments script_config 1212000) with 3; lia|].
  split; [rewrite too_short_by_bounds;
      [rewrite len_silence by lia; reflexivity|vm_compute; discriminate
      |rewrite len_silence by lia; change (total_segments script_config 1212000) with 3; lia]|].
  split; [reflexivity|].
  split; [intros i Hi _; exists hello; assert (i = 0) as -> by lia; reflexivity|].
  refine (killed_run_keeps_prefix script_config (studio 1212000 (dies_at 1)) (silence 1212000) with_earlier_transcript 1 _ _ _ _ _ _);
    [reflexivity
    |vm_compute; discriminate
    |rewrite len_silence by lia; change (total_segments script_config 1212000) with 3; lia
    |rewrite too_short_by_bounds;
      [rewrite len_silence by lia; reflexivity|vm_compute; discriminate
      |rewrite len_silence by lia; change (total_segments script_config 1212000) with 3; lia]
    |reflexivity
    |intros i Hi _; exists hello; assert (i = 0) as -> by lia; reflexivity].
Defined.

(** X11 on a recording of one window, with no buffer at all. *)
Lemma buffer_size_shows_only_on_kill_witness :
  let cfg := script_config in
  let env := studio 480000 always_hello in
  let fs := (∅ : gmap string bytes) in
  let b := 0 in
  (fst (run cfg env fs) <> Killed)
  /\ run cfg {| load_audio := load_audio env; transcribe := transcribe env;
              bufsize := b |} fs
    = run cfg env fs.
Proof.
  intros cfg env fs b. subst cfg env fs b. cbv zeta.
  split; [rewrite (run_unfold script_config (studio 480000 always_hello) (silence 480000) ∅ eq_refl)
      by (vm_compute; discriminate);
    cbn zeta; rewrite half_minute_recording; discriminate|].
  refine (buffer_size_shows_only_on_kill script_config (studio 480000 always_hello) ((∅ : gmap string bytes)) 0 _);
    [rewrite (run_unfold script_config (studio 480000 always_hello) (silence 480000) ∅ eq_refl)
      by (vm_compute; discriminate);
    cbn zeta; rewrite half_minute_recording; discriminate].
Defined.

(** X12 on a recording of three windows with "hello" recognized in each. *)
Lemma one_line_feed_per_line_witness :
  let cfg := script_config in
  let env := studio 1212000 always_hello in
  let audio := silence 1212000 in
  let fs := (∅ : gmap string bytes) in
  (load_audio env (wav_path cfg) = Some audio)
  /\ (1 <= segment_sec cfg)
  /\ (1 <= sr cfg)
  /\ (let n := total_segments cfg (len audio) in
  ((forall i, 0 <= i < n ->
       too_short cfg (segment_audio cfg audio i) = false ->
       exists result, transcribe env i (segment_audio cfg audio i) = Gives result))
  /\ (let T := transcript cfg env audio n in
  ((forall l, In l T -> ~ In newline (line_text l)))
  /\ (forall s : str,
       count_occ byte_eq_dec (utf8 s) x0a = count_occ N.eq_dec s newline)
    /\ exists written,
         run cfg env fs = (Returned tt, <[out_path cfg := written]> fs)
         /\ count_occ byte_eq_dec written x0a = List.length T)).
Proof.
  intros cfg env audio fs. subst cfg env audio fs. cbv zeta.
  split; [reflexivity|].
  split; [vm_compute; discriminate|].
  split; [vm_compute; discriminate|].
  split; [intros i _ _; exists hello; reflexivity|].
  split; [intros l Hl; apply transcript_indices in Hl; destruct Hl as [_ Hl];
    apply line_of_render in Hl; destruct Hl as (result & _ & Hres & Htext & _);
    change (Gives hello = Gives result) in Hres; injection Hres as <-;
    rewrite <- Htext; vm_compute; intuition discriminate|].
  refine (one_line_feed_per_line script_config (studio 1212000 always_hello) (silence 1212000) ((∅ : gmap string bytes)) _ _ _ _ _);
    [reflexivity
    |vm_compute; discriminate
    |vm_compute; discriminate
    |intros i _ _; exists hello; reflexivity
    |intros l Hl; apply transcript_indices in Hl; destruct Hl as [_ Hl];
    apply line_of_render in Hl; destruct Hl as (result & _ & Hres & Htext & _);
    change (Gives hello = Gives result) in Hres; injection Hres as <-;
    rewrite <- Htext; vm_compute; intuition discriminate].
Defined.
